(** * cube_tools.core.data_objects: containers for IFU data cubes

    A shallow embedding of [src/cube_tools/core/data_objects.py]
    ([BaseData], [CubeData], [SpectrumData], [ImageData]) and the
    properties of its slicing, reduction and arithmetic operations.

    Conventions of the embedding.
    - numpy [float64] scalars are Rocq's primitive binary64 floats.
    - An n-dimensional numpy array is a shape together with its items in
      row-major (C) order.
    - Python exceptions are values of [exception]; a method that may raise
      returns a [result].
    - Services of numpy and astropy whose results are not fixed bit for bit
      by their documentation (libm's [exp], the masked reductions, the
      arithmetic mixin of [astropy.nddata]) are fields of the class
      [Externals]; the methods of this module are parametric in them. *)

From Stdlib Require Import ZArith Floats Strings.String Strings.Ascii.
From stdpp Require Import base option list gmap strings pretty.

Local Open Scope string_scope.
Local Open Scope Z_scope.

(** ** Exceptions and results *)

Inductive exception :=
| IndexError
| TypeError
| AttributeError
| UnboundLocalError
| NotImplementedError
| MaskError
| ValueError.

Inductive result (A : Type) :=
| Ok (a : A)
| Raise (e : exception).
Arguments Ok {A} a.
Arguments Raise {A} e.

#[global] Instance result_ret : MRet result := @Ok.
#[global] Instance result_bind : MBind result := fun A B f r =>
  match r with
  | Ok a => f a
  | Raise e => Raise e
  end.

#[global] Instance result_fmap : FMap result := fun A B f r =>
  match r with
  | Ok a => Ok (f a)
  | Raise e => Raise e
  end.

Definition from_option {A} (e : exception) (o : option A) : result A :=
  match o with
  | Some a => Ok a
  | None => Raise e
  end.

Definition is_Ok {A} (r : result A) : Prop := exists a, r = Ok a.

(** ** float64 helpers *)

Module F64.

Definition zero : float := 0%float.
Definition one : float := 1%float.

(** Conversion of an array index or length to [float64] (C's
    [(double) i] for a non-negative [npy_intp]). *)
Definition of_nat (n : nat) : float :=
  PrimFloat.of_uint63 (Uint63.of_Z (Z.of_nat n)).

(** [ceil x] as an integer; [None] for NaN and the infinities. *)
Definition ceil (x : float) : option Z :=
  match Prim2SF x with
  | S754_zero _ => Some 0
  | S754_finite s m e =>
      if 0 <=? e then Some (cond_Zopp s (Z.pos m * 2 ^ e))
      else
        let d := 2 ^ (- e) in
        Some (if s then - (Z.pos m / d) else - ((- Z.pos m) / d))
  | S754_infinity _ | S754_nan => None
  end.

(** Python truth value of a float ([bool(x)], [astype(bool)]). *)
Definition truthy (x : float) : bool := negb (PrimFloat.eqb x zero).

End F64.

(** ** numpy arrays *)

Record ndarray (A : Type) := NDArray {
  shape : list nat;
  items : list A
}.
Arguments NDArray {A} shape items.
Arguments shape {A} n.
Arguments items {A} n.

Definition prod_shape (s : list nat) : nat := foldr Nat.mul 1%nat s.

(** The invariant numpy maintains: as many items as the shape announces. *)
Definition wf_ndarray {A} (a : ndarray A) : Prop :=
  length (items a) = prod_shape (shape a).

(** Normalisation of a Python integer index against a length [n]:
    negative indices count from the end, anything outside [-n, n) raises. *)
Definition py_index (n : nat) (i : Z) : result nat :=
  if (0 <=? i) && (i <? Z.of_nat n) then Ok (Z.to_nat i)
  else if (- Z.of_nat n <=? i) && (i <? 0) then Ok (Z.to_nat (i + Z.of_nat n))
  else Raise IndexError.

(** [l[i]] on a Python sequence. *)
Definition py_getitem {A} (l : list A) (i : Z) : result A :=
  k ← py_index (length l) i;
  from_option IndexError (l !! k).

(** [a[k, i, j]] on a 3-D array: one scalar. *)
Definition getitem_scalar3 {A} (a : ndarray A) (k i j : nat) : option A :=
  match shape a with
  | [n; h; w] =>
      if decide (k < n ∧ i < h ∧ j < w)%nat
      then items a !! ((k * h + i) * w + j)%nat
      else None
  | _ => None
  end.

(** [a[:, i, j]]: every index of axis 0, one index on each of axes 1 and 2.
    On an array of rank r >= 3 the result has rank r - 2. *)
Definition getitem_colon_i_j {A} (a : ndarray A) (i j : Z) : result (ndarray A) :=
  match shape a with
  | n :: h :: w :: rest =>
      i' ← py_index h i;
      j' ← py_index w j;
      let r := prod_shape rest in
      Ok (NDArray (n :: rest)
            (concat ((λ k, take r (drop (((k * h + i') * w + j') * r)%nat (items a)))
                       <$> seq 0 n)))
  | _ => Raise IndexError
  end.

(** A Python [slice(start, stop)] resolved against a length (the
    [slice.indices] rule for a positive unit step). *)
Definition slice_bound (n : nat) (i : Z) : nat :=
  let i' := if i <? 0 then i + Z.of_nat n else i in
  Z.to_nat (Z.min (Z.max i' 0) (Z.of_nat n)).

(** [a[start:stop, :, :]]. *)
Definition getitem_slice0 {A} (a : ndarray A) (start stop : Z) : result (ndarray A) :=
  match shape a with
  | n :: h :: w :: rest =>
      let lo := slice_bound n start in
      let hi := slice_bound n stop in
      let inner := prod_shape (h :: w :: rest) in
      Ok (NDArray ((hi - lo)%nat :: h :: w :: rest)
            (take ((hi - lo) * inner)%nat (drop (lo * inner)%nat (items a))))
  | _ => Raise IndexError
  end.

(** [np.empty(shape)] followed by [fill(v)]: the array is allocated
    uninitialised ([junk] stands for whatever the memory held) and then
    every item is overwritten. *)
Definition np_empty (junk : nat → float) (s : list nat) : ndarray float :=
  NDArray s (junk <$> seq 0 (prod_shape s)).

Definition ndarray_fill {A} (a : ndarray A) (v : A) : ndarray A :=
  NDArray (shape a) ((λ _, v) <$> items a).

(** [np.arange(start, stop, step)] on float64 arguments: the length is
    [ceil((stop - start) / step)] computed in double precision, item 0 is
    [start], item 1 is [start + step] and item [i >= 2] is
    [start + i * delta] with [delta = (start + step) - start]. *)
Definition max_intp : Z := 2 ^ 63 - 1.

Definition arange_items (start next : float) (len : nat) : list float :=
  let delta := PrimFloat.sub next start in
  (λ i, match i with
        | O => start
        | S O => next
        | _ => PrimFloat.add start (PrimFloat.mul (F64.of_nat i) delta)
        end) <$> seq 0 len.

Definition np_arange (start stop step : float) : result (list float) :=
  match F64.ceil (PrimFloat.div (PrimFloat.sub stop start) step) with
  | None => Raise ValueError
  | Some len =>
      if len <=? 0 then Ok []
      else if max_intp <? len then Raise ValueError
      else Ok (arange_items start (PrimFloat.add start step) (Z.to_nat len))
  end.

(** [np.arange(n)] on an integer, read as float64 (the conversion numpy
    applies as soon as the sequence meets a float64 operand or becomes a
    [Quantity]). *)
Definition np_arange_int (n : nat) : list float := F64.of_nat <$> seq 0 n.

Definition np_logical_not (m : ndarray bool) : ndarray bool :=
  NDArray (shape m) (negb <$> items m).

(** ** numpy.ma masked arrays *)

Record MaskedArray := MkMaskedArray {
  ma_data : ndarray float;
  ma_mask : ndarray bool
}.

(** [np.ma.masked_array(data, mask=m)].  [mask=None] is read by
    [np.array(None, dtype=bool)] as the scalar [False], a mask of one item is
    resized to the data's shape, a mask with as many items as the data is
    reshaped, anything else is a [MaskError]. *)
Definition np_ma_masked_array (d : ndarray float) (m : option (ndarray bool))
  : result MaskedArray :=
  match m with
  | None => Ok (MkMaskedArray d (NDArray (shape d) ((λ _, false) <$> items d)))
  | Some m =>
      if decide (shape m = shape d) then Ok (MkMaskedArray d m)
      else
        match items m with
        | [b] => Ok (MkMaskedArray d (NDArray (shape d) ((λ _, b) <$> items d)))
        | _ =>
            if decide (length (items m) = length (items d))
            then Ok (MkMaskedArray d (NDArray (shape d) (items m)))
            else Raise MaskError
        end
  end.

(** [~filter_mask]: bitwise not of a boolean array; on [None] Python raises
    [TypeError: bad operand type for unary ~: 'NoneType']. *)
Definition py_invert (m : option (ndarray bool)) : result (ndarray bool) :=
  match m with
  | Some m => Ok (np_logical_not m)
  | None => Raise TypeError
  end.

Definition ma_getitem_slice0 (m : MaskedArray) (start stop : Z) : result MaskedArray :=
  d ← getitem_slice0 (ma_data m) start stop;
  k ← getitem_slice0 (ma_mask m) start stop;
  Ok (MkMaskedArray d k).

Definition ma_getitem_colon_i_j (m : MaskedArray) (i j : Z) : result MaskedArray :=
  d ← getitem_colon_i_j (ma_data m) i j;
  k ← getitem_colon_i_j (ma_mask m) i j;
  Ok (MkMaskedArray d k).

(** ** astropy.units and astropy.wcs *)

Inductive Unit :=
| dimensionless_unscaled
| NamedUnit (name : string)
| UnitMul (u v : Unit)
| UnitDiv (u v : Unit).

#[global] Instance Unit_eq_dec : EqDecision Unit.
Proof. solve_decision. Defined.

(** [u.Unit(x)] applied to what is already a unit returns it. *)
Definition u_Unit (x : Unit) : Unit := x.

Record Quantity := MkQuantity {
  q_value : ndarray float;
  q_unit : Unit
}.

(** [u.Quantity(value, unit)]; [unit=None] is the dimensionless unit. *)
Definition u_Quantity (v : ndarray float) (u : option Unit) : Quantity :=
  MkQuantity v (default dimensionless_unscaled u).

Definition array1 {A} (l : list A) : ndarray A := NDArray [length l] l.

(** The fields of [wcs.wcs] (wcslib's parameter structure) that the
    containers read.  [cd] is absent when the header carries no CD matrix:
    reading it then raises [AttributeError]. *)
Record WCS := MkWCS {
  crpix : list float;
  crval : list float;
  cdelt : list float;
  cunit : list Unit;
  ctype : list string;
  cd : option (list (list float))
}.

(** ** astropy.nddata.NDData *)

Record NDUncertainty := MkUncertainty {
  unc_class : string;
  unc_array : ndarray float
}.

(** What a [mask] attribute may hold: a boolean array, or (after
    [SpectrumData.collapse]) a masked array of floats. *)
Inductive mask_t :=
| MaskBool (m : ndarray bool)
| MaskMasked (m : MaskedArray).

(** [np.array(mask, dtype=bool)]. *)
Definition mask_as_bool (m : mask_t) : ndarray bool :=
  match m with
  | MaskBool b => b
  | MaskMasked a => NDArray (shape (ma_data a)) (F64.truthy <$> items (ma_data a))
  end.

Definition Meta := list (string * string).

(** The attributes every [NDData] carries; also the keyword arguments of
    its constructor. *)
Record NDData := MkNDData {
  nd_data : ndarray float;
  nd_uncertainty : option NDUncertainty;
  nd_mask : option mask_t;
  nd_wcs : option WCS;
  nd_meta : Meta;
  nd_unit : option Unit
}.

Inductive arith_op := Add | Sub | Mul | Div.

Definition float_op (op : arith_op) : float → float → float :=
  match op with
  | Add => PrimFloat.add
  | Sub => PrimFloat.sub
  | Mul => PrimFloat.mul
  | Div => PrimFloat.div
  end.

(** The data-model invariant of a cube of shape (n, h, w): data,
    uncertainty and mask (when present) share that shape, and the mask is
    a boolean array. *)
Definition has_layout {A} (a : ndarray A) (s : list nat) : bool :=
  bool_decide (shape a = s) && bool_decide (length (items a) = prod_shape s).

Definition nddata_wf (d : NDData) (s : list nat) : bool :=
  has_layout (nd_data d) s
  && match nd_uncertainty d with
     | Some u => has_layout (unc_array u) s
     | None => true
     end
  && match nd_mask d with
     | Some (MaskBool b) => has_layout b s
     | Some (MaskMasked _) => false
     | None => true
     end.

(** ** External services

    - [np_exp]: [numpy.exp] on one float64 (the platform's libm).
    - [ma_mean], [ma_sum]: the methods [MaskedArray.mean(axis=)] and
      [MaskedArray.sum(axis=)]; [np_ma_median]: the function
      [np.ma.median(a, axis=)].  (A masked array has no [median] method.)
    - [nd_arithmetic]: [NDArithmeticMixin.add/subtract/multiply/divide],
      up to the construction of the result: it yields the keyword
      arguments with which the mixin calls the receiver's class.
    - [uninitialised]: the contents of memory handed out by [np.empty]. *)
Class Externals := {
  np_exp : float → float;
  ma_mean : MaskedArray → Z → result MaskedArray;
  ma_sum : MaskedArray → Z → result MaskedArray;
  np_ma_median : MaskedArray → Z → result MaskedArray;
  nd_arithmetic : arith_op → NDData → NDData → result NDData;
  uninitialised : nat → float
}.

(** ** The containers *)

Record CubeData := MkCubeData {
  cube_base : NDData
}.

Record SpectrumData := MkSpectrumData {
  sp_base : NDData;
  sp_dispersion : Quantity;
  sp_cross_dispersion : option Quantity;
  sp_flux : Quantity;
  sp_error : option Quantity
}.

(** [im_axes] holds [_dispersion] and [_cross_dispersion]; the two
    attributes exist only on an image built with a coordinate mapping. *)
Record ImageData := MkImageData {
  im_base : NDData;
  im_axes : option (Quantity * Quantity)
}.

Section Containers.
Context `{E : Externals}.

(** The log-wavelength transform of [SpectrumData.__init__]:
    [crval[2] * np.exp(cd[2][2] * (disp_data - crpix[2]) / crval[2])]. *)
Definition wave_log (v c p v' : float) (x : float) : float :=
  PrimFloat.mul v
    (np_exp (PrimFloat.div (PrimFloat.mul c (PrimFloat.sub x p)) v')).

(** The candidate index sequence
    [np.arange(crpix[-1], crpix[-1] + data.shape[0])]. *)
Definition candidate (p : float) (n : nat) : result (list float) :=
  np_arange p (PrimFloat.add p (F64.of_nat n)) F64.one.

(** [disp_data] after the length check: the candidate, or
    [np.arange(data.shape[0])] when the candidate's size is not
    [data.shape[0]]. *)
Definition index_sequence (p : float) (n : nat) : result (list float) :=
  cand ← candidate p n;
  Ok (if decide (length cand ≠ n) then np_arange_int n else cand).

(** The body of [if self.wcs is not None:] in [SpectrumData.__init__];
    it binds [disp_data], [disp_unit] and [_cross_dispersion].  Of [self]
    it reads [self.data.shape] only, passed as [shp]. *)
Definition spectrum_axes (shp : list nat) (w : WCS)
  : result (list float * Unit * option Quantity) :=
  p ← py_getitem (crpix w) (-1);
  n ← from_option IndexError (shp !! 0%nat);
  disp_data ← index_sequence p n;
  disp_unit ← (if decide (length (cunit w) = 3%nat)
               then u_Unit <$> py_getitem (cunit w) (-1)
               else u_Unit <$> py_getitem (cunit w) 0);
  t ← py_getitem (ctype w) (-1);
  disp_data ← (if String.eqb t "WAVE-LOG" then
                 v ← py_getitem (crval w) 2;
                 m ← from_option AttributeError (cd w);
                 row ← py_getitem m 2;
                 c ← py_getitem row 2;
                 p2 ← py_getitem (crpix w) 2;
                 v' ← py_getitem (crval w) 2;
                 Ok (wave_log v c p2 v' <$> (disp_data : list float))
               else Ok disp_data);
  cross ← (if decide (1 < length shp)%nat then
             c_start ← py_getitem (crval w) 1;
             c_step ← py_getitem (cdelt w) 1;
             s1 ← from_option IndexError (shp !! 1%nat);
             let c_stop := PrimFloat.add c_start (PrimFloat.mul c_step (F64.of_nat s1)) in
             a ← np_arange c_start c_stop c_step;
             cu ← py_getitem (cunit w) 1;
             Ok (Some (MkQuantity (array1 a) (u_Unit cu)))
           else Ok None);
  Ok (disp_data, disp_unit, cross).

(** [SpectrumData.__init__].  Without a coordinate mapping the names
    [disp_data] and [disp_unit] are never bound, and the statement that
    builds [_dispersion] raises [UnboundLocalError]. *)
Definition SpectrumData___init__ (self : NDData) : result SpectrumData :=
  bound ← match nd_wcs self with
          | Some w => Some <$> spectrum_axes (shape (nd_data self)) w
          | None => Ok None
          end;
  match bound with
  | None => Raise UnboundLocalError
  | Some (disp_data, disp_unit, cross) =>
      Ok {| sp_base := self;
            sp_dispersion := u_Quantity (array1 disp_data) (Some disp_unit);
            sp_cross_dispersion := cross;
            sp_flux := u_Quantity (nd_data self) (nd_unit self);
            sp_error := (λ u, u_Quantity (unc_array u) (nd_unit self))
                          <$> nd_uncertainty self |}
  end.

(** The body of [if self.wcs is not None:] in [ImageData.__init__]; of
    [self] it reads [self.data.shape] only. *)
Definition image_axes (shp : list nat) (w : WCS) : result (Quantity * Quantity) :=
  d_start ← py_getitem (crval w) 0;
  d_step ← py_getitem (cdelt w) 0;
  s0 ← from_option IndexError (shp !! 0%nat);
  let d_stop := PrimFloat.add d_start (PrimFloat.mul d_step (F64.of_nat s0)) in
  d ← np_arange d_start d_stop d_step;
  du ← py_getitem (cunit w) 0;
  c_start ← py_getitem (crval w) 1;
  c_step ← py_getitem (cdelt w) 1;
  s1 ← from_option IndexError (shp !! 1%nat);
  let c_stop := PrimFloat.add c_start (PrimFloat.mul c_step (F64.of_nat s1)) in
  c ← np_arange c_start c_stop c_step;
  cu ← py_getitem (cunit w) 1;
  Ok (MkQuantity (array1 d) (u_Unit du), MkQuantity (array1 c) (u_Unit cu)).

Definition ImageData___init__ (self : NDData) : result ImageData :=
  axes ← match nd_wcs self with
         | Some w => Some <$> image_axes (shape (nd_data self)) w
         | None => Ok None
         end;
  Ok {| im_base := self; im_axes := axes |}.

Definition CubeData___init__ (self : NDData) : result CubeData :=
  Ok {| cube_base := self |}.

End Containers.

Section Methods.
Context `{E : Externals}.

(** [uncertainty[:, i, j]]: the uncertainty's class applied to the
    indexed array. *)
Definition uncertainty_getitem (u : NDUncertainty) (i j : Z) : result NDUncertainty :=
  a ← getitem_colon_i_j (unc_array u) i j;
  Ok (MkUncertainty (unc_class u) a).

Definition mask_getitem (m : mask_t) (i j : Z) : result mask_t :=
  match m with
  | MaskBool b => MaskBool <$> getitem_colon_i_j b i j
  | MaskMasked a => MaskMasked <$> ma_getitem_colon_i_j a i j
  end.

(** *** CubeData *)

Definition get_spectrum (self : CubeData) (x y : Z) : result SpectrumData :=
  let self := cube_base self in
  new_data ← getitem_colon_i_j (nd_data self) y x;
  new_uncertainty ← match nd_uncertainty self with
                    | Some u => Some <$> uncertainty_getitem u x y
                    | None => Ok None
                    end;
  new_mask ← match nd_mask self with
             | Some m => Some <$> mask_getitem m x y
             | None => Ok None
             end;
  SpectrumData___init__
    {| nd_data := new_data; nd_uncertainty := new_uncertainty;
       nd_mask := new_mask; nd_wcs := nd_wcs self;
       nd_meta := nd_meta self; nd_unit := nd_unit self |}.

(** [self.uncertainty.array]: an [AttributeError] when the uncertainty
    is [None]. *)
Definition uncertainty_array (self : NDData) : result (ndarray float) :=
  unc_array <$> from_option AttributeError (nd_uncertainty self).

Definition collapse_to_spectrum (self : CubeData) (method : string)
    (filter_mask : option (ndarray bool))
  : result (SpectrumData * ndarray bool) :=
  let self := cube_base self in
  inv ← py_invert filter_mask;
  mdata ← np_ma_masked_array (nd_data self) (Some inv);
  ua ← uncertainty_array self;
  inv' ← py_invert filter_mask;
  udata ← np_ma_masked_array ua (Some inv');
  reduced ← (if String.eqb method "mean" then
               m1 ← ma_mean mdata 1;
               new_mdata ← ma_mean m1 1;
               u1 ← ma_mean udata 1;
               new_udata ← ma_mean u1 1;
               Ok (Some (new_mdata, new_udata))
             else if String.eqb method "median" then
               (* mdata.median: no such attribute on a masked array *)
               Raise AttributeError
             else Ok None);
  match reduced with
  | None => Raise UnboundLocalError
  | Some (new_mdata, new_udata) =>
      u ← from_option AttributeError (nd_uncertainty self);
      s ← SpectrumData___init__
             {| nd_data := ma_data new_mdata;
                nd_uncertainty := Some (MkUncertainty (unc_class u) (ma_data new_udata));
                nd_mask := Some (MaskBool (ma_mask udata));
                nd_wcs := nd_wcs self; nd_meta := nd_meta self;
                nd_unit := nd_unit self |};
      Ok (s, np_logical_not (ma_mask new_mdata))
  end.

(** The first statements of [collapse_to_image]: the cube's data as a
    masked array under the cube's own mask, cut to [wavelength_range]. *)
Definition image_mdata (self : NDData) (wavelength_range : option (Z * Z))
  : result MaskedArray :=
  mdata ← np_ma_masked_array (nd_data self) (mask_as_bool <$> nd_mask self);
  match wavelength_range with
  | Some (start, stop) => ma_getitem_slice0 mdata start stop
  | None => Ok mdata
  end.

Definition collapse_to_image (self : CubeData) (wavelength_range : option (Z * Z))
    (method : string) (axis : Z) : result ImageData :=
  let self := cube_base self in
  mdata ← image_mdata self wavelength_range;
  bound ← (if String.eqb method "mean" then Some <$> ma_mean mdata axis
           else if String.eqb method "median" then Some <$> np_ma_median mdata axis
           else if String.eqb method "mode" then Ok None
           else Raise NotImplementedError);
  match bound with
  | None => Raise UnboundLocalError
  | Some new_data =>
      ImageData___init__
        {| nd_data := ma_data new_data; nd_uncertainty := None;
           nd_mask := nd_mask self; nd_wcs := nd_wcs self;
           nd_meta := nd_meta self; nd_unit := nd_unit self |}
  end.

(** *** SpectrumData *)

Definition collapse (self : SpectrumData) (method : string) (axis : Z)
    (filter_mask : option (ndarray bool)) : result SpectrumData :=
  let self := sp_base self in
  let filter_mask := np_logical_not <$> filter_mask in
  mdata ← np_ma_masked_array (nd_data self) filter_mask;
  ua ← uncertainty_array self;
  udata ← np_ma_masked_array ua filter_mask;
  reduced ← (if String.eqb method "mean" then
               new_mdata ← ma_mean mdata axis;
               new_udata ← ma_mean udata axis;
               Ok (Some (new_mdata, new_udata))
             else if String.eqb method "median" then
               (* mdata.median: no such attribute on a masked array *)
               Raise AttributeError
             else if String.eqb method "sum" then
               new_mdata ← ma_sum mdata axis;
               new_udata ← ma_sum udata axis;
               Ok (Some (new_mdata, new_udata))
             else Ok None);
  match reduced with
  | None => Raise UnboundLocalError
  | Some (new_mdata, new_udata) =>
      u ← from_option AttributeError (nd_uncertainty self);
      SpectrumData___init__
        {| nd_data := ma_data new_mdata;
           nd_uncertainty := Some (MkUncertainty (unc_class u) (ma_data new_udata));
           nd_mask := Some (MaskMasked new_udata);
           nd_wcs := nd_wcs self; nd_meta := nd_meta self;
           nd_unit := nd_unit self |}
  end.

(** *** BaseData: the arithmetic operators

    Instances live in an object store; an operator allocates its result
    at a fresh address.  The array made by [np.empty] and [fill] is
    private to the call, so it is kept as a value. *)

Inductive instance :=
| InstNDData (n : NDData)
| InstCube (c : CubeData)
| InstSpectrum (s : SpectrumData)
| InstImage (i : ImageData).

Inductive class := ClsNDData | ClsCubeData | ClsSpectrumData | ClsImageData.

Definition class_of (o : instance) : class :=
  match o with
  | InstNDData _ => ClsNDData
  | InstCube _ => ClsCubeData
  | InstSpectrum _ => ClsSpectrumData
  | InstImage _ => ClsImageData
  end.

Definition base_of (o : instance) : NDData :=
  match o with
  | InstNDData n => n
  | InstCube c => cube_base c
  | InstSpectrum s => sp_base s
  | InstImage i => im_base i
  end.

(** [cls(data, uncertainty=, mask=, wcs=, meta=, unit=)]. *)
Definition construct (c : class) (kw : NDData) : result instance :=
  match c with
  | ClsNDData => Ok (InstNDData kw)
  | ClsCubeData => InstCube <$> CubeData___init__ kw
  | ClsSpectrumData => InstSpectrum <$> SpectrumData___init__ kw
  | ClsImageData => InstImage <$> ImageData___init__ kw
  end.

(** The right operand of an operator: a number, a bare array, or an
    [NDData] (or subclass) instance. *)
Inductive operand :=
| OpNumber (v : float)
| OpArray (a : ndarray float)
| OpNDData (o : instance).

(** The first half of [__add__] and its three siblings: the operand
    rebuilt as a plain [NDData] that carries the receiver's [wcs]. *)
Definition wrap_operand (self : NDData) (other : operand) : NDData :=
  match other with
  | OpNumber v =>
      let new := ndarray_fill (np_empty uninitialised (shape (nd_data self))) v in
      {| nd_data := new; nd_uncertainty := None; nd_mask := None;
         nd_wcs := nd_wcs self; nd_meta := []; nd_unit := nd_unit self |}
  | OpArray a =>
      {| nd_data := a; nd_uncertainty := None; nd_mask := None;
         nd_wcs := nd_wcs self; nd_meta := []; nd_unit := nd_unit self |}
  | OpNDData o =>
      let other := base_of o in
      {| nd_data := nd_data other; nd_uncertainty := nd_uncertainty other;
         nd_mask := nd_mask other; nd_wcs := nd_wcs self; nd_meta := [];
         nd_unit := nd_unit other |}
  end.

Abbreviation heap := (gmap positive instance).

(** [self.add(other)] and siblings: the mixin computes the result's
    attributes and calls the receiver's class on them. *)
Definition mixin_call (op : arith_op) (self : instance) (other : NDData)
  : result instance :=
  kw ← nd_arithmetic op (base_of self) other;
  construct (class_of self) kw.

(** [__add__], [__sub__], [__mul__] and [__div__] (the Python 2 slot of
    [/]), which differ only in the mixin method they end with. *)
Definition BaseData_arith (op : arith_op) (h : heap) (self : instance)
    (other : operand) : result (positive * heap) :=
  r ← mixin_call op self (wrap_operand (base_of self) other);
  let l := fresh (dom h) in
  Ok (l, <[l := r]> h).

Definition BaseData___add__ := BaseData_arith Add.
Definition BaseData___sub__ := BaseData_arith Sub.
Definition BaseData___mul__ := BaseData_arith Mul.
Definition BaseData___div__ := BaseData_arith Div.

End Methods.

(** ** What the operators rely on *)

Section Contracts.
Context `{E : Externals}.

(** An instance whose class accepts its own attributes, as is the case of
    every instance that came out of its constructor. *)
Definition constructible (o : instance) : Prop :=
  is_Ok (construct (class_of o) (base_of o)).

(** An operand whose data has the receiver's shape (a number is broadcast
    to it by the operator itself). *)
Definition operand_matches (self : NDData) (other : operand) : Prop :=
  match other with
  | OpNumber _ => True
  | OpArray a => shape a = shape (nd_data self)
  | OpNDData o => shape (nd_data (base_of o)) = shape (nd_data self)
  end.

(** The documented behaviour of [NDArithmeticMixin] that the operators
    build on: the result's [wcs] is one of the operands'; operands of one
    shape give a result of that shape; when moreover their units agree, the
    data is combined item by item with the float64 operation. *)
Record mixin_contract : Prop := {
  mixin_wcs : ∀ op x y kw,
    nd_arithmetic op x y = Ok kw →
    nd_wcs kw = nd_wcs x ∨ nd_wcs kw = nd_wcs y;
  mixin_shape : ∀ op x y kw,
    nd_arithmetic op x y = Ok kw →
    shape (nd_data y) = shape (nd_data x) →
    shape (nd_data kw) = shape (nd_data x);
  mixin_data : ∀ op x y kw,
    nd_arithmetic op x y = Ok kw →
    shape (nd_data y) = shape (nd_data x) →
    nd_unit y = nd_unit x →
    items (nd_data kw)
    = zip_with (float_op op) (items (nd_data x)) (items (nd_data y))
}.

End Contracts.

(** Two float64 values that a comparison with any tolerance takes for
    equal: the same value bit for bit, or equal under [==] (which also
    identifies the two zeros). *)
Definition f64_same (x y : float) : Prop :=
  x = y ∨ PrimFloat.eqb x y = true.

(** ** A reference implementation of the external services

    Plain, executable versions of the numpy and astropy services, used to
    run the methods on concrete inputs.  The theorems below hold for every
    [Externals]; nothing in them depends on these particular choices. *)

Module Reference.

(** exp by its Taylor series in Horner form (a stand-in for libm). *)
Fixpoint exp_horner (n : nat) (k x : float) : float :=
  match n with
  | O => F64.one
  | S n' =>
      PrimFloat.add F64.one
        (PrimFloat.mul (PrimFloat.div x k) (exp_horner n' (PrimFloat.add k F64.one) x))
  end.

Definition exp (x : float) : float := exp_horner 24 F64.one x.

(** The unmasked values of one lane of a reduction. *)
Definition unmasked (lane : list (float * bool)) : list float :=
  fst <$> filter (λ c, snd c = false) lane.

Definition lane_sum (lane : list (float * bool)) : float * bool :=
  (foldl PrimFloat.add F64.zero (unmasked lane),
   bool_decide (unmasked lane = [])).

Definition lane_mean (lane : list (float * bool)) : float * bool :=
  let vs := unmasked lane in
  (PrimFloat.div (foldl PrimFloat.add F64.zero vs) (F64.of_nat (length vs)),
   bool_decide (vs = [])).

Fixpoint insert_sorted (x : float) (l : list float) : list float :=
  match l with
  | [] => [x]
  | y :: l' => if PrimFloat.leb x y then x :: l else y :: insert_sorted x l'
  end.

Definition lane_median (lane : list (float * bool)) : float * bool :=
  let vs := foldr insert_sorted [] (unmasked lane) in
  let n := length vs in
  let lo := nth ((n - 1) / 2) vs F64.zero in
  let hi := nth (n / 2) vs F64.zero in
  (PrimFloat.div (PrimFloat.add lo hi) (F64.of_nat 2), bool_decide (vs = [])).

(** A reduction along one axis: the array is read as
    [outer x n x inner] and every lane of length [n] is reduced. *)
Definition reduce_axis (f : list (float * bool) → float * bool)
    (a : MaskedArray) (axis : Z) : result MaskedArray :=
  let s := shape (ma_data a) in
  ax ← py_index (length s) axis;
  let outer := prod_shape (take ax s) in
  let n := default 0%nat (s !! ax) in
  let inner := prod_shape (drop (S ax) s) in
  let at_ (o k i : nat) :=
    let idx := ((o * n + k) * inner + i)%nat in
    (nth idx (items (ma_data a)) F64.zero, nth idx (items (ma_mask a)) false) in
  let cells :=
    o ← seq 0 outer; (λ i, f ((λ k, at_ o k i) <$> seq 0 n)) <$> seq 0 inner in
  let s' := (take ax s ++ drop (S ax) s)%list in
  Ok (MkMaskedArray (NDArray s' (fst <$> cells)) (NDArray s' (snd <$> cells))).

Definition combine_unit (op : arith_op) (u v : option Unit) : result (option Unit) :=
  match op with
  | Add | Sub => if decide (u = v) then Ok u else Raise ValueError
  | Mul =>
      Ok (Some (UnitMul (default dimensionless_unscaled u) (default dimensionless_unscaled v)))
  | Div =>
      Ok (Some (UnitDiv (default dimensionless_unscaled u) (default dimensionless_unscaled v)))
  end.

Definition combine_mask (m k : option mask_t) : option mask_t :=
  match m, k with
  | None, None => None
  | Some m, None => Some m
  | None, Some k => Some k
  | Some m, Some k =>
      Some (MaskBool (NDArray (shape (mask_as_bool m))
              (zip_with orb (items (mask_as_bool m)) (items (mask_as_bool k)))))
  end.

(** Uncertainties are combined in quadrature for [+] and [-]; for [*] and
    [/] the reference keeps the receiver's. *)
Definition combine_uncertainty (op : arith_op) (u v : option NDUncertainty)
  : option NDUncertainty :=
  match u, v with
  | None, None => None
  | Some u, None => Some u
  | None, Some v => Some v
  | Some u, Some v =>
      match op with
      | Add | Sub =>
          Some (MkUncertainty (unc_class u)
                  (NDArray (shape (unc_array u))
                     (zip_with (λ a b, PrimFloat.sqrt
                                         (PrimFloat.add (PrimFloat.mul a a) (PrimFloat.mul b b)))
                        (items (unc_array u)) (items (unc_array v)))))
      | Mul | Div => Some u
      end
  end.

Definition arithmetic (op : arith_op) (x y : NDData) : result NDData :=
  if decide (shape (nd_data x) = shape (nd_data y)) then
    u ← combine_unit op (nd_unit x) (nd_unit y);
    Ok {| nd_data := NDArray (shape (nd_data x))
                       (zip_with (float_op op) (items (nd_data x)) (items (nd_data y)));
          nd_uncertainty := combine_uncertainty op (nd_uncertainty x) (nd_uncertainty y);
          nd_mask := combine_mask (nd_mask x) (nd_mask y);
          nd_wcs := nd_wcs x;
          nd_meta := nd_meta x;
          nd_unit := u |}
  else Raise ValueError.

#[export] Instance externals : Externals := {|
  np_exp := exp;
  ma_mean := reduce_axis lane_mean;
  ma_sum := reduce_axis lane_sum;
  np_ma_median := reduce_axis lane_median;
  nd_arithmetic := arithmetic;
  uninitialised := λ _, F64.zero
|}.

End Reference.

(** ** Concrete inputs *)

Module Examples.

Definition Angstrom : Unit := NamedUnit "Angstrom".
Definition deg : Unit := NamedUnit "deg".
Definition Jy : Unit := NamedUnit "Jy".

(** A three-axis linear mapping (RA, Dec, wavelength). *)
Definition wcs_linear : WCS :=
  {| crpix := [1; 1; 1]%float;
     crval := [10; 20; 4000]%float;
     cdelt := [0.5; 0.5; 2]%float;
     cunit := [deg; deg; Angstrom];
     ctype := ["RA---TAN"; "DEC--TAN"; "WAVE"];
     cd := None |}.

(** The same mapping with reference pixel 1.4 on the spectral axis
    ([0x1.6666666666666p+0] is the float64 nearest to 1.4). *)
Definition wcs_offset : WCS :=
  {| crpix := [1; 1; 0x1.6666666666666p+0]%float;
     crval := [10; 20; 4000]%float;
     cdelt := [0.5; 0.5; 2]%float;
     cunit := [deg; deg; Angstrom];
     ctype := ["RA---TAN"; "DEC--TAN"; "WAVE"];
     cd := None |}.

(** A logarithmic wavelength axis: [crval[2] = 500],
    [cd[2][2] = 0.001] ([0x1.0624dd2f1a9fcp-10]) and [crpix = 0]. *)
Definition cd_log : list (list float) :=
  [[1; 0; 0]; [0; 1; 0]; [0; 0; 0x1.0624dd2f1a9fcp-10]]%float.

Definition wcs_log : WCS :=
  {| crpix := [0; 0; 0]%float;
     crval := [10; 20; 500]%float;
     cdelt := [1; 1; 1]%float;
     cunit := [deg; deg; Angstrom];
     ctype := ["RA---TAN"; "DEC--TAN"; "WAVE-LOG"];
     cd := Some cd_log |}.

Definition meta0 : Meta := [("TELESCOP", "SDSS")].

(** A 2 x 2 x 2 cube with uncertainty and mask. *)
Definition cube222 : CubeData :=
  {| cube_base :=
       {| nd_data := NDArray [2; 2; 2]%nat [1; 2; 3; 4; 5; 6; 7; 8]%float;
          nd_uncertainty :=
            Some (MkUncertainty "StdDevUncertainty"
                    (NDArray [2; 2; 2]%nat
                       [0.5; 0.25; 0.125; 1.5; 2.5; 3.5; 4.5; 5.5]%float));
          nd_mask :=
            Some (MaskBool (NDArray [2; 2; 2]%nat
                              [false; true; false; false; false; false; true; false]));
          nd_wcs := Some wcs_linear;
          nd_meta := meta0;
          nd_unit := Some Jy |} |}.

(** A 1 x 1 x 2 cube (N = 1, H = 1, W = 2) with uncertainty. *)
Definition cube112 : CubeData :=
  {| cube_base :=
       {| nd_data := NDArray [1; 1; 2]%nat [1; 2]%float;
          nd_uncertainty :=
            Some (MkUncertainty "StdDevUncertainty"
                    (NDArray [1; 1; 2]%nat [0.5; 0.25]%float));
          nd_mask := None;
          nd_wcs := Some wcs_linear;
          nd_meta := meta0;
          nd_unit := Some Jy |} |}.

(** Keyword arguments of a three-sample spectrum. *)
Definition spectrum_kw (w : option WCS) : NDData :=
  {| nd_data := NDArray [3]%nat [1; 2; 3]%float;
     nd_uncertainty := None;
     nd_mask := None;
     nd_wcs := w;
     nd_meta := [];
     nd_unit := Some Jy |}.

(** Keyword arguments of a 2 x 3 spectrum (two samples along the
    dispersion axis, three along the cross-dispersion axis). *)
Definition spectrum2d_kw : NDData :=
  {| nd_data := NDArray [2; 3]%nat [1; 2; 3; 4; 5; 6]%float;
     nd_uncertainty :=
       Some (MkUncertainty "StdDevUncertainty"
               (NDArray [2; 3]%nat [0.5; 0.5; 0.5; 0.25; 0.25; 0.25]%float));
     nd_mask := None;
     nd_wcs := Some wcs_linear;
     nd_meta := [];
     nd_unit := Some Jy |}.

(** The instance that [SpectrumData] builds from [spectrum2d_kw]. *)
Definition spectrum2d : SpectrumData :=
  {| sp_base := spectrum2d_kw;
     sp_dispersion := MkQuantity (array1 [1; 2]%float) Angstrom;
     sp_cross_dispersion := Some (MkQuantity (array1 [20; 20.5; 21]%float) deg);
     sp_flux := u_Quantity (nd_data spectrum2d_kw) (Some Jy);
     sp_error :=
       Some (u_Quantity (NDArray [2; 3]%nat [0.5; 0.5; 0.5; 0.25; 0.25; 0.25]%float)
               (Some Jy)) |}.

(** A 2 x 3 image without coordinate mapping. *)
Definition image23 : ImageData :=
  {| im_base :=
       {| nd_data := NDArray [2; 3]%nat [10; 20; 30; 40; 50; 60]%float;
          nd_uncertainty := None;
          nd_mask := None;
          nd_wcs := None;
          nd_meta := [];
          nd_unit := Some Jy |};
     im_axes := None |}.

(** An object store holding the spectrum at address 1 and the image at
    address 2. *)
Definition store : gmap positive instance :=
  <[2%positive := InstImage image23]> (<[1%positive := InstSpectrum spectrum2d]> ∅).

End Examples.

Import Examples.

(** ** The remaining methods of the containers *)

(** Services used by the accessors and by the export: [Quantity.to(unit)],
    [WCS.to_header()] (the header as keyword/value cards) and the C cast
    of a float64 to an integer that [astype(int)] applies. *)
Class Conversions := {
  quantity_to : Quantity → Unit → result Quantity;
  wcs_to_header : WCS → list (string * string);
  float_to_int : float → Z
}.

(** *** np.swapaxes *)

(** The multi-index of a flat position in an array of shape [s]
    (row-major), and back. *)
Fixpoint unravel_index (s : list nat) (idx : nat) : list nat :=
  match s with
  | [] => []
  | _ :: s' => (idx / prod_shape s')%nat :: unravel_index s' (idx mod prod_shape s')%nat
  end.

Fixpoint ravel_index (s mi : list nat) : nat :=
  match s, mi with
  | _ :: s', i :: mi' => (i * prod_shape s' + ravel_index s' mi')%nat
  | _, _ => 0%nat
  end.

Definition swap_entries {A} (i j : nat) (l : list A) : list A :=
  match l !! i, l !! j with
  | Some x, Some y => <[j := x]> (<[i := y]> l)
  | _, _ => l
  end.

(** An axis argument resolved against a rank; numpy raises an error that
    is a [ValueError] when it is out of bounds. *)
Definition normalize_axis (rank : nat) (axis : Z) : result nat :=
  if (0 <=? axis) && (axis <? Z.of_nat rank) then Ok (Z.to_nat axis)
  else if (- Z.of_nat rank <=? axis) && (axis <? 0) then Ok (Z.to_nat (axis + Z.of_nat rank))
  else Raise ValueError.

(** [np.swapaxes(a, axis1, axis2)]: the item at a multi-index of the
    result is the item of [a] at that multi-index with the two entries
    exchanged. *)
Definition np_swapaxes {A} (a : ndarray A) (axis1 axis2 : Z) : result (ndarray A) :=
  i ← normalize_axis (length (shape a)) axis1;
  j ← normalize_axis (length (shape a)) axis2;
  let s' := swap_entries i j (shape a) in
  Ok (NDArray s'
        (idx ← seq 0 (prod_shape s');
         option_list
           (items a !! ravel_index (shape a) (swap_entries i j (unravel_index s' idx))))).

Section MoreMethods.
Context `{E : Externals} `{C : Conversions}.

(** *** BaseData *)

Definition BaseData_shape (self : NDData) : list nat := shape (nd_data self).

(** [__len__]: [self.data.size]. *)
Definition BaseData___len__ (self : NDData) : nat := prod_shape (shape (nd_data self)).

(** [mask.astype(int)]. *)
Definition mask_astype_int (m : mask_t) : ndarray Z :=
  match m with
  | MaskBool b => NDArray (shape b) ((λ x : bool, if x then 1 else 0) <$> items b)
  | MaskMasked a => NDArray (shape (ma_data a)) (float_to_int <$> items (ma_data a))
  end.

(** One segment of the written file: the primary HDU with its header, or
    an image HDU with the [name] argument and its pixels. *)
Inductive HDU :=
| PrimaryHDU (header : list (string * string))
| ImageHDU (name : string) (data : ndarray float)
| IntImageHDU (name : string) (data : ndarray Z).

(** How [export_fits] ends: the files after the write, an exception of
    the containers, or the [IOError] of [writeto] on an existing file. *)
Inductive export_outcome :=
| Written (files : gmap string (list HDU))
| ExportRaise (e : exception)
| ExportIOError.

(** [export_fits(path)], [files] being the files that exist.  The three
    HDUs and the header are built first (each reads an attribute that may
    be [None]), then the list is written to [path] followed by ".fits";
    [writeto] does not overwrite. *)
Definition export_fits (self : NDData) (path : string) (files : gmap string (list HDU))
  : export_outcome :=
  let data_hdu := ImageHDU "data" (nd_data self) in
  match nd_uncertainty self with
  | None => ExportRaise AttributeError
  | Some u =>
      let ivar_hdu := ImageHDU "ivar" (unc_array u) in
      match nd_mask self with
      | None => ExportRaise AttributeError
      | Some m =>
          let mask_hdu := IntImageHDU "mask" (mask_astype_int m) in
          match nd_wcs self with
          | None => ExportRaise AttributeError
          | Some w =>
              let prihdu := PrimaryHDU (wcs_to_header w) in
              let thdulist := [prihdu; data_hdu; ivar_hdu; mask_hdu] in
              let name := (path +:+ ".fits") in
              match files !! name with
              | Some _ => ExportIOError
              | None => Written (<[name := thdulist]> files)
              end
          end
      end
  end.

(** *** SpectrumData *)

(** [flip(axis1, axis2)]: a new spectrum over the data with two axes
    exchanged; uncertainty, mask, wcs, meta and unit are passed as they
    are. *)
Definition flip (self : SpectrumData) (axis1 axis2 : Z) : result SpectrumData :=
  let self := sp_base self in
  d ← np_swapaxes (nd_data self) axis1 axis2;
  SpectrumData___init__
    {| nd_data := d; nd_uncertainty := nd_uncertainty self;
       nd_mask := nd_mask self; nd_wcs := nd_wcs self;
       nd_meta := nd_meta self; nd_unit := nd_unit self |}.

(** [x.to(convert_unit)] on an attribute that may be [None]. *)
Definition convert (q : option Quantity) (convert_unit : Unit) : result (option Quantity) :=
  match q with
  | Some q => Some <$> quantity_to q convert_unit
  | None => Raise AttributeError
  end.

Definition SpectrumData_get_flux (self : SpectrumData) (convert_unit : option Unit)
  : result Quantity :=
  match convert_unit with
  | None => Ok (sp_flux self)
  | Some u => quantity_to (sp_flux self) u
  end.

Definition SpectrumData_get_error (self : SpectrumData) (convert_unit : option Unit)
  : result (option Quantity) :=
  match convert_unit with
  | None => Ok (sp_error self)
  | Some u => convert (sp_error self) u
  end.

Definition SpectrumData_get_dispersion (self : SpectrumData) (convert_unit : option Unit)
  : result Quantity :=
  match convert_unit with
  | None => Ok (sp_dispersion self)
  | Some u => quantity_to (sp_dispersion self) u
  end.

Definition SpectrumData_get_cross_dispersion (self : SpectrumData)
    (convert_unit : option Unit) : result (option Quantity) :=
  match convert_unit with
  | None => Ok (sp_cross_dispersion self)
  | Some u => convert (sp_cross_dispersion self) u
  end.

(** *** ImageData

    [_dispersion] and [_cross_dispersion] are set by the constructor only
    under a coordinate mapping: reading them on another image raises
    [AttributeError]. *)
Definition ImageData_get_dispersion (self : ImageData) (convert_unit : option Unit)
  : result Quantity :=
  axes ← from_option AttributeError (im_axes self);
  match convert_unit with
  | None => Ok axes.1
  | Some u => quantity_to axes.1 u
  end.

Definition ImageData_get_cross_dispersion (self : ImageData) (convert_unit : option Unit)
  : result Quantity :=
  axes ← from_option AttributeError (im_axes self);
  match convert_unit with
  | None => Ok axes.2
  | Some u => quantity_to axes.2 u
  end.

(** [ravel()]: the data as one row. *)
Definition ImageData_ravel (self : ImageData) : ndarray float :=
  array1 (items (nd_data (im_base self))).

End MoreMethods.

(** ** A reference implementation of the conversions *)

Module ReferenceConversions.

(** Conversion between equal units only. *)
Definition to (q : Quantity) (u : Unit) : result Quantity :=
  if decide (q_unit q = u) then Ok q else Raise ValueError.

(** The header cards of the spectral axis. *)
Definition to_header (w : WCS) : list (string * string) :=
  [("WCSAXES", pretty (length (crpix w)));
   ("CTYPE3", default "" (last (ctype w)))].

(** Truncation towards zero; the smallest int64 for NaN and the
    infinities, as the x86-64 cast gives. *)
Definition trunc (x : float) : Z :=
  match Prim2SF x with
  | S754_zero _ => 0
  | S754_finite s m e =>
      if 0 <=? e then cond_Zopp s (Z.pos m * 2 ^ e)
      else cond_Zopp s (Z.pos m / 2 ^ (- e))
  | S754_infinity _ | S754_nan => - 2 ^ 63
  end.

#[export] Instance conversions : Conversions := {|
  quantity_to := to;
  wcs_to_header := to_header;
  float_to_int := trunc
|}.

End ReferenceConversions.

(** ** More concrete inputs *)

Module Examples2.

(** The 2 x 2 x 2 cube without coordinate mapping. *)
Definition cube222_nowcs : CubeData :=
  {| cube_base :=
       {| nd_data := nd_data (cube_base Examples.cube222);
          nd_uncertainty := nd_uncertainty (cube_base Examples.cube222);
          nd_mask := nd_mask (cube_base Examples.cube222);
          nd_wcs := None;
          nd_meta := nd_meta (cube_base Examples.cube222);
          nd_unit := nd_unit (cube_base Examples.cube222) |} |}.

(** A directory holding one file. *)
Definition files0 : gmap string (list HDU) := {[ "old.fits" := [] ]}.

End Examples2.

Import Examples2.

(** * cube_tools.loaders

    The generic FITS loader of [src/cube_tools/loaders.py] and the string
    computations of its labels.  A [Coordinates] value records the call
    that made it; glue's [Data.add_component] is a parameter of the
    loader. *)

(** ** Python string methods *)

(** [s.rpartition(c)] when [c] occurs in [s]: the parts before and after
    the last occurrence. *)
Fixpoint rpartition (c : ascii) (s : string) : option (string * string) :=
  match s with
  | EmptyString => None
  | String a s' =>
      match rpartition c s' with
      | Some (h, t) => Some (String a h, t)
      | None => if Ascii.eqb a c then Some (EmptyString, s') else None
      end
  end.

(** [s.rpartition(c)[0]]: empty when [c] does not occur. *)
Definition rpartition_head (c : ascii) (s : string) : string :=
  match rpartition c s with
  | Some (h, _) => h
  | None => ""
  end.

(** [os.path.basename(p)]: what follows the last slash. *)
Definition basename (p : string) : string :=
  match rpartition "/" p with
  | Some (_, t) => t
  | None => p
  end.

(** [c in s]. *)
Fixpoint occurs (c : ascii) (s : string) : bool :=
  match s with
  | EmptyString => false
  | String a s' => Ascii.eqb a c || occurs c s'
  end.

(** [s.split(c)]: at least one part. *)
Fixpoint split (c : ascii) (s : string) : list string :=
  match s with
  | EmptyString => [""]
  | String a s' =>
      if Ascii.eqb a c then "" :: split c s'
      else match split c s' with
           | h :: t => String a h :: t
           | [] => [String a ""]
           end
  end.

(** [sep.join(parts)]. *)
Fixpoint join (sep : string) (parts : list string) : string :=
  match parts with
  | [] => ""
  | x :: rest =>
      match rest with
      | [] => x
      | _ => x +:+ sep +:+ join sep rest
      end
  end.

Fixpoint lstrip (s : string) : string :=
  match s with
  | EmptyString => ""
  | String a s' => if Ascii.is_space a then lstrip s' else s
  end.

Fixpoint rstrip (s : string) : string :=
  match s with
  | EmptyString => ""
  | String a s' =>
      match rstrip s' with
      | EmptyString => if Ascii.is_space a then "" else String a ""
      | r => String a r
      end
  end.

(** [s.strip()]. *)
Definition strip (s : string) : string := rstrip (lstrip s).

(** ['{}[{}]'.format(a, b)]. *)
Definition bracketed (a b : string) : string := a +:+ "[" +:+ b +:+ "]".

(** ['x'.join(str(x) for x in shape)]. *)
Definition shape_text (shp : list nat) : string := join "x" (pretty <$> shp).

(** The label prefix of [_load_fits_generic]: the file's base name
    without its last extension, or the whole base name when that is
    empty. *)
Definition label_base (filename : string) : string :=
  let b := basename filename in
  let h := rpartition_head "." b in
  if decide (h = "") then b else h.

(** The first statement of [load_mos_data]:
    ["/".join(args[0].strip().split('/')[:-1])]. *)
Definition mos_path (arg0 : string) : string :=
  join "/" (removelast (split "/" (strip arg0))).

(** ** FITS files as the loader sees them *)

(** A column of an astropy [Table]. *)
Record Column := MkColumn {
  col_name : string;
  col_shape : list nat;
  col_unit : option string
}.

(** An HDU: of an image class ([PrimaryHDU], [ImageHDU]) with its pixel
    array, of a table class ([TableHDU], [BinTableHDU]) with the columns
    of [Table(hdu.data)] in the table's order, or of another class;
    [data] may be [None]. *)
Inductive FitsHDU :=
| ImageLike (primary : bool) (name : string) (header : list (string * string))
    (data : option (ndarray float))
| TableLike (binary : bool) (name : string) (header : list (string * string))
    (data : option (list Column))
| OtherHDU (name : string) (has_data : bool).

Definition hdu_name_of (hdu : FitsHDU) : string :=
  match hdu with
  | ImageLike _ n _ _ | TableLike _ n _ _ | OtherHDU n _ => n
  end.

Definition is_image_hdu (hdu : FitsHDU) : bool :=
  match hdu with ImageLike _ _ _ _ => true | _ => false end.

Definition is_table_hdu (hdu : FitsHDU) : bool :=
  match hdu with TableLike _ _ _ _ => true | _ => false end.

(** [hdu.data is not None]. *)
Definition has_data (hdu : FitsHDU) : bool :=
  match hdu with
  | ImageLike _ _ _ d => bool_decide (is_Some d)
  | TableLike _ _ _ d => bool_decide (is_Some d)
  | OtherHDU _ b => b
  end.

(** An [HDUList] and the name of the file behind it, if any. *)
Record HDUList := MkHDUList {
  hl_filename : option string;
  hl_hdus : list FitsHDU
}.

(** ** glue's [Data] *)

Inductive Coordinates :=
| DefaultCoordinates
| CoordinatesFromHeader (header : list (string * string)).

(** What the loader hands to [add_component]: a pixel array, or a
    [Component] made of a table column and its unit. *)
Inductive Component :=
| ArrayComponent (a : ndarray float)
| ColumnComponent (c : Column) (units : option string).

Definition component_shape (c : Component) : list nat :=
  match c with
  | ArrayComponent a => shape a
  | ColumnComponent col _ => col_shape col
  end.

(** A [Data] object: its label, its coordinates and the components added
    to it, with their labels, in order. *)
Record Data := MkData {
  d_label : string;
  d_coords : Coordinates;
  d_components : list (string * Component)
}.

(** [Data(label=label)]. *)
Definition new_Data (label : string) : Data := MkData label DefaultCoordinates [].

(** [data.coords = coords]. *)
Definition set_coords (d : Data) (coords : Coordinates) : Data :=
  MkData (d_label d) coords (d_components d).

(** The keys of [groups]: array shapes and table labels. *)
Definition group_key : Type := list nat + string.

Section Loaders.
(** [fits.open] and glue's [Data.add_component], which raises when it
    refuses a component. *)
Variable fits_open : string → result HDUList.
Variable add_component : Data → Component → string → result Data.

(** [hdu.name if hdu.name else str(extnum)]. *)
Definition hdu_label (extnum : nat) (hdu : FitsHDU) : string :=
  if decide (hdu_name_of hdu = "") then pretty extnum else hdu_name_of hdu.

(** [hdu_name not in exclude_exts and extnum not in exclude_exts]. *)
Definition not_excluded (exclude_exts : list (string + nat)) (hdu_name : string)
    (extnum : nat) : bool :=
  bool_decide (inl hdu_name ∉ exclude_exts) && bool_decide (inr extnum ∉ exclude_exts).

(** The body of the loop over the columns of a table. *)
Definition load_column (table_name : string) (groups : gmap group_key Data)
    (column : Column) : result (gmap group_key Data) :=
  let data_label := bracketed table_name (shape_text (col_shape column)) in
  let data := default (new_Data data_label) (groups !! (inr data_label : group_key)) in
  data ← add_component data (ColumnComponent column (col_unit column)) (col_name column);
  Ok (<[inr data_label := data]> groups).

Fixpoint load_columns (table_name : string) (groups : gmap group_key Data)
    (columns : list Column) : result (gmap group_key Data) :=
  match columns with
  | [] => Ok groups
  | column :: rest =>
      groups ← load_column table_name groups column;
      load_columns table_name groups rest
  end.

(** The body of the loop over [enumerate(hdulist)]. *)
Definition load_hdu (base : string) (exclude_exts : list (string + nat))
    (groups : gmap group_key Data) (extnum : nat) (hdu : FitsHDU)
  : result (gmap group_key Data) :=
  let hdu_name := hdu_label extnum hdu in
  if has_data hdu && not_excluded exclude_exts hdu_name extnum then
    match hdu with
    | ImageLike _ _ header (Some a) =>
        let data :=
          default (set_coords (new_Data (bracketed base (shape_text (shape a))))
                     (CoordinatesFromHeader header))
            (groups !! (inl (shape a) : group_key)) in
        data ← add_component data (ArrayComponent a) hdu_name;
        Ok (<[inl (shape a) := data]> groups)
    | TableLike _ _ _ (Some columns) =>
        load_columns (bracketed base hdu_name) groups columns
    | _ => Ok groups
    end
  else Ok groups.

Fixpoint load_hdus (base : string) (exclude_exts : list (string + nat))
    (groups : gmap group_key Data) (extnum : nat) (hdus : list FitsHDU)
  : result (gmap group_key Data) :=
  match hdus with
  | [] => Ok groups
  | hdu :: rest =>
      groups ← load_hdu base exclude_exts groups extnum hdu;
      load_hdus base exclude_exts groups (S extnum) rest
  end.

(** The dictionary [_load_fits_generic] has built when its loop ends. *)
Definition load_groups (source : string + HDUList)
    (exclude_exts : option (list (string + nat)))
  : result (gmap group_key Data) :=
  let exclude_exts := default [] exclude_exts in
  hdulist ← match source with
            | inl path => fits_open path
            | inr hdulist => Ok hdulist
            end;
  (* [basename(None)] fails on [None.rfind] *)
  filename ← from_option AttributeError (hl_filename hdulist);
  load_hdus (label_base filename) exclude_exts ∅ 0 (hl_hdus hdulist).

(** [_load_fits_generic(source, exclude_exts)]: the values of the
    dictionary. *)
Definition _load_fits_generic (source : string + HDUList)
    (exclude_exts : option (list (string + nat))) : result (list Data) :=
  groups ← load_groups source exclude_exts;
  Ok ((map_to_list groups).*2).

End Loaders.

(** What the loader relies on of [Data.add_component]: it keeps the label
    and the coordinates of the object, it records the component, and it
    accepts a component whose shape is that of the components the object
    already has. *)
Record add_component_contract
    (add_component : Data → Component → string → result Data) : Prop := {
  add_keeps : ∀ d c l d', add_component d c l = Ok d' →
    d_label d' = d_label d ∧ d_coords d' = d_coords d;
  add_records : ∀ d c l d', add_component d c l = Ok d' →
    d_components d' = (d_components d ++ [(l, c)])%list;
  add_accepts : ∀ d c l,
    Forall (λ p, component_shape p.2 = component_shape c) (d_components d) →
    is_Ok (add_component d c l)
}.

(** A reference [add_component]: the first component fixes the shape of
    the object, a later one of another shape is refused. *)
Module ReferenceGlue.
Definition add_component (d : Data) (c : Component) (label : string) : result Data :=
  match d_components d with
  | [] => Ok (MkData (d_label d) (d_coords d) [(label, c)])
  | (_, c0) :: _ =>
      if decide (component_shape c = component_shape c0)
      then Ok (MkData (d_label d) (d_coords d) (d_components d ++ [(label, c)])%list)
      else Raise ValueError
  end.

(** A file system where every path holds a FITS file without HDUs. *)
Definition fits_open (path : string) : result HDUList :=
  Ok (MkHDUList (Some path) []).
End ReferenceGlue.

(** ** What the loader adds, HDU by HDU *)

(** One call of [add_component]: the key of the group, the [Data] object
    made for the key when it is new, the component and its label. *)
Definition addition : Type := group_key * Data * Component * string.

(** The calls for one HDU. *)
Definition additions_of_hdu (base : string) (exclude_exts : list (string + nat))
    (extnum : nat) (hdu : FitsHDU) : list addition :=
  let hdu_name := hdu_label extnum hdu in
  if has_data hdu && not_excluded exclude_exts hdu_name extnum then
    match hdu with
    | ImageLike _ _ header (Some a) =>
        [(inl (shape a),
          set_coords (new_Data (bracketed base (shape_text (shape a))))
            (CoordinatesFromHeader header),
          ArrayComponent a, hdu_name)]
    | TableLike _ _ _ (Some columns) =>
        (λ column,
           let data_label :=
             bracketed (bracketed base hdu_name) (shape_text (col_shape column)) in
           (inr data_label, new_Data data_label,
            ColumnComponent column (col_unit column), col_name column)) <$> columns
    | _ => []
    end
  else [].

(** The calls for the HDUs of a file, in file order. *)
Fixpoint additions (base : string) (exclude_exts : list (string + nat))
    (extnum : nat) (hdus : list FitsHDU) : list addition :=
  match hdus with
  | [] => []
  | hdu :: rest =>
      (additions_of_hdu base exclude_exts extnum hdu
         ++ additions base exclude_exts (S extnum) rest)%list
  end.

(** The calls under one key. *)
Definition additions_at (k : group_key) (adds : list addition) : list addition :=
  filter (λ e, e.1.1.1 = k) adds.

(** The [Data] object of a key: made for the first call, holding the
    components of all of them. *)
Definition group_of (adds : list addition) : option Data :=
  match adds with
  | [] => None
  | (_, init, _, _) :: _ =>
      Some (MkData (d_label init) (d_coords init)
              ((λ e : addition, (e.2, e.1.2)) <$> adds))
  end.

(** The [Data] object of a key after more calls. *)
Definition grow (od : option Data) (adds : list addition) : option Data :=
  match od with
  | Some d =>
      Some (MkData (d_label d) (d_coords d)
              (d_components d ++ ((λ e : addition, (e.2, e.1.2)) <$> adds))%list)
  | None => group_of adds
  end.

Section AddAll.
Variable add_component : Data → Component → string → result Data.

(** [try: data = groups[key] except KeyError: ...; data.add_component(...)]. *)
Definition add_one (groups : gmap group_key Data) (e : addition)
  : result (gmap group_key Data) :=
  data ← add_component (default e.1.1.2 (groups !! e.1.1.1)) e.1.2 e.2;
  Ok (<[e.1.1.1 := data]> groups).

Fixpoint add_all (groups : gmap group_key Data) (adds : list addition)
  : result (gmap group_key Data) :=
  match adds with
  | [] => Ok groups
  | e :: rest => groups ← add_one groups e; add_all groups rest
  end.

End AddAll.

(** The key of a call determines the shape of its component. *)
Definition key_fits_shape (e : addition) : Prop :=
  match e.1.1.1 with
  | inl shp => component_shape e.1.2 = shp
  | inr l => ∃ t, l = bracketed t (shape_text (component_shape e.1.2))
  end.

(** The label of the [Data] object of a key. *)
Definition key_label (base : string) (k : group_key) : string :=
  match k with
  | inl shp => bracketed base (shape_text shp)
  | inr l => l
  end.

(** The component [c] labelled [l] is what the loader makes of the HDU
    [hdu] at index [extnum]: its pixel array under the name of the HDU,
    or one of its columns under the name of the column. *)
Definition component_of_hdu (extnum : nat) (hdu : FitsHDU) (l : string)
    (c : Component) : Prop :=
  match hdu with
  | ImageLike _ _ _ (Some a) => l = hdu_label extnum hdu ∧ c = ArrayComponent a
  | TableLike _ _ _ (Some columns) =>
      ∃ column, column ∈ columns ∧ l = col_name column ∧
                c = ColumnComponent column (col_unit column)
  | _ => False
  end.

(** The label of the [Data] object that receives the components of
    shape [shp] of the HDU. *)
Definition group_label (base : string) (extnum : nat) (hdu : FitsHDU)
    (shp : list nat) : string :=
  if is_image_hdu hdu then bracketed base (shape_text shp)
  else bracketed (bracketed base (hdu_label extnum hdu)) (shape_text shp).

Module Examples3.

Definition flux12 : ndarray float := NDArray [1; 2]%nat [1.5; 2.5]%float.
Definition sky12 : ndarray float := NDArray [1; 2]%nat [0.5; 0.25]%float.
Definition ivar12 : ndarray float := NDArray [1; 2]%nat [1; 1]%float.
Definition mask2 : ndarray float := NDArray [2]%nat [0; 1]%float.

Definition col_ra : Column := MkColumn "ra" [3]%nat (Some "deg").
Definition col_id : Column := MkColumn "id" [3]%nat None.
Definition col_spec : Column := MkColumn "spec" [3; 4]%nat None.

Definition hdu_flux : FitsHDU := ImageLike false "FLUX" [("CTYPE1", "RA")] (Some flux12).
Definition hdu_sky : FitsHDU := ImageLike false "" [("CTYPE1", "DEC")] (Some sky12).
Definition hdu_cat : FitsHDU := TableLike true "CAT" [] (Some [col_ra; col_id; col_spec]).

(** A file of six HDUs: an empty primary HDU, two 1 x 2 images (the
    second without a name), a 2-pixel image, a table of three columns and
    a third 1 x 2 image. *)
Definition obs_hdus : list FitsHDU :=
  [ ImageLike true "PRIMARY" [] None;
    hdu_flux;
    hdu_sky;
    ImageLike false "MASK" [] (Some mask2);
    hdu_cat;
    ImageLike false "IVAR" [] (Some ivar12) ].

Definition obs_file : HDUList := MkHDUList (Some "obs/night1.cube.fits") obs_hdus.

(** Exclude the HDU named IVAR and the HDU of index 3. *)
Definition obs_exclude : option (list (string + nat)) := Some [inl "IVAR"; inr 3%nat].

(** What loading the file with these exclusions returns. *)
Definition group_cat3 : Data :=
  MkData "night1.cube[CAT][3]" DefaultCoordinates
    [("ra", ColumnComponent col_ra (Some "deg")); ("id", ColumnComponent col_id None)].
Definition group_cat34 : Data :=
  MkData "night1.cube[CAT][3x4]" DefaultCoordinates
    [("spec", ColumnComponent col_spec None)].
Definition group_12 : Data :=
  MkData "night1.cube[1x2]" (CoordinatesFromHeader [("CTYPE1", "RA")])
    [("FLUX", ArrayComponent flux12); ("2", ArrayComponent sky12)].
Definition obs_loaded : list Data := [group_cat3; group_cat34; group_12].

End Examples3.

Import Examples3.

(** * Properties *)

(** ** The result monad *)

Lemma bind_Ok {A B} (r : result A) (f : A → result B) (b : B) :
  r ≫= f = Ok b ↔ ∃ a, r = Ok a ∧ f a = Ok b.
Proof.
  destruct r as [a|e]; simpl; split.
  - intros Hf. by exists a.
  - by intros (a' & [= <-] & Hf).
  - done.
  - by intros (a' & ? & _).
Qed.

Lemma fmap_Ok {A B} (f : A → B) (r : result A) (b : B) :
  f <$> r = Ok b ↔ ∃ a, r = Ok a ∧ b = f a.
Proof.
  destruct r as [a|e]; simpl; split.
  - intros [= <-]. by exists a.
  - by intros (a' & [= <-] & ->).
  - done.
  - by intros (a' & ? & _).
Qed.

Lemma from_option_Ok {A} (e : exception) (o : option A) (a : A) :
  from_option e o = Ok a ↔ o = Some a.
Proof. destruct o; simpl; split; congruence. Qed.

(** Reduction of binds and maps whose argument is a constructor. *)
Ltac rsimpl := cbn [mbind result_bind fmap result_fmap mret result_ret from_option].

(** Inversion of a chain of binds ending in [Ok]. *)
Ltac inv_ok H :=
  repeat match type of H with
  | _ ≫= _ = Ok _ =>
      let a := fresh "a" in let Ha := fresh "Ha" in
      apply bind_Ok in H as (a & Ha & H)
  | _ <$> _ = Ok _ =>
      let a := fresh "a" in let Ha := fresh "Ha" in
      apply fmap_Ok in H as (a & Ha & H)
  | from_option _ _ = Ok _ => apply from_option_Ok in H
  | Ok _ = Ok _ => injection H as H
  end.

(** ** Indexing *)

Lemma py_index_Ok (n : nat) (i : Z) (k : nat) :
  py_index n i = Ok k → (k < n)%nat.
Proof.
  unfold py_index. intros Hk.
  destruct (0 <=? i) eqn:H0, (i <? Z.of_nat n) eqn:H1; simpl in Hk;
    try (injection Hk as <-; lia);
    destruct (- Z.of_nat n <=? i) eqn:H2, (i <? 0) eqn:H3; simpl in Hk;
    try discriminate; injection Hk as <-; lia.
Qed.

Lemma has_layout_true {A} (a : ndarray A) (s : list nat) :
  has_layout a s = true → shape a = s ∧ length (items a) = prod_shape s.
Proof.
  unfold has_layout. intros [H1 H2]%andb_prop.
  by apply bool_decide_eq_true in H1, H2.
Qed.

Lemma nddata_wf_data (d : NDData) (s : list nat) :
  nddata_wf d s = true → shape (nd_data d) = s ∧ length (items (nd_data d)) = prod_shape s.
Proof.
  unfold nddata_wf. intros [[H1 _]%andb_prop _]%andb_prop. by apply has_layout_true.
Qed.

Lemma nddata_wf_uncertainty (d : NDData) (s : list nat) (u : NDUncertainty) :
  nddata_wf d s = true → nd_uncertainty d = Some u →
  shape (unc_array u) = s ∧ length (items (unc_array u)) = prod_shape s.
Proof.
  unfold nddata_wf. intros [[_ H2]%andb_prop _]%andb_prop Hu. rewrite Hu in H2.
  by apply has_layout_true.
Qed.

Lemma nddata_wf_mask (d : NDData) (s : list nat) (m : mask_t) :
  nddata_wf d s = true → nd_mask d = Some m →
  ∃ b, m = MaskBool b ∧ shape b = s ∧ length (items b) = prod_shape s.
Proof.
  unfold nddata_wf. intros [_ H3]%andb_prop Hm. rewrite Hm in H3.
  destruct m as [b|a]; [|done]. exists b. split; [done|]. by apply has_layout_true.
Qed.

(** ** Masked arrays *)

Lemma np_ma_masked_array_same_shape (d : ndarray float) (m : ndarray bool) :
  shape m = shape d → np_ma_masked_array d (Some m) = Ok (MkMaskedArray d m).
Proof. intros Hs. unfold np_ma_masked_array. by rewrite decide_True. Qed.

Lemma image_mdata_Ok (d : NDData) (n h w : nat) (wr : option (Z * Z)) :
  nddata_wf d [n; h; w] = true →
  ∃ md, image_mdata d wr = Ok md.
Proof.
  intros Hwf. destruct (nddata_wf_data _ _ Hwf) as [Hs _].
  unfold image_mdata.
  assert (∃ md, np_ma_masked_array (nd_data d) (mask_as_bool <$> nd_mask d) = Ok md
                ∧ shape (ma_data md) = [n; h; w] ∧ shape (ma_mask md) = [n; h; w])
    as (md & -> & Hd & Hm).
  { destruct (nd_mask d) as [m|] eqn:Hmask.
    - destruct (nddata_wf_mask _ _ _ Hwf Hmask) as (b & -> & Hb & _).
      cbn -[np_ma_masked_array].
      rewrite np_ma_masked_array_same_shape by congruence. by eexists.
    - eexists. split; [done|]. by rewrite Hs. }
  simpl. destruct wr as [[start stop]|]; [|by eexists].
  unfold ma_getitem_slice0, getitem_slice0. rewrite Hd, Hm. simpl. by eexists.
Qed.

(** ** Claims *)

(** C10. [collapse_to_spectrum] called with the default [filter_mask=None]
    raises [TypeError] (the bitwise not of [None]) whatever the cube, the
    method and the behaviour of the reductions, none of which is reached;
    hence a call that returns was given a mask.  The method has no effect
    besides its result, so the cube is as it was. *)
Theorem collapse_to_spectrum_default_mask_raises `{E : Externals}
    (c : CubeData) (method : string) :
  collapse_to_spectrum c method None = Raise TypeError
  ∧ ∀ fm r, collapse_to_spectrum c method fm = Ok r → fm ≠ None.
Proof.
  split; [done|]. by intros [m|] r.
Qed.

(** C6. On a cube that respects the shape invariant, [collapse_to_image]
    with a method name other than mean, median and mode raises
    [NotImplementedError]; no image is returned. *)
Theorem collapse_to_image_unknown_method `{E : Externals}
    (c : CubeData) (n h w : nat) (wr : option (Z * Z)) (method : string) (axis : Z) :
  nddata_wf (cube_base c) [n; h; w] = true →
  method ≠ "mean" → method ≠ "median" → method ≠ "mode" →
  collapse_to_image c wr method axis = Raise NotImplementedError.
Proof.
  intros Hwf H1 H2 H3. unfold collapse_to_image.
  destruct (image_mdata_Ok _ _ _ _ wr Hwf) as [md ->]. simpl.
  by rewrite !(proj2 (String.eqb_neq _ _)).
Qed.

(** The method name "bogus" on the 2 x 2 x 2 cube, first spectral plane. *)
Lemma collapse_to_image_unknown_method_witness :
  collapse_to_image (E := Reference.externals) cube222 (Some (0, 1)) "bogus" 0
  = Raise NotImplementedError.
Proof.
  apply (collapse_to_image_unknown_method (E := Reference.externals)
           cube222 2 2 2 (Some (0, 1)) "bogus" 0); [reflexivity|done..].
Defined.

(** C2. [SpectrumData.__init__] on keyword arguments without a coordinate
    mapping: whatever the data, uncertainty, mask, metadata and unit, the
    construction raises [UnboundLocalError] ([disp_data] is read before any
    assignment); no [SpectrumData] with a 0..N-1 dispersion is built, and
    every [SpectrumData] that exists was given a mapping. *)
Theorem SpectrumData_without_wcs_raises `{E : Externals} :
  (∀ (d : ndarray float) (u : option NDUncertainty) (m : option mask_t)
     (meta : Meta) (un : option Unit),
     SpectrumData___init__
       {| nd_data := d; nd_uncertainty := u; nd_mask := m; nd_wcs := None;
          nd_meta := meta; nd_unit := un |}
     = Raise UnboundLocalError)
  ∧ (∀ kw s, SpectrumData___init__ kw = Ok s → nd_wcs kw ≠ None).
Proof.
  split.
  - intros d u m meta un. reflexivity.
  - intros kw s Hs Hw. unfold SpectrumData___init__ in Hs. rewrite Hw in Hs.
    cbn in Hs. discriminate.
Qed.

(** C5. [collapse_to_image] with [method="mean"], on a cube that respects
    the shape invariant, whenever the masked mean returns and the two image
    axes can be derived from the mapping (nothing is required of a cube
    without mapping): the call returns an [ImageData] holding the reduced
    data, no uncertainty, the cube's own mask (still of the cube's 3-D
    shape) and the cube's [wcs], [meta] and [unit]. *)
Theorem collapse_to_image_mean `{E : Externals}
    (c : CubeData) (n h w : nat) (wr : option (Z * Z)) (axis : Z)
    (md nd : MaskedArray) :
  nddata_wf (cube_base c) [n; h; w] = true →
  image_mdata (cube_base c) wr = Ok md →
  ma_mean md axis = Ok nd →
  (∀ wc, nd_wcs (cube_base c) = Some wc → is_Ok (image_axes (shape (ma_data nd)) wc)) →
  ∃ img, collapse_to_image c wr "mean" axis = Ok img
    ∧ nd_data (im_base img) = ma_data nd
    ∧ nd_uncertainty (im_base img) = None
    ∧ nd_mask (im_base img) = nd_mask (cube_base c)
    ∧ (∀ m, nd_mask (im_base img) = Some m → shape (mask_as_bool m) = [n; h; w])
    ∧ nd_wcs (im_base img) = nd_wcs (cube_base c)
    ∧ nd_meta (im_base img) = nd_meta (cube_base c)
    ∧ nd_unit (im_base img) = nd_unit (cube_base c).
Proof.
  intros Hwf Hmd Hmean Hax. unfold collapse_to_image.
  rewrite Hmd. cbn [mbind result_bind String.eqb Ascii.eqb Bool.eqb].
  rewrite Hmean. cbn [fmap result_fmap]. unfold ImageData___init__.
  cbn [nd_wcs nd_data].
  destruct (nd_wcs (cube_base c)) as [wc|] eqn:Hwc.
  - rsimpl. destruct (Hax wc eq_refl) as [a ->]. rsimpl. eexists. split; [done|].
    cbn [im_base nd_data nd_uncertainty nd_mask nd_wcs nd_meta nd_unit].
    repeat split; try done.
    intros m Hm. by destruct (nddata_wf_mask _ _ _ Hwf Hm) as (b & -> & Hb & _).
  - rsimpl. eexists. split; [done|].
    cbn [im_base nd_data nd_uncertainty nd_mask nd_wcs nd_meta nd_unit].
    repeat split; try done.
    intros m Hm. by destruct (nddata_wf_mask _ _ _ Hwf Hm) as (b & -> & Hb & _).
Qed.

(** The mean image of the 2 x 2 x 2 cube. *)
Lemma collapse_to_image_mean_witness :
  ∃ img, collapse_to_image (E := Reference.externals) cube222 None "mean" 0 = Ok img
    ∧ nd_data (im_base img) = NDArray [2; 2]%nat [3; 6; 3; 6]%float
    ∧ nd_uncertainty (im_base img) = None
    ∧ nd_mask (im_base img) = nd_mask (cube_base cube222).
Proof.
  destruct (collapse_to_image_mean (E := Reference.externals) cube222 2 2 2 None 0
              (MkMaskedArray (nd_data (cube_base cube222))
                 (NDArray [2; 2; 2]%nat
                    [false; true; false; false; false; false; true; false]))
              (MkMaskedArray (NDArray [2; 2]%nat [3; 6; 3; 6]%float)
                 (NDArray [2; 2]%nat [false; false; false; false])))
    as (img & Hc & Hd & Hu & Hm & _).
  - reflexivity.
  - reflexivity.
  - vm_compute. reflexivity.
  - intros wc [= <-]. eexists. vm_compute. reflexivity.
  - exists img. by rewrite Hd.
Defined.

(** ** [a[:, i, j]] on a 3-D array, item by item *)

Lemma take_1_drop {A} (l : list A) (i : nat) (x : A) :
  l !! i = Some x → take 1 (drop i l) = [x].
Proof. intros Hx. by rewrite (drop_S _ _ _ Hx). Qed.

Lemma concat_picks {A} (l : list A) (f : nat → nat) (s n : nat) :
  (∀ k, (s ≤ k < s + n)%nat → (f k < length l)%nat) →
  length (concat ((λ k, take 1 (drop (f k) l)) <$> seq s n)) = n
  ∧ ∀ k, (k < n)%nat →
      concat ((λ k, take 1 (drop (f k) l)) <$> seq s n) !! k = l !! f (s + k)%nat.
Proof.
  revert s. induction n as [|n IH]; intros s Hf.
  { split; [done|]. intros k Hk. lia. }
  destruct (lookup_lt_is_Some_2 l (f s)) as [x Hx]; [apply Hf; lia|].
  destruct (IH (S s)) as [IHlen IHget]; [intros k Hk; apply Hf; lia|].
  cbn [seq fmap list_fmap concat]. rewrite (take_1_drop _ _ _ Hx).
  split.
  - cbn. by rewrite IHlen.
  - intros [|k] Hk; cbn.
    + by rewrite Nat.add_0_r.
    + rewrite IHget by lia. f_equal. f_equal. lia.
Qed.

Lemma getitem_colon_i_j_3d {A} (a : ndarray A) (n h w : nat) (i j : Z) (i' j' : nat) :
  shape a = [n; h; w] → length (items a) = prod_shape [n; h; w] →
  py_index h i = Ok i' → py_index w j = Ok j' →
  ∃ r, getitem_colon_i_j a i j = Ok r
    ∧ shape r = [n] ∧ length (items r) = n
    ∧ ∀ k, (k < n)%nat → items r !! k = getitem_scalar3 a k i' j'.
Proof.
  intros Hs Hl Hi Hj. unfold getitem_colon_i_j. rewrite Hs, Hi, Hj. rsimpl.
  pose proof (py_index_Ok _ _ _ Hi) as Hi'. pose proof (py_index_Ok _ _ _ Hj) as Hj'.
  cbn in Hl.
  destruct (concat_picks (items a) (λ k, ((k * h + i') * w + j') * 1)%nat 0 n)
    as [Hlen Hget].
  { intros k Hk. rewrite Hl.
    assert (k * h + i' + 1 ≤ n * h)%nat as H1 by nia.
    assert ((k * h + i') * w + j' + 1 ≤ n * h * w)%nat as H2.
    { transitivity ((k * h + i' + 1) * w)%nat; [lia|]. by apply Nat.mul_le_mono_r. }
    lia. }
  eexists. split; [done|]. cbn [shape items prod_shape foldr]. repeat split; [done|].
  intros k Hk. rewrite Hget by done. unfold getitem_scalar3. rewrite Hs.
  rewrite decide_True by done. f_equal. lia.
Qed.

(** C1 (amended). On a cube of shape (n, h, w) that respects the shape
    invariant and carries a coordinate mapping from which the dispersion
    axis of an n-sample spectrum can be derived: when [x], [y] are valid
    for [data[:, y, x]] and, if an uncertainty or a mask is present, also
    for [[:, x, y]], [get_spectrum(x, y)] returns a [SpectrumData] whose
    data is [data[:, y, x]], whose uncertainty (of the same class) is
    [uncertainty[:, x, y]], whose mask is [mask[:, x, y]], with the
    cube's [wcs], [meta] and [unit]; [flux] and [error] are its data and
    uncertainty array under that unit. *)
Theorem get_spectrum_index_convention `{E : Externals}
    (c : CubeData) (n h w : nat) (x y : Z) (xd yd xu yu : nat) (wc : WCS)
    (ax : list float * Unit * option Quantity) :
  nddata_wf (cube_base c) [n; h; w] = true →
  py_index w x = Ok xd → py_index h y = Ok yd →
  (nd_uncertainty (cube_base c) ≠ None ∨ nd_mask (cube_base c) ≠ None →
   py_index h x = Ok xu ∧ py_index w y = Ok yu) →
  nd_wcs (cube_base c) = Some wc →
  spectrum_axes [n] wc = Ok ax →
  ∃ s, get_spectrum c x y = Ok s
    ∧ shape (nd_data (sp_base s)) = [n]
    ∧ (∀ k, (k < n)%nat →
         items (nd_data (sp_base s)) !! k = getitem_scalar3 (nd_data (cube_base c)) k yd xd)
    ∧ match nd_uncertainty (cube_base c) with
      | None => nd_uncertainty (sp_base s) = None
      | Some u =>
          ∃ u', nd_uncertainty (sp_base s) = Some u'
            ∧ unc_class u' = unc_class u ∧ shape (unc_array u') = [n]
            ∧ ∀ k, (k < n)%nat →
                items (unc_array u') !! k = getitem_scalar3 (unc_array u) k xu yu
      end
    ∧ match nd_mask (cube_base c) with
      | None => nd_mask (sp_base s) = None
      | Some m =>
          ∃ b', nd_mask (sp_base s) = Some (MaskBool b') ∧ shape b' = [n]
            ∧ ∀ k, (k < n)%nat →
                items b' !! k = getitem_scalar3 (mask_as_bool m) k xu yu
      end
    ∧ nd_wcs (sp_base s) = nd_wcs (cube_base c)
    ∧ nd_meta (sp_base s) = nd_meta (cube_base c)
    ∧ nd_unit (sp_base s) = nd_unit (cube_base c)
    ∧ sp_flux s = u_Quantity (nd_data (sp_base s)) (nd_unit (cube_base c))
    ∧ sp_error s = (λ u', u_Quantity (unc_array u') (nd_unit (cube_base c)))
                     <$> nd_uncertainty (sp_base s).
Proof.
  intros Hwf Hx Hy Hxy Hwc Hax. destruct ax as [[dd du] cross].
  destruct (nddata_wf_data _ _ Hwf) as [Hs Hl].
  destruct (getitem_colon_i_j_3d _ _ _ _ _ _ _ _ Hs Hl Hy Hx) as (nd & Hnd & Hnds & _ & Hndk).
  unfold get_spectrum. rewrite Hnd. rsimpl.
  assert (∃ nu, match nd_uncertainty (cube_base c) with
                | Some u => Some <$> uncertainty_getitem u x y
                | None => Ok None
                end = Ok nu
              ∧ match nd_uncertainty (cube_base c) with
                | None => nu = None
                | Some u =>
                    ∃ u', nu = Some u' ∧ unc_class u' = unc_class u
                      ∧ shape (unc_array u') = [n]
                      ∧ ∀ k, (k < n)%nat →
                          items (unc_array u') !! k = getitem_scalar3 (unc_array u) k xu yu
                end) as (nu & -> & Hnu).
  { destruct (nd_uncertainty (cube_base c)) as [u|] eqn:Hu; [|by eexists].
    destruct Hxy as [Hxu Hyu]; [by left|].
    destruct (nddata_wf_uncertainty _ _ _ Hwf Hu) as [Hus Hul].
    destruct (getitem_colon_i_j_3d _ _ _ _ _ _ _ _ Hus Hul Hxu Hyu)
      as (ua & Hua & Huas & _ & Huak).
    unfold uncertainty_getitem. rewrite Hua. rsimpl.
    eexists. split; [done|]. eexists. by repeat split. }
  assert (∃ nm, match nd_mask (cube_base c) with
                | Some m => Some <$> mask_getitem m x y
                | None => Ok None
                end = Ok nm
              ∧ match nd_mask (cube_base c) with
                | None => nm = None
                | Some m =>
                    ∃ b', nm = Some (MaskBool b') ∧ shape b' = [n]
                      ∧ ∀ k, (k < n)%nat →
                          items b' !! k = getitem_scalar3 (mask_as_bool m) k xu yu
                end) as (nm & -> & Hnm).
  { destruct (nd_mask (cube_base c)) as [m|] eqn:Hm; [|by eexists].
    destruct Hxy as [Hxu Hyu]; [by right|].
    destruct (nddata_wf_mask _ _ _ Hwf Hm) as (b & -> & Hbs & Hbl).
    destruct (getitem_colon_i_j_3d _ _ _ _ _ _ _ _ Hbs Hbl Hxu Hyu)
      as (ba & Hba & Hbas & _ & Hbak).
    unfold mask_getitem. rewrite Hba. rsimpl.
    eexists. split; [done|]. eexists. by repeat split. }
  rsimpl. unfold SpectrumData___init__. cbn [nd_wcs nd_data]. rewrite Hwc, Hnds, Hax.
  rsimpl. eexists. split; [done|].
  cbn [sp_base sp_flux sp_error nd_data nd_uncertainty nd_mask nd_wcs nd_meta nd_unit].
  by repeat split.
Qed.

(** [get_spectrum(1, 0)] on the 2 x 2 x 2 cube: data from [[:, 0, 1]],
    uncertainty and mask from [[:, 1, 0]]. *)
Lemma get_spectrum_index_convention_witness :
  ∃ s, get_spectrum (E := Reference.externals) cube222 1 0 = Ok s
    ∧ items (nd_data (sp_base s)) = [2; 6]%float
    ∧ (unc_array <$> nd_uncertainty (sp_base s))
      = Some (NDArray [2]%nat [0.125; 4.5]%float)
    ∧ nd_mask (sp_base s) = Some (MaskBool (NDArray [2]%nat [false; true])).
Proof.
  destruct (get_spectrum_index_convention (E := Reference.externals)
              cube222 2 2 2 1 0 1 0 1 0 wcs_linear
              ([1; 2]%float, Angstrom, None))
    as (s & Hs & _); [reflexivity..| |reflexivity|reflexivity|].
  - intros _. split; reflexivity.
  - exists s. split; [exact Hs|].
    vm_compute in Hs. injection Hs as <-. by vm_compute.
Defined.

(** C1, as stated, fails: on the 1 x 1 x 2 cube, [x = 1] and [y = 0] are
    valid spatial indices ([data[:, 0, 1]] exists), yet
    [uncertainty[:, 1, 0]] is out of range and [get_spectrum] raises
    [IndexError] instead of returning a spectrum. *)
Lemma get_spectrum_non_square_raises :
  shape (nd_data (cube_base cube112)) = [1; 1; 2]%nat
  ∧ is_Ok (getitem_colon_i_j (nd_data (cube_base cube112)) 0 1)
  ∧ get_spectrum (E := Reference.externals) cube112 1 0 = Raise IndexError.
Proof. split; [done|]. split; [by eexists|done]. Qed.

(** ** float64 facts *)

Lemma Prim2SF_one : Prim2SF F64.one = S754_finite false 4503599627370496 (-52).
Proof. reflexivity. Qed.

Lemma Prim2SF_zero : Prim2SF F64.zero = S754_zero false.
Proof. reflexivity. Qed.

Lemma digits2_pos_iter_xO (m n : positive) :
  Z.pos (digits2_pos (Pos.iter xO m n)) = Z.pos (digits2_pos m) + Z.pos n.
Proof.
  revert m. induction n as [|n IH] using Pos.peano_ind; intros m.
  - simpl. lia.
  - rewrite Pos.iter_succ. simpl. rewrite Pos2Z.inj_succ, IH. lia.
Qed.

(** The specification of floats is written with the kernel's integer
    operations; this states them with those of [Z]. *)
Ltac znorm :=
  change IntDef.Z.add with Z.add in *;
  change IntDef.Z.sub with Z.sub in *;
  change IntDef.Z.leb with Z.leb in *.

(** [x * 1.0] is [x], bit for bit (NaN, infinities and both zeros
    included). *)
Lemma F64_mul_1_r (x : float) : PrimFloat.mul x F64.one = x.
Proof.
  apply Prim2SF_inj. rewrite mul_spec, Prim2SF_one.
  pose proof (Prim2SF_valid x) as Hv.
  destruct (Prim2SF x) as [s|s| |s m e]; simpl;
    try reflexivity; try (destruct s; reflexivity).
  unfold SF64mul; simpl.
  unfold SpecFloat.valid_binary, bounded, canonical_mantissa in Hv.
  apply andb_prop in Hv as [Hc Hb]. apply Z.eqb_eq in Hc.
  replace (m * 4503599627370496)%positive with (Pos.iter xO m 52)
    by (rewrite Pos.mul_comm; reflexivity).
  unfold binary_round_aux, shr_fexp. znorm.
  unfold Zdigits2 at 1. rewrite digits2_pos_iter_xO.
  replace (Z.pos (digits2_pos m) + 52 + (e + -52)) with (Z.pos (digits2_pos m) + e) by lia.
  rewrite Hc. replace (e - (e + -52)) with 52 by lia.
  cbn [Pos.iter shr shr_record_of_loc SpecFloat.iter_pos shr_1 orb].
  cbn [shr_m loc_of_shr_record round_nearest_even Zdigits2]. znorm.
  replace (e + -52 + 52) with e by lia.
  rewrite Hc, Z.sub_diag. cbn [shr shr_record_of_loc shr_m]. znorm. rewrite Hb.
  destruct s; reflexivity.
Qed.

Lemma F64_sub_0_r (x : float) : PrimFloat.sub x F64.zero = x.
Proof.
  apply Prim2SF_inj. rewrite sub_spec, Prim2SF_zero.
  destruct (Prim2SF x) as [[]|[]| |s m e]; reflexivity.
Qed.

Lemma F64_add_0_l (x : float) :
  Prim2SF x ≠ S754_zero true → PrimFloat.add F64.zero x = x.
Proof.
  intros H. apply Prim2SF_inj. rewrite add_spec, Prim2SF_zero.
  destruct (Prim2SF x) as [[]|[]| |s m e]; try reflexivity. congruence.
Qed.

(** [x + 0.0] is [x] bit for bit, except that [-0.0 + 0.0] is [+0.0]. *)
Lemma F64_add_0_r (x : float) :
  PrimFloat.add x F64.zero = x
  ∨ (Prim2SF x = S754_zero true ∧ PrimFloat.add x F64.zero = F64.zero).
Proof.
  destruct (Prim2SF x) as [[]|[]| |s m e] eqn:Hx;
    try (left; apply Prim2SF_inj; rewrite add_spec, Prim2SF_zero, Hx; reflexivity).
  right. split; [done|].
  apply Prim2SF_inj. by rewrite add_spec, Prim2SF_zero, Hx.
Qed.

Lemma binary_round_aux_sign (m e : Z) (l : location) :
  binary_round_aux prec emax false m e l ≠ S754_zero true.
Proof.
  unfold binary_round_aux.
  destruct (shr_fexp prec emax m e l) as [mrs' e'].
  destruct (shr_fexp prec emax _ e' loc_Exact) as [mrs'' e''].
  destruct (shr_m mrs''); [done| |done].
  by destruct (e'' <=? emax - prec).
Qed.

(** An index converted to float64 is never the negative zero. *)
Lemma F64_of_nat_sign (k : nat) : Prim2SF (F64.of_nat k) ≠ S754_zero true.
Proof.
  unfold F64.of_nat. rewrite of_uint63_spec.
  pose proof (Uint63.to_Z_bounded (Uint63.of_Z (Z.of_nat k))) as Hb.
  destruct (Uint63.to_Z (Uint63.of_Z (Z.of_nat k))) as [|m|m]; [done| |lia].
  unfold binary_normalize, binary_round.
  destruct (shl_align _ _ _) as [mz ez]. apply binary_round_aux_sign.
Qed.

(** ** The dispersion axis of a spectrum *)

Lemma arange_items_lookup (start next : float) (len k : nat) :
  (k < len)%nat →
  arange_items start next len !! k
  = Some match k with
         | O => start
         | S O => next
         | _ => PrimFloat.add start
                  (PrimFloat.mul (F64.of_nat k) (PrimFloat.sub next start))
         end.
Proof.
  intros Hk. unfold arange_items. rewrite list_lookup_fmap.
  by rewrite lookup_seq_lt.
Qed.

(** With reference pixel 0 the index sequence is 0, 1, ..., n-1 as
    float64, whichever of the candidate and the fallback is taken. *)
Lemma index_sequence_zero (n : nat) (cands : list float) :
  index_sequence F64.zero n = Ok cands →
  length cands = n ∧ ∀ k, (k < n)%nat → cands !! k = Some (F64.of_nat k).
Proof.
  unfold index_sequence. intros H. inv_ok H. subst cands.
  destruct (decide (length a ≠ n)) as [Hne|Heq].
  { unfold np_arange_int. split; [by rewrite length_fmap, length_seq|].
    intros k Hk. by rewrite list_lookup_fmap, lookup_seq_lt. }
  apply dec_stable in Heq. split; [done|]. intros k Hk.
  unfold candidate, np_arange in Ha.
  destruct (F64.ceil _) as [len|]; [|done].
  destruct (len <=? 0); [injection Ha as <-; simpl in Heq; lia|].
  destruct (max_intp <? len); [done|]. injection Ha as <-.
  unfold arange_items in Heq. rewrite length_fmap, length_seq in Heq.
  rewrite arange_items_lookup by lia.
  destruct k as [|[|k]]; [reflexivity..|]. f_equal.
  change (PrimFloat.sub (PrimFloat.add F64.zero F64.one) F64.zero) with F64.one.
  rewrite F64_mul_1_r. apply F64_add_0_l, F64_of_nat_sign.
Qed.

Lemma SpectrumData_init_inv `{E : Externals} (kw : NDData) (s : SpectrumData) (w : WCS) :
  SpectrumData___init__ kw = Ok s → nd_wcs kw = Some w →
  ∃ dd du cross, spectrum_axes (shape (nd_data kw)) w = Ok (dd, du, cross)
    ∧ s = {| sp_base := kw;
             sp_dispersion := MkQuantity (array1 dd) du;
             sp_cross_dispersion := cross;
             sp_flux := u_Quantity (nd_data kw) (nd_unit kw);
             sp_error := (λ u, u_Quantity (unc_array u) (nd_unit kw))
                           <$> nd_uncertainty kw |}.
Proof.
  unfold SpectrumData___init__. intros H Hw. rewrite Hw in H.
  destruct (spectrum_axes _ w) as [[[dd du] cross]|e]; [|done].
  injection H as <-. by exists dd, du, cross.
Qed.

Lemma spectrum_axes_inv `{E : Externals} (shp : list nat) (w : WCS)
    (dd : list float) (du : Unit) (cross : option Quantity) :
  spectrum_axes shp w = Ok (dd, du, cross) →
  ∃ p n cands t,
    py_getitem (crpix w) (-1) = Ok p
    ∧ shp !! 0%nat = Some n
    ∧ index_sequence p n = Ok cands
    ∧ py_getitem (cunit w) (if decide (length (cunit w) = 3%nat) then -1 else 0) = Ok du
    ∧ py_getitem (ctype w) (-1) = Ok t
    ∧ if String.eqb t "WAVE-LOG"
      then ∃ v m row c p2,
             py_getitem (crval w) 2 = Ok v ∧ cd w = Some m
             ∧ py_getitem m 2 = Ok row ∧ py_getitem row 2 = Ok c
             ∧ py_getitem (crpix w) 2 = Ok p2
             ∧ dd = wave_log v c p2 v <$> cands
      else dd = cands.
Proof.
  unfold spectrum_axes. intros H.
  apply bind_Ok in H as (p & Hp & H).
  apply bind_Ok in H as (n & Hn & H). apply from_option_Ok in Hn.
  apply bind_Ok in H as (cands & Hc & H).
  apply bind_Ok in H as (du' & Hu & H).
  apply bind_Ok in H as (t & Ht & H).
  apply bind_Ok in H as (dd' & Hd & H).
  apply bind_Ok in H as (cross' & Hx & H).
  injection H as -> -> ->.
  exists p, n, cands, t. repeat (split; [done|]). split.
  { unfold u_Unit in Hu. destruct (decide (length (cunit w) = 3%nat));
      apply fmap_Ok in Hu as (u0 & Hu & ->); done. }
  split; [done|].
  destruct (String.eqb t "WAVE-LOG").
  - apply bind_Ok in Hd as (v & Hv & Hd).
    apply bind_Ok in Hd as (m & Hm & Hd). apply from_option_Ok in Hm.
    apply bind_Ok in Hd as (row & Hrow & Hd).
    apply bind_Ok in Hd as (c & Hcc & Hd).
    apply bind_Ok in Hd as (p2 & Hp2 & Hd).
    apply bind_Ok in Hd as (v' & Hv' & Hd).
    injection Hd as <-. rewrite Hv in Hv'. injection Hv' as <-.
    by exists v, m, row, c, p2.
  - by injection Hd as <-.
Qed.

(** C3 (amended). A [SpectrumData] built with a coordinate mapping whose
    candidate [np.arange(crpix[-1], crpix[-1] + N)] has a length other than
    [N = data.shape[0]]: the candidate is replaced by 0..N-1, which is the
    dispersion unless the last axis type is WAVE-LOG (then 0..N-1 goes
    through the log-wavelength transform); in both cases the dispersion
    carries the mapping's unit, [cunit[-1]] when the mapping lists three
    units and [cunit[0]] otherwise. *)
Theorem dispersion_fallback `{E : Externals}
    (kw : NDData) (s : SpectrumData) (w : WCS) (p : float) (n : nat)
    (cand : list float) :
  SpectrumData___init__ kw = Ok s →
  nd_wcs kw = Some w →
  py_getitem (crpix w) (-1) = Ok p →
  shape (nd_data kw) !! 0%nat = Some n →
  candidate p n = Ok cand →
  length cand ≠ n →
  ∃ t, py_getitem (ctype w) (-1) = Ok t
    ∧ (t ≠ "WAVE-LOG" → q_value (sp_dispersion s) = array1 (np_arange_int n))
    ∧ (t = "WAVE-LOG" →
       ∃ v m row c p2,
         py_getitem (crval w) 2 = Ok v ∧ cd w = Some m
         ∧ py_getitem m 2 = Ok row ∧ py_getitem row 2 = Ok c
         ∧ py_getitem (crpix w) 2 = Ok p2
         ∧ q_value (sp_dispersion s) = array1 (wave_log v c p2 v <$> np_arange_int n))
    ∧ py_getitem (cunit w) (if decide (length (cunit w) = 3%nat) then -1 else 0)
      = Ok (q_unit (sp_dispersion s)).
Proof.
  intros Hs Hw Hp Hn Hc Hlen.
  destruct (SpectrumData_init_inv _ _ _ Hs Hw) as (dd & du & cross & Hax & ->).
  destruct (spectrum_axes_inv _ _ _ _ _ Hax)
    as (p' & n' & cands & t & Hp' & Hn' & Hseq & Hu & Ht & Hdd).
  rewrite Hp in Hp'. injection Hp' as <-. rewrite Hn in Hn'. injection Hn' as <-.
  unfold index_sequence in Hseq. rewrite Hc in Hseq. rsimpl.
  cbn [mbind result_bind] in Hseq. rewrite decide_True in Hseq by done.
  injection Hseq as <-.
  exists t. split; [done|]. cbn [sp_dispersion q_value q_unit].
  split; [|split; [|done]].
  - intros Hne. apply String.eqb_neq in Hne. rewrite Hne in Hdd. by subst dd.
  - intros ->. rewrite String.eqb_refl in Hdd.
    destruct Hdd as (v & m & row & c & p2 & ? & ? & ? & ? & ? & ->).
    by exists v, m, row, c, p2.
Qed.

(** Three samples under the mapping with reference pixel 1.4. *)
Lemma dispersion_fallback_witness :
  ∃ s, SpectrumData___init__ (E := Reference.externals) (spectrum_kw (Some wcs_offset)) = Ok s
    ∧ q_value (sp_dispersion s) = array1 (np_arange_int 3)
    ∧ py_getitem (cunit wcs_offset) (-1) = Ok (q_unit (sp_dispersion s)).
Proof.
  destruct (SpectrumData___init__ (E := Reference.externals) (spectrum_kw (Some wcs_offset)))
    as [s|e] eqn:Hs; [|by vm_compute in Hs].
  destruct (dispersion_fallback (E := Reference.externals)
              (spectrum_kw (Some wcs_offset)) s wcs_offset
              0x1.6666666666666p+0%float 3
              [0x1.6666666666666p+0; 0x1.3333333333333p+1;
               0x1.b333333333333p+1; 0x1.199999999999ap+2]%float)
    as (t & Ht & Hlin & _ & Hu); [exact Hs|reflexivity..|by vm_compute|cbn; lia|].
  exists s. split; [done|]. split; [|exact Hu].
  apply Hlin. vm_compute in Ht. by injection Ht as <-.
Defined.

(** C3, as stated, fails: with reference pixel 1.4 and three samples the
    candidate has four items, the dispersion falls back to 0, 1, 2, and
    its unit is the mapping's Angstrom, not the absence of a unit. *)
Lemma dispersion_fallback_keeps_unit :
  ∃ s cand,
    candidate 0x1.6666666666666p+0%float 3 = Ok cand ∧ length cand = 4%nat
    ∧ SpectrumData___init__ (E := Reference.externals) (spectrum_kw (Some wcs_offset)) = Ok s
    ∧ items (q_value (sp_dispersion s)) = [0; 1; 2]%float
    ∧ q_unit (sp_dispersion s) = NamedUnit "Angstrom"
    ∧ q_unit (sp_dispersion s) ≠ dimensionless_unscaled.
Proof.
  eexists _, _. split; [by vm_compute|]. split; [done|].
  split; [by vm_compute|]. by cbn.
Qed.

(** C4. A [SpectrumData] built with a coordinate mapping whose last axis
    type is WAVE-LOG: every dispersion sample is
    [crval[2] * exp(cd[2][2] * (x - crpix[2]) / crval[2])], with [x] the
    item of the index sequence at the same position.  With [crval[2] = 500],
    [cd[2][2] = 0.001] and reference pixel 0, sample [k] is
    [500 * exp(0.001 * k / 500)], and sample 0 is exactly 500 as soon as
    [exp(0) = 1]. *)
Theorem wave_log_dispersion `{E : Externals}
    (kw : NDData) (s : SpectrumData) (w : WCS) :
  SpectrumData___init__ kw = Ok s →
  nd_wcs kw = Some w →
  py_getitem (ctype w) (-1) = Ok "WAVE-LOG" →
  (∃ p n cands v m row c p2,
     py_getitem (crpix w) (-1) = Ok p
     ∧ shape (nd_data kw) !! 0%nat = Some n
     ∧ index_sequence p n = Ok cands ∧ length cands = n
     ∧ py_getitem (crval w) 2 = Ok v ∧ cd w = Some m
     ∧ py_getitem m 2 = Ok row ∧ py_getitem row 2 = Ok c
     ∧ py_getitem (crpix w) 2 = Ok p2
     ∧ shape (q_value (sp_dispersion s)) = [n]
     ∧ ∀ k x, cands !! k = Some x →
         items (q_value (sp_dispersion s)) !! k
         = Some (v * np_exp (c * (x - p2) / v))%float)
  ∧ (∀ m row,
       py_getitem (crval w) 2 = Ok 500%float →
       cd w = Some m → py_getitem m 2 = Ok row →
       py_getitem row 2 = Ok 0x1.0624dd2f1a9fcp-10%float →
       py_getitem (crpix w) (-1) = Ok F64.zero →
       py_getitem (crpix w) 2 = Ok F64.zero →
       ∃ n, shape (nd_data kw) !! 0%nat = Some n
         ∧ (∀ k, (k < n)%nat →
              items (q_value (sp_dispersion s)) !! k
              = Some (500 * np_exp (0x1.0624dd2f1a9fcp-10 * F64.of_nat k / 500))%float)
         ∧ (np_exp F64.zero = F64.one → (0 < n)%nat →
            items (q_value (sp_dispersion s)) !! 0%nat = Some 500%float)).
Proof.
  intros Hs Hw Ht.
  destruct (SpectrumData_init_inv _ _ _ Hs Hw) as (dd & du & cross & Hax & ->).
  destruct (spectrum_axes_inv _ _ _ _ _ Hax)
    as (p & n & cands & t & Hp & Hn & Hseq & Hu & Ht' & Hdd).
  rewrite Ht in Ht'. injection Ht' as <-. rewrite String.eqb_refl in Hdd.
  destruct Hdd as (v & m & row & c & p2 & Hv & Hm & Hrow & Hc & Hp2 & ->).
  cbn [sp_dispersion q_value items array1 shape].
  assert (length cands = n) as Hlen.
  { unfold index_sequence in Hseq. apply bind_Ok in Hseq as (cand & _ & Hseq).
    injection Hseq as <-. destruct (decide (length cand ≠ n)) as [|Heq].
    - unfold np_arange_int. by rewrite length_fmap, length_seq.
    - by apply dec_stable in Heq. }
  assert (∀ k x, cands !! k = Some x →
            (wave_log v c p2 v <$> cands) !! k
            = Some (v * np_exp (c * (x - p2) / v))%float) as Hk.
  { intros k x Hx. by rewrite list_lookup_fmap, Hx. }
  split.
  { exists p, n, cands, v, m, row, c, p2. rewrite length_fmap, Hlen. by repeat split. }
  intros m' row' Hv' Hm' Hrow' Hc' Hp' Hp2'.
  rewrite Hv in Hv'. injection Hv' as ->. rewrite Hm in Hm'. injection Hm' as <-.
  rewrite Hrow in Hrow'. injection Hrow' as <-. rewrite Hc in Hc'. injection Hc' as ->.
  rewrite Hp in Hp'. injection Hp' as ->. rewrite Hp2 in Hp2'. injection Hp2' as ->.
  destruct (index_sequence_zero _ _ Hseq) as [_ Hz].
  exists n. split; [done|]. split.
  - intros k Hlt. rewrite (Hk k (F64.of_nat k)) by by apply Hz.
    by rewrite F64_sub_0_r.
  - intros Hexp Hpos. rewrite (Hk 0%nat (F64.of_nat 0)) by by apply Hz.
    f_equal.
    change (0x1.0624dd2f1a9fcp-10 * (F64.of_nat 0 - F64.zero) / 500)%float with F64.zero.
    by rewrite Hexp.
Qed.

(** Three samples under the logarithmic mapping, with the reference
    [exp]. *)
Lemma wave_log_dispersion_witness :
  ∃ s, SpectrumData___init__ (E := Reference.externals) (spectrum_kw (Some wcs_log)) = Ok s
    ∧ items (q_value (sp_dispersion s)) !! 0%nat = Some 500%float
    ∧ items (q_value (sp_dispersion s)) !! 2%nat
      = Some (500 * Reference.exp (0x1.0624dd2f1a9fcp-10 * F64.of_nat 2 / 500))%float.
Proof.
  destruct (SpectrumData___init__ (E := Reference.externals) (spectrum_kw (Some wcs_log)))
    as [s|e] eqn:Hs; [|by vm_compute in Hs].
  destruct (wave_log_dispersion (E := Reference.externals)
              (spectrum_kw (Some wcs_log)) s wcs_log Hs eq_refl eq_refl)
    as [_ Hex].
  destruct (Hex cd_log [0; 0; 0x1.0624dd2f1a9fcp-10]%float)
    as (n & Hn & Hk & H0); [reflexivity..|].
  injection Hn as <-.
  exists s. split; [done|]. split.
  - apply H0; [by vm_compute|lia].
  - apply Hk. lia.
Defined.

(** ** [SpectrumData.collapse] *)

Lemma np_ma_masked_array_compatible (d : ndarray float) (fm : option (ndarray bool)) :
  (∀ m, fm = Some m → shape m = shape d) →
  ∃ md, np_ma_masked_array d (np_logical_not <$> fm) = Ok md
    ∧ ma_data md = d
    ∧ ∀ m, fm = Some m → ma_mask md = np_logical_not m.
Proof.
  intros Hfm. destruct fm as [m|].
  - cbn -[np_ma_masked_array np_logical_not].
    rewrite np_ma_masked_array_same_shape by (cbn; by apply Hfm).
    eexists. repeat split. by intros ? [= <-].
  - by eexists.
Qed.

(** C8, the median branch. On a spectrum with an uncertainty of the data's
    shape and a [filter_mask] that is absent or of the data's shape,
    [collapse] with [method="median"] raises [AttributeError] (a masked
    array has no [median] method): no [SpectrumData] is returned. *)
Theorem collapse_median_raises `{E : Externals}
    (self : SpectrumData) (axis : Z) (fm : option (ndarray bool)) (u : NDUncertainty) :
  nd_uncertainty (sp_base self) = Some u →
  shape (unc_array u) = shape (nd_data (sp_base self)) →
  (∀ m, fm = Some m → shape m = shape (nd_data (sp_base self))) →
  collapse self "median" axis fm = Raise AttributeError.
Proof.
  intros Hu Hus Hfm. unfold collapse, uncertainty_array. rewrite Hu.
  destruct (np_ma_masked_array_compatible (nd_data (sp_base self)) fm Hfm)
    as (md & -> & _).
  destruct (np_ma_masked_array_compatible (unc_array u) fm) as (ud & Hud & _).
  { intros m Hm. rewrite Hus. by apply Hfm. }
  rsimpl. by rewrite Hud.
Qed.

(** The median of the 2 x 3 spectrum along axis 1. *)
Lemma collapse_median_raises_witness :
  collapse (E := Reference.externals) spectrum2d "median" 1 None = Raise AttributeError.
Proof.
  by apply (collapse_median_raises (E := Reference.externals) spectrum2d 1 None
              (MkUncertainty "StdDevUncertainty"
                 (NDArray [2; 3]%nat [0.5; 0.5; 0.5; 0.25; 0.25; 0.25]%float))).
Defined.

(** The mean and sum branches of [collapse]: the reduction [red] is
    applied to the data and to the uncertainty array, each masked by the
    negation of [filter_mask]; the returned spectrum holds the reduced data,
    an uncertainty of the source's class over the reduced uncertainty
    values, and as [mask] the reduced uncertainty masked array itself. *)
Theorem collapse_mask_is_reduced_uncertainty `{E : Externals}
    (self : SpectrumData) (method : string) (axis : Z) (fm : option (ndarray bool))
    (u : NDUncertainty) (w : WCS) (nm nu : MaskedArray) :
  method = "mean" ∨ method = "sum" →
  nd_uncertainty (sp_base self) = Some u →
  shape (unc_array u) = shape (nd_data (sp_base self)) →
  (∀ m, fm = Some m → shape m = shape (nd_data (sp_base self))) →
  nd_wcs (sp_base self) = Some w →
  (∀ md, np_ma_masked_array (nd_data (sp_base self)) (np_logical_not <$> fm) = Ok md →
     (if String.eqb method "mean" then ma_mean else ma_sum) md axis = Ok nm) →
  (∀ ud, np_ma_masked_array (unc_array u) (np_logical_not <$> fm) = Ok ud →
     (if String.eqb method "mean" then ma_mean else ma_sum) ud axis = Ok nu) →
  is_Ok (spectrum_axes (shape (ma_data nm)) w) →
  ∃ s, collapse self method axis fm = Ok s
    ∧ nd_data (sp_base s) = ma_data nm
    ∧ nd_uncertainty (sp_base s) = Some (MkUncertainty (unc_class u) (ma_data nu))
    ∧ nd_mask (sp_base s) = Some (MaskMasked nu)
    ∧ nd_wcs (sp_base s) = nd_wcs (sp_base self)
    ∧ nd_meta (sp_base s) = nd_meta (sp_base self)
    ∧ nd_unit (sp_base s) = nd_unit (sp_base self).
Proof.
  intros Hm Hu Hus Hfm Hw Hnm Hnu [[[dd du] cross] Hax].
  unfold collapse, uncertainty_array. rewrite Hu.
  destruct (np_ma_masked_array_compatible (nd_data (sp_base self)) fm Hfm)
    as (md & Hmd & _).
  destruct (np_ma_masked_array_compatible (unc_array u) fm) as (ud & Hud & _).
  { intros m Hm'. rewrite Hus. by apply Hfm. }
  specialize (Hnm md Hmd). specialize (Hnu ud Hud).
  rewrite Hmd. rsimpl. rewrite Hud. rsimpl.
  assert ((if String.eqb method "mean"
           then ma_mean md axis ≫= λ new_mdata,
                  ma_mean ud axis ≫= λ new_udata, Ok (Some (new_mdata, new_udata))
           else if String.eqb method "median" then Raise AttributeError
           else if String.eqb method "sum"
           then ma_sum md axis ≫= λ new_mdata,
                  ma_sum ud axis ≫= λ new_udata, Ok (Some (new_mdata, new_udata))
           else Ok None) = Ok (Some (nm, nu))) as ->.
  { destruct Hm as [-> | ->]; cbn [String.eqb Ascii.eqb Bool.eqb] in *;
      by rewrite Hnm, Hnu. }
  rsimpl. unfold SpectrumData___init__. cbn [nd_wcs nd_data]. rewrite Hw, Hax. rsimpl.
  eexists. split; [done|]. by cbn.
Qed.

(** The sum of the 2 x 3 spectrum along axis 1, one sample filtered
    out. *)
Lemma collapse_mask_is_reduced_uncertainty_witness :
  ∃ s, collapse (E := Reference.externals) spectrum2d "sum" 1
         (Some (NDArray [2; 3]%nat [true; true; false; true; true; true])) = Ok s
    ∧ nd_data (sp_base s) = NDArray [2]%nat [3; 15]%float
    ∧ nd_mask (sp_base s)
      = Some (MaskMasked (MkMaskedArray (NDArray [2]%nat [1; 0.75]%float)
                            (NDArray [2]%nat [false; false]))).
Proof.
  destruct (collapse_mask_is_reduced_uncertainty (E := Reference.externals)
              spectrum2d "sum" 1
              (Some (NDArray [2; 3]%nat [true; true; false; true; true; true]))
              (MkUncertainty "StdDevUncertainty"
                 (NDArray [2; 3]%nat [0.5; 0.5; 0.5; 0.25; 0.25; 0.25]%float))
              wcs_linear
              (MkMaskedArray (NDArray [2]%nat [3; 15]%float) (NDArray [2]%nat [false; false]))
              (MkMaskedArray (NDArray [2]%nat [1; 0.75]%float) (NDArray [2]%nat [false; false])))
    as (s & Hs & Hd & _ & Hm & _).
  - by right.
  - reflexivity.
  - reflexivity.
  - by intros m [= <-].
  - reflexivity.
  - intros md Hmd. vm_compute in Hmd. injection Hmd as <-. by vm_compute.
  - intros ud Hud. vm_compute in Hud. injection Hud as <-. by vm_compute.
  - eexists. by vm_compute.
  - by exists s.
Defined.

(** ** The arithmetic operators *)

(** Whether a class accepts keyword arguments depends on their [wcs] and
    on the shape of their data only. *)
Lemma construct_stable `{E : Externals} (c : class) (kw1 kw2 : NDData) :
  is_Ok (construct c kw1) →
  nd_wcs kw2 = nd_wcs kw1 →
  shape (nd_data kw2) = shape (nd_data kw1) →
  ∃ o, construct c kw2 = Ok o ∧ class_of o = c ∧ base_of o = kw2.
Proof.
  intros [o1 H1] Hw Hs. destruct c; cbn in *.
  - by eexists.
  - by eexists.
  - unfold SpectrumData___init__ in *. rewrite Hw, Hs.
    destruct (nd_wcs kw1) as [w|]; [|done].
    destruct (spectrum_axes _ w) as [[[dd du] cross]|e]; [|done].
    by eexists.
  - unfold ImageData___init__ in *. rewrite Hw, Hs.
    destruct (nd_wcs kw1) as [w|]; [|by eexists].
    destruct (image_axes _ w) as [axes|e]; [|done].
    by eexists.
Qed.

Lemma wrap_operand_wcs `{E : Externals} (self : NDData) (other : operand) :
  nd_wcs (wrap_operand self other) = nd_wcs self.
Proof. by destruct other. Qed.

Lemma wrap_operand_shape `{E : Externals} (self : NDData) (other : operand) :
  operand_matches self other →
  shape (nd_data (wrap_operand self other)) = shape (nd_data self).
Proof. by destruct other. Qed.

(** A number is broadcast to the receiver's layout, every item being the
    number: nothing of the uninitialised allocation is left. *)
Lemma wrap_number_items `{E : Externals} (self : NDData) (v : float) :
  items (nd_data (wrap_operand self (OpNumber v)))
  = replicate (prod_shape (shape (nd_data self))) v.
Proof.
  cbn. generalize (prod_shape (shape (nd_data self))) as n. intros n.
  generalize 0%nat as s. induction n as [|n IH]; intros s; [done|].
  cbn. f_equal. apply IH.
Qed.

(** An operator returns as soon as the mixin accepts the operand: the
    result is stored at the first free address, is of the receiver's class
    and holds what the mixin computed. *)
Lemma BaseData_arith_Ok `{E : Externals}
    (op : arith_op) (h : gmap positive instance) (a : instance)
    (b : operand) (kw : NDData) :
  mixin_contract →
  constructible a →
  operand_matches (base_of a) b →
  nd_arithmetic op (base_of a) (wrap_operand (base_of a) b) = Ok kw →
  nd_wcs kw = nd_wcs (base_of a)
  ∧ ∃ r, BaseData_arith op h a b = Ok (fresh (dom h), <[fresh (dom h) := r]> h)
      ∧ class_of r = class_of a ∧ base_of r = kw.
Proof.
  intros HM Hc Hb Hkw.
  assert (nd_wcs kw = nd_wcs (base_of a)) as Hw.
  { destruct (mixin_wcs HM _ _ _ _ Hkw) as [->| ->]; [done|apply wrap_operand_wcs]. }
  assert (shape (nd_data kw) = shape (nd_data (base_of a))) as Hs.
  { apply (mixin_shape HM _ _ _ _ Hkw). by apply wrap_operand_shape. }
  destruct (construct_stable _ _ _ Hc Hw Hs) as (r & Hr & Hcls & Hbase).
  split; [done|]. exists r.
  unfold BaseData_arith, mixin_call. rewrite Hkw. rsimpl. by rewrite Hr.
Qed.

(** ** The reference services meet the mixin's contract *)

Lemma reference_mixin_contract : mixin_contract (E := Reference.externals).
Proof.
  split; cbn [nd_arithmetic Reference.externals]; unfold Reference.arithmetic.
  - intros op x y kw H. destruct (decide _); [|done].
    destruct (Reference.combine_unit _ _ _); [|done]. injection H as <-. by left.
  - intros op x y kw H _. destruct (decide _); [|done].
    destruct (Reference.combine_unit _ _ _); [|done]. by injection H as <-.
  - intros op x y kw H _ _. destruct (decide _); [|done].
    destruct (Reference.combine_unit _ _ _); [|done]. by injection H as <-.
Qed.

(** ** Identities of float64 addition and multiplication, item by item *)

Lemma f64_same_add_0 (x : float) : f64_same (PrimFloat.add x F64.zero) x.
Proof.
  destruct (F64_add_0_r x) as [->|[Hx ->]]; [by left|]. right.
  by rewrite FloatAxioms.eqb_spec, Prim2SF_zero, Hx.
Qed.

Lemma zip_with_add_zeros (l : list float) :
  Forall2 f64_same (zip_with PrimFloat.add l (replicate (length l) F64.zero)) l.
Proof.
  induction l as [|x l IH]; cbn; constructor; [apply f64_same_add_0|done].
Qed.

Lemma zip_with_mul_ones (l : list float) :
  zip_with PrimFloat.mul l (replicate (length l) F64.one) = l.
Proof.
  induction l as [|x l IH]; cbn; [done|]. by rewrite F64_mul_1_r, IH.
Qed.

(** C9. Under the mixin's contract, for every container [a] that came out
    of its constructor (with a unit or without) and on which the mixin
    accepts the broadcast numbers 0 and 1: [a + 0] returns a container of
    [a]'s shape whose data items are those of [a] (the same float64, or
    [+0.0] where [a] holds [-0.0]: equal under any tolerance), and [a * 1]
    returns a container whose data is that of [a] bit for bit. *)
Theorem arithmetic_identity `{E : Externals}
    (h : gmap positive instance) (a : instance) :
  mixin_contract →
  constructible a →
  wf_ndarray (nd_data (base_of a)) →
  is_Ok (nd_arithmetic Add (base_of a) (wrap_operand (base_of a) (OpNumber F64.zero))) →
  is_Ok (nd_arithmetic Mul (base_of a) (wrap_operand (base_of a) (OpNumber F64.one))) →
  (∃ l r, BaseData___add__ h a (OpNumber F64.zero) = Ok (l, <[l := r]> h)
     ∧ shape (nd_data (base_of r)) = shape (nd_data (base_of a))
     ∧ Forall2 f64_same (items (nd_data (base_of r))) (items (nd_data (base_of a))))
  ∧ (∃ l r, BaseData___mul__ h a (OpNumber F64.one) = Ok (l, <[l := r]> h)
       ∧ shape (nd_data (base_of r)) = shape (nd_data (base_of a))
       ∧ items (nd_data (base_of r)) = items (nd_data (base_of a))).
Proof.
  intros HM Hc Hwf Hadd Hmul. unfold wf_ndarray in Hwf.
  assert (∀ op v,
            is_Ok (nd_arithmetic op (base_of a) (wrap_operand (base_of a) (OpNumber v))) →
            ∃ r,
              BaseData_arith op h a (OpNumber v)
              = Ok (fresh (dom h), <[fresh (dom h) := r]> h)
              ∧ shape (nd_data (base_of r)) = shape (nd_data (base_of a))
              ∧ items (nd_data (base_of r))
                = zip_with (float_op op) (items (nd_data (base_of a)))
                    (replicate (length (items (nd_data (base_of a)))) v)) as Hop.
  { intros op v [kw Hkw].
    destruct (BaseData_arith_Ok op h a (OpNumber v) kw HM Hc I Hkw)
      as (_ & r & Hr & _ & Hbase).
    exists r. split; [done|]. rewrite Hbase. split.
    - by apply (mixin_shape HM _ _ _ _ Hkw).
    - rewrite (mixin_data HM _ _ _ _ Hkw) by done.
      by rewrite wrap_number_items, Hwf. }
  split.
  - destruct (Hop Add F64.zero Hadd) as (r & Hr & Hs & Hi).
    exists (fresh (dom h)), r. split; [done|]. split; [done|].
    rewrite Hi. apply zip_with_add_zeros.
  - destruct (Hop Mul F64.one Hmul) as (r & Hr & Hs & Hi).
    exists (fresh (dom h)), r. split; [done|]. split; [done|].
    rewrite Hi. apply zip_with_mul_ones.
Qed.

(** The 2 x 3 spectrum plus 0 and times 1. *)
Lemma arithmetic_identity_witness :
  (∃ l r, BaseData___add__ (E := Reference.externals) store (InstSpectrum spectrum2d)
            (OpNumber F64.zero) = Ok (l, <[l := r]> store)
     ∧ Forall2 f64_same (items (nd_data (base_of r))) [1; 2; 3; 4; 5; 6]%float)
  ∧ (∃ l r, BaseData___mul__ (E := Reference.externals) store (InstSpectrum spectrum2d)
              (OpNumber F64.one) = Ok (l, <[l := r]> store)
       ∧ items (nd_data (base_of r)) = [1; 2; 3; 4; 5; 6]%float).
Proof.
  destruct (arithmetic_identity (E := Reference.externals) store (InstSpectrum spectrum2d))
    as [(l0 & r0 & H0 & _ & Hi0) (l1 & r1 & H1 & _ & Hi1)].
  - apply reference_mixin_contract.
  - eexists. by vm_compute.
  - reflexivity.
  - eexists. by vm_compute.
  - eexists. by vm_compute.
  - split; [by exists l0, r0|by exists l1, r1].
Defined.

(** * Further properties of the containers *)

(** ** What [SpectrumData.__init__] establishes *)

Lemma index_sequence_length (p : float) (n : nat) (cands : list float) :
  index_sequence p n = Ok cands → length cands = n.
Proof.
  unfold index_sequence. intros H. apply bind_Ok in H as (cand & _ & H).
  injection H as <-. destruct (decide (length cand ≠ n)) as [|Heq].
  - unfold np_arange_int. by rewrite length_fmap, length_seq.
  - by apply dec_stable in Heq.
Qed.

Lemma spectrum_axes_cross `{E : Externals} (shp : list nat) (w : WCS)
    (dd : list float) (du : Unit) (cross : option Quantity) :
  spectrum_axes shp w = Ok (dd, du, cross) →
  (cross = None ↔ (length shp ≤ 1)%nat)
  ∧ ∀ q, cross = Some q →
      ∃ c_start c_step s1 a,
        py_getitem (crval w) 1 = Ok c_start ∧ py_getitem (cdelt w) 1 = Ok c_step
        ∧ shp !! 1%nat = Some s1
        ∧ np_arange c_start
            (PrimFloat.add c_start (PrimFloat.mul c_step (F64.of_nat s1))) c_step = Ok a
        ∧ py_getitem (cunit w) 1 = Ok (q_unit q)
        ∧ q_value q = array1 a.
Proof.
  unfold spectrum_axes. intros H.
  apply bind_Ok in H as (p & _ & H). apply bind_Ok in H as (n & _ & H).
  apply bind_Ok in H as (cands & _ & H). apply bind_Ok in H as (du' & _ & H).
  apply bind_Ok in H as (t & _ & H). apply bind_Ok in H as (dd' & _ & H).
  apply bind_Ok in H as (cross' & Hx & H). injection H as _ _ ->.
  destruct (decide (1 < length shp)%nat) as [Hlt|Hge].
  - apply bind_Ok in Hx as (c_start & Hcs & Hx).
    apply bind_Ok in Hx as (c_step & Hct & Hx).
    apply bind_Ok in Hx as (s1 & Hs1 & Hx). apply from_option_Ok in Hs1.
    apply bind_Ok in Hx as (a & Ha & Hx).
    apply bind_Ok in Hx as (cu & Hcu & Hx). injection Hx as <-.
    split; [split; [done|lia]|].
    intros q [= <-]. by exists c_start, c_step, s1, a.
  - injection Hx as <-. split; [split; [lia|done]|done].
Qed.

(** Every [SpectrumData] that comes out of the constructor has a
    coordinate mapping, a dispersion of exactly [data.shape[0]] samples
    (also after the fallback and under the log-wavelength transform) in the
    mapping's unit, a cross-dispersion exactly when the data has rank 2 or
    more, a flux made of the data under [unit], and an error exactly when
    it has an uncertainty. *)
Theorem SpectrumData_init_invariants `{E : Externals} (kw : NDData) (s : SpectrumData) :
  SpectrumData___init__ kw = Ok s →
  sp_base s = kw
  ∧ (∃ w n, nd_wcs kw = Some w ∧ shape (nd_data kw) !! 0%nat = Some n
       ∧ shape (q_value (sp_dispersion s)) = [n]
       ∧ length (items (q_value (sp_dispersion s))) = n
       ∧ py_getitem (cunit w) (if decide (length (cunit w) = 3%nat) then -1 else 0)
         = Ok (q_unit (sp_dispersion s)))
  ∧ (sp_cross_dispersion s = None ↔ (length (shape (nd_data kw)) ≤ 1)%nat)
  ∧ sp_flux s = u_Quantity (nd_data kw) (nd_unit kw)
  ∧ (sp_error s = None ↔ nd_uncertainty kw = None).
Proof.
  intros Hs.
  destruct (nd_wcs kw) as [w|] eqn:Hw.
  2:{ unfold SpectrumData___init__ in Hs. by rewrite Hw in Hs. }
  destruct (SpectrumData_init_inv _ _ _ Hs Hw) as (dd & du & cross & Hax & ->).
  destruct (spectrum_axes_cross _ _ _ _ _ Hax) as [Hcross _].
  destruct (spectrum_axes_inv _ _ _ _ _ Hax)
    as (p & n & cands & t & Hp & Hn & Hseq & Hu & Ht & Hdd).
  pose proof (index_sequence_length _ _ _ Hseq) as Hlen.
  assert (length dd = n) as Hdd'.
  { destruct (String.eqb t "WAVE-LOG").
    - destruct Hdd as (v & m & row & c & p2 & _ & _ & _ & _ & _ & ->).
      by rewrite length_fmap.
    - by subst dd. }
  cbn [sp_base sp_dispersion sp_cross_dispersion sp_flux sp_error q_value q_unit
       array1 shape items].
  split; [done|]. split.
  { exists w, n. by rewrite Hdd'. }
  split; [done|]. split; [done|].
  by destruct (nd_uncertainty kw).
Qed.

(** The 2 x 3 spectrum: two dispersion samples, a cross-dispersion, an
    error. *)
Lemma SpectrumData_init_invariants_witness :
  length (items (q_value (sp_dispersion spectrum2d))) = 2%nat
  ∧ sp_cross_dispersion spectrum2d ≠ None
  ∧ sp_error spectrum2d ≠ None.
Proof.
  destruct (SpectrumData_init_invariants (E := Reference.externals)
              spectrum2d_kw spectrum2d)
    as (_ & (w & n & Hw & Hn & _ & Hlen & _) & Hcross & _ & Herr);
    [by vm_compute|].
  injection Hn as <-. split; [exact Hlen|]. split.
  - intros Hnone. apply Hcross in Hnone. cbn in Hnone. lia.
  - intros Hnone. by apply Herr in Hnone.
Defined.

(** ** [CubeData.collapse_to_spectrum] *)

(** The two masked arrays that [collapse_to_spectrum] starts from, for a
    filter mask of the cube's shape. *)
Lemma collapse_to_spectrum_inputs (d : NDData) (n h w : nat) (fm : ndarray bool) :
  nddata_wf d [n; h; w] = true → shape fm = [n; h; w] →
  np_ma_masked_array (nd_data d) (Some (np_logical_not fm))
  = Ok (MkMaskedArray (nd_data d) (np_logical_not fm))
  ∧ ∀ u, nd_uncertainty d = Some u →
      np_ma_masked_array (unc_array u) (Some (np_logical_not fm))
      = Ok (MkMaskedArray (unc_array u) (np_logical_not fm)).
Proof.
  intros Hwf Hfm. destruct (nddata_wf_data _ _ Hwf) as [Hs _]. split.
  - apply np_ma_masked_array_same_shape. cbn. congruence.
  - intros u Hu. destruct (nddata_wf_uncertainty _ _ _ Hwf Hu) as [Hus _].
    apply np_ma_masked_array_same_shape. cbn. congruence.
Qed.

(** [collapse_to_spectrum] with [method="mean"] and a filter mask of the
    cube's shape: when the four masked means return and the dispersion
    axis derives for the reduced shape, the call returns a spectrum of the
    twice-reduced data, with an uncertainty of the source's class over the
    twice-reduced uncertainty array, and the negated reduction mask as
    validity sequence.  The spectrum's [mask] is the negated filter mask,
    still of the cube's 3-D shape. *)
Theorem collapse_to_spectrum_mean `{E : Externals}
    (c : CubeData) (n h w : nat) (fm : ndarray bool) (u : NDUncertainty) (wc : WCS)
    (m1 nm u1 nu : MaskedArray) :
  nddata_wf (cube_base c) [n; h; w] = true →
  shape fm = [n; h; w] →
  nd_uncertainty (cube_base c) = Some u →
  nd_wcs (cube_base c) = Some wc →
  ma_mean (MkMaskedArray (nd_data (cube_base c)) (np_logical_not fm)) 1 = Ok m1 →
  ma_mean m1 1 = Ok nm →
  ma_mean (MkMaskedArray (unc_array u) (np_logical_not fm)) 1 = Ok u1 →
  ma_mean u1 1 = Ok nu →
  is_Ok (spectrum_axes (shape (ma_data nm)) wc) →
  ∃ s, collapse_to_spectrum c "mean" (Some fm) = Ok (s, np_logical_not (ma_mask nm))
    ∧ nd_data (sp_base s) = ma_data nm
    ∧ nd_uncertainty (sp_base s) = Some (MkUncertainty (unc_class u) (ma_data nu))
    ∧ nd_mask (sp_base s) = Some (MaskBool (np_logical_not fm))
    ∧ shape (np_logical_not fm) = [n; h; w]
    ∧ nd_wcs (sp_base s) = nd_wcs (cube_base c)
    ∧ nd_meta (sp_base s) = nd_meta (cube_base c)
    ∧ nd_unit (sp_base s) = nd_unit (cube_base c).
Proof.
  intros Hwf Hfm Hu Hw Hm1 Hnm Hu1 Hnu [[[dd du] cross] Hax].
  destruct (collapse_to_spectrum_inputs _ _ _ _ _ Hwf Hfm) as [Hmd Hud].
  unfold collapse_to_spectrum, uncertainty_array.
  cbn [py_invert]. rsimpl. rewrite Hmd. rsimpl. rewrite Hu. rsimpl.
  rewrite (Hud u Hu). rsimpl. cbn [String.eqb Ascii.eqb Bool.eqb].
  rewrite Hm1. rsimpl. rewrite Hnm. rsimpl. rewrite Hu1. rsimpl. rewrite Hnu. rsimpl.
  unfold SpectrumData___init__. cbn [nd_wcs nd_data ma_mask]. rewrite Hw, Hax. rsimpl.
  eexists. split; [done|]. by cbn.
Qed.

(** The 2 x 2 x 2 cube, every pixel kept. *)
Lemma collapse_to_spectrum_mean_witness :
  ∃ s, collapse_to_spectrum (E := Reference.externals) cube222 "mean"
         (Some (NDArray [2; 2; 2]%nat [true; true; true; true; true; true; true; true]))
       = Ok (s, NDArray [2]%nat [true; true])
    ∧ nd_data (sp_base s) = NDArray [2]%nat [2.5; 6.5]%float.
Proof.
  destruct (collapse_to_spectrum_mean (E := Reference.externals) cube222 2 2 2
              (NDArray [2; 2; 2]%nat [true; true; true; true; true; true; true; true])
              (MkUncertainty "StdDevUncertainty"
                 (NDArray [2; 2; 2]%nat
                    [0.5; 0.25; 0.125; 1.5; 2.5; 3.5; 4.5; 5.5]%float))
              wcs_linear
              (MkMaskedArray (NDArray [2; 2]%nat [2; 3; 6; 7]%float)
                 (NDArray [2; 2]%nat [false; false; false; false]))
              (MkMaskedArray (NDArray [2]%nat [2.5; 6.5]%float)
                 (NDArray [2]%nat [false; false]))
              (MkMaskedArray (NDArray [2; 2]%nat [0.3125; 0.875; 3.5; 4.5]%float)
                 (NDArray [2; 2]%nat [false; false; false; false]))
              (MkMaskedArray (NDArray [2]%nat [0.59375; 4]%float)
                 (NDArray [2]%nat [false; false])))
    as (s & Hs & Hd & _); [reflexivity..| | | | | |].
  - by vm_compute.
  - by vm_compute.
  - by vm_compute.
  - by vm_compute.
  - eexists. by vm_compute.
  - exists s. by rewrite Hd.
Defined.

(** Called with a filter mask of the cube's shape, on a cube that
    respects the shape invariant, [collapse_to_spectrum] raises
    [AttributeError] for every method when the cube has no uncertainty
    ([self.uncertainty.array]), and for [method="median"] on every such
    cube (a masked array has no [median] method).  Without a filter mask
    the call fails earlier, on [~filter_mask]. *)
Theorem collapse_to_spectrum_attribute_error `{E : Externals}
    (c : CubeData) (n h w : nat) (method : string) (fm : ndarray bool) :
  nddata_wf (cube_base c) [n; h; w] = true →
  shape fm = [n; h; w] →
  nd_uncertainty (cube_base c) = None ∨ method = "median" →
  collapse_to_spectrum c method (Some fm) = Raise AttributeError.
Proof.
  intros Hwf Hfm Hcase.
  destruct (collapse_to_spectrum_inputs _ _ _ _ _ Hwf Hfm) as [Hmd Hud].
  unfold collapse_to_spectrum, uncertainty_array.
  cbn [py_invert]. rsimpl. rewrite Hmd. rsimpl.
  destruct (nd_uncertainty (cube_base c)) as [u|] eqn:Hu; [|done].
  destruct Hcase as [Hn| ->]; [done|]. rsimpl. by rewrite (Hud u eq_refl).
Qed.

(** The median of the 2 x 2 x 2 cube. *)
Lemma collapse_to_spectrum_attribute_error_witness :
  collapse_to_spectrum (E := Reference.externals) cube222 "median"
    (Some (NDArray [2; 2; 2]%nat [true; true; true; true; true; true; true; true]))
  = Raise AttributeError.
Proof.
  apply (collapse_to_spectrum_attribute_error (E := Reference.externals) cube222 2 2 2);
    [reflexivity|reflexivity|by right].
Defined.

(** Called with a filter mask of the cube's shape, on a cube that
    respects the shape invariant and has an uncertainty,
    [collapse_to_spectrum] has no branch for a method other than mean and
    median: the names [new_mdata] and [new_udata] stay unbound and the
    return statement raises [UnboundLocalError], not
    [NotImplementedError].  Without a filter mask the call fails earlier,
    on [~filter_mask]. *)
Theorem collapse_to_spectrum_unknown_method `{E : Externals}
    (c : CubeData) (n h w : nat) (method : string) (fm : ndarray bool) :
  nddata_wf (cube_base c) [n; h; w] = true →
  shape fm = [n; h; w] →
  nd_uncertainty (cube_base c) ≠ None →
  method ≠ "mean" → method ≠ "median" →
  collapse_to_spectrum c method (Some fm) = Raise UnboundLocalError.
Proof.
  intros Hwf Hfm Hu H1 H2.
  destruct (collapse_to_spectrum_inputs _ _ _ _ _ Hwf Hfm) as [Hmd Hud].
  unfold collapse_to_spectrum, uncertainty_array.
  cbn [py_invert]. rsimpl. rewrite Hmd. rsimpl.
  destruct (nd_uncertainty (cube_base c)) as [u|] eqn:Hu'; [|done].
  rsimpl. rewrite (Hud u eq_refl). rsimpl.
  by rewrite !(proj2 (String.eqb_neq _ _)).
Qed.

(** The method "sum", which [SpectrumData.collapse] knows, on the cube. *)
Lemma collapse_to_spectrum_unknown_method_witness :
  collapse_to_spectrum (E := Reference.externals) cube222 "sum"
    (Some (NDArray [2; 2; 2]%nat [true; true; true; true; true; true; true; true]))
  = Raise UnboundLocalError.
Proof.
  by apply (collapse_to_spectrum_unknown_method (E := Reference.externals) cube222 2 2 2).
Defined.

(** ** [CubeData.collapse_to_image] *)

(** The method "mode" is accepted by the dispatch but binds nothing: on a
    cube that respects the shape invariant the return statement raises
    [UnboundLocalError] (not [NotImplementedError]), whatever the range and
    the axis. *)
Theorem collapse_to_image_mode_unbound `{E : Externals}
    (c : CubeData) (n h w : nat) (wr : option (Z * Z)) (axis : Z) :
  nddata_wf (cube_base c) [n; h; w] = true →
  collapse_to_image c wr "mode" axis = Raise UnboundLocalError.
Proof.
  intros Hwf. unfold collapse_to_image.
  by destruct (image_mdata_Ok _ _ _ _ wr Hwf) as [md ->].
Qed.

(** "mode" on the 2 x 2 x 2 cube. *)
Lemma collapse_to_image_mode_unbound_witness :
  collapse_to_image (E := Reference.externals) cube222 None "mode" 0
  = Raise UnboundLocalError.
Proof.
  by apply (collapse_to_image_mode_unbound (E := Reference.externals) cube222 2 2 2).
Defined.

(** [collapse_to_image] with [method="median"] goes through the function
    [np.ma.median]: when it returns and the image axes derive, the call
    returns an image of the reduced data, without uncertainty, with the
    cube's own mask, wcs, meta and unit. *)
Theorem collapse_to_image_median `{E : Externals}
    (c : CubeData) (wr : option (Z * Z)) (axis : Z) (md nd : MaskedArray) :
  image_mdata (cube_base c) wr = Ok md →
  np_ma_median md axis = Ok nd →
  (∀ wc, nd_wcs (cube_base c) = Some wc → is_Ok (image_axes (shape (ma_data nd)) wc)) →
  ∃ img, collapse_to_image c wr "median" axis = Ok img
    ∧ nd_data (im_base img) = ma_data nd
    ∧ nd_uncertainty (im_base img) = None
    ∧ nd_mask (im_base img) = nd_mask (cube_base c)
    ∧ nd_wcs (im_base img) = nd_wcs (cube_base c)
    ∧ nd_meta (im_base img) = nd_meta (cube_base c)
    ∧ nd_unit (im_base img) = nd_unit (cube_base c)
    ∧ (im_axes img = None ↔ nd_wcs (cube_base c) = None).
Proof.
  intros Hmd Hmed Hax. unfold collapse_to_image.
  rewrite Hmd. cbn [mbind result_bind String.eqb Ascii.eqb Bool.eqb].
  rewrite Hmed. cbn [fmap result_fmap]. unfold ImageData___init__.
  cbn [nd_wcs nd_data].
  destruct (nd_wcs (cube_base c)) as [wc|] eqn:Hwc.
  - rsimpl. destruct (Hax wc eq_refl) as [a ->]. rsimpl. eexists. split; [done|].
    cbn. by repeat split.
  - rsimpl. eexists. split; [done|]. cbn. by repeat split.
Qed.

(** The median image of the 2 x 2 x 2 cube: the two masked pixels take the
    value of the other plane. *)
Lemma collapse_to_image_median_witness :
  ∃ img, collapse_to_image (E := Reference.externals) cube222 None "median" 0 = Ok img
    ∧ nd_data (im_base img) = NDArray [2; 2]%nat [3; 6; 3; 6]%float
    ∧ nd_uncertainty (im_base img) = None.
Proof.
  destruct (collapse_to_image_median (E := Reference.externals) cube222 None 0
              (MkMaskedArray (nd_data (cube_base cube222))
                 (NDArray [2; 2; 2]%nat
                    [false; true; false; false; false; false; true; false]))
              (MkMaskedArray (NDArray [2; 2]%nat [3; 6; 3; 6]%float)
                 (NDArray [2; 2]%nat [false; false; false; false])))
    as (img & Hc & Hd & Hu & _).
  - reflexivity.
  - by vm_compute.
  - intros wc [= <-]. eexists. by vm_compute.
  - exists img. by rewrite Hd.
Defined.

Lemma slice_bound_full (n : nat) (start stop : Z) :
  start = 0 ∨ start ≤ - Z.of_nat n → Z.of_nat n ≤ stop →
  slice_bound n start = 0%nat ∧ slice_bound n stop = n.
Proof.
  intros Hstart Hstop. unfold slice_bound. split.
  - destruct Hstart as [->|Hle]; [cbn; lia|].
    destruct (start <? 0) eqn:Hneg; lia.
  - destruct (stop <? 0) eqn:Hneg; [apply Z.ltb_lt in Hneg|]; lia.
Qed.

Lemma getitem_slice0_full {A} (a : ndarray A) (n h w : nat) (start stop : Z) :
  shape a = [n; h; w] → length (items a) = prod_shape [n; h; w] →
  slice_bound n start = 0%nat → slice_bound n stop = n →
  getitem_slice0 a start stop = Ok a.
Proof.
  intros Hs Hl H0 Hn. unfold getitem_slice0. rewrite Hs, H0, Hn.
  destruct a as [s its]. cbn in *. subst s. f_equal. f_equal; [f_equal; lia|].
  rewrite Nat.sub_0_r. apply firstn_all2. lia.
Qed.

(** A [wavelength_range] that covers the whole spectral axis (start 0 or
    at most -N, stop at least N) changes nothing: on a cube that respects
    the shape invariant, [collapse_to_image] gives what it gives without
    a range, for every method and axis. *)
Theorem collapse_to_image_full_range `{E : Externals}
    (c : CubeData) (n h w : nat) (start stop : Z) (method : string) (axis : Z) :
  nddata_wf (cube_base c) [n; h; w] = true →
  start = 0 ∨ start ≤ - Z.of_nat n →
  Z.of_nat n ≤ stop →
  collapse_to_image c (Some (start, stop)) method axis
  = collapse_to_image c None method axis.
Proof.
  intros Hwf Hstart Hstop.
  destruct (slice_bound_full n start stop Hstart Hstop) as [H0 Hn].
  destruct (nddata_wf_data _ _ Hwf) as [Hs Hl].
  unfold collapse_to_image. f_equal. unfold image_mdata.
  destruct (nd_mask (cube_base c)) as [m|] eqn:Hm.
  - destruct (nddata_wf_mask _ _ _ Hwf Hm) as (b & -> & Hbs & Hbl).
    cbn -[np_ma_masked_array].
    rewrite np_ma_masked_array_same_shape by congruence. rsimpl.
    unfold ma_getitem_slice0. cbn [ma_data ma_mask].
    rewrite (getitem_slice0_full _ n h w start stop Hs Hl H0 Hn). rsimpl.
    by rewrite (getitem_slice0_full _ n h w start stop Hbs Hbl H0 Hn).
  - cbn. unfold ma_getitem_slice0. cbn [ma_data ma_mask].
    rewrite (getitem_slice0_full _ n h w start stop Hs Hl H0 Hn). rsimpl.
    rewrite (getitem_slice0_full _ n h w start stop); [done|done| |done|done].
    cbn [items]. by rewrite length_fmap.
Qed.

(** The range (0, 5) on the cube of two spectral planes. *)
Lemma collapse_to_image_full_range_witness :
  collapse_to_image (E := Reference.externals) cube222 (Some (0, 5)) "mean" 0
  = collapse_to_image (E := Reference.externals) cube222 None "mean" 0.
Proof.
  apply (collapse_to_image_full_range (E := Reference.externals) cube222 2 2 2);
    [reflexivity|by left|lia].
Defined.

(** ** Multi-indices and [np.swapaxes] *)

Lemma prod_shape_cons (d : nat) (s : list nat) :
  prod_shape (d :: s) = (d * prod_shape s)%nat.
Proof. reflexivity. Qed.

Lemma unravel_index_valid (s : list nat) (idx : nat) :
  (idx < prod_shape s)%nat → Forall2 lt (unravel_index s idx) s.
Proof.
  revert idx. induction s as [|d s IH]; intros idx Hlt; [constructor|].
  rewrite prod_shape_cons in Hlt. cbn [unravel_index].
  assert (0 < prod_shape s)%nat as Hpos by nia.
  constructor.
  - apply Nat.Div0.div_lt_upper_bound. lia.
  - apply IH. apply Nat.mod_upper_bound. lia.
Qed.

Lemma ravel_unravel_index (s : list nat) (idx : nat) :
  (idx < prod_shape s)%nat → ravel_index s (unravel_index s idx) = idx.
Proof.
  revert idx. induction s as [|d s IH]; intros idx Hlt; [cbn in *; lia|].
  rewrite prod_shape_cons in Hlt. cbn [unravel_index ravel_index].
  assert (0 < prod_shape s)%nat as Hpos by nia.
  rewrite IH by (apply Nat.mod_upper_bound; lia).
  pose proof (Nat.div_mod_eq idx (prod_shape s)). lia.
Qed.

Lemma ravel_index_lt (s mi : list nat) :
  Forall2 lt mi s → (ravel_index s mi < prod_shape s)%nat.
Proof.
  induction 1 as [|i d mi s Hi _ IH]; [cbn; lia|].
  rewrite prod_shape_cons. cbn [ravel_index]. nia.
Qed.

Lemma unravel_ravel_index (s mi : list nat) :
  Forall2 lt mi s → unravel_index s (ravel_index s mi) = mi.
Proof.
  induction 1 as [|i d mi s Hi Hrest IH]; [done|].
  cbn [unravel_index ravel_index].
  pose proof (ravel_index_lt _ _ Hrest) as Hr.
  assert (prod_shape s ≠ 0)%nat as Hpos by lia.
  rewrite Nat.div_add_l by done. rewrite Nat.div_small by done.
  rewrite Nat.add_0_r. f_equal.
  rewrite Nat.add_comm, Nat.Div0.mod_add, Nat.mod_small by done. done.
Qed.

Lemma swap_entries_length {A} (i j : nat) (l : list A) :
  length (swap_entries i j l) = length l.
Proof.
  unfold swap_entries. destruct (l !! i), (l !! j); by rewrite ?length_insert.
Qed.

Lemma swap_entries_lookup {A} (i j k : nat) (l : list A) :
  (i < length l)%nat → (j < length l)%nat →
  swap_entries i j l !! k
  = if decide (k = j) then l !! i else if decide (k = i) then l !! j else l !! k.
Proof.
  intros Hi Hj. unfold swap_entries.
  destruct (lookup_lt_is_Some_2 l i Hi) as [x Hx].
  destruct (lookup_lt_is_Some_2 l j Hj) as [y Hy]. rewrite Hx, Hy.
  destruct (decide (k = j)) as [->|Hkj].
  - by rewrite list_lookup_insert_eq by by rewrite length_insert.
  - rewrite list_lookup_insert_ne by done.
    destruct (decide (k = i)) as [->|Hki].
    + by rewrite list_lookup_insert_eq.
    + by rewrite list_lookup_insert_ne.
Qed.

Lemma swap_entries_out {A} (i j : nat) (l : list A) :
  ¬ (i < length l ∧ j < length l)%nat → swap_entries i j l = l.
Proof.
  intros Hout. unfold swap_entries.
  destruct (l !! i) as [x|] eqn:Hx, (l !! j) as [y|] eqn:Hy; try done.
  apply lookup_lt_Some in Hx, Hy. lia.
Qed.

Lemma swap_entries_involutive {A} (i j : nat) (l : list A) :
  swap_entries i j (swap_entries i j l) = l.
Proof.
  destruct (decide (i < length l ∧ j < length l)%nat) as [[Hi Hj]|Hout].
  - apply list_eq. intros k.
    rewrite swap_entries_lookup by by rewrite swap_entries_length.
    rewrite !swap_entries_lookup by done.
    repeat case_decide; congruence.
  - by rewrite !(swap_entries_out i j l Hout).
Qed.

Lemma swap_entries_Forall2 {A B} (R : A → B → Prop) (i j : nat)
    (l : list A) (k : list B) :
  Forall2 R l k → Forall2 R (swap_entries i j l) (swap_entries i j k).
Proof.
  intros H. pose proof (Forall2_length _ _ _ H) as Hlen.
  destruct (decide (i < length l ∧ j < length l)%nat) as [[Hi Hj]|Hout].
  - unfold swap_entries.
    destruct (lookup_lt_is_Some_2 l i Hi) as [x Hx].
    destruct (lookup_lt_is_Some_2 l j Hj) as [y Hy].
    destruct (Forall2_lookup_l _ _ _ _ _ H Hx) as (x' & Hx' & Hxx).
    destruct (Forall2_lookup_l _ _ _ _ _ H Hy) as (y' & Hy' & Hyy).
    rewrite Hx, Hy, Hx', Hy'. by repeat apply Forall2_insert.
  - rewrite !swap_entries_out; [done|lia|done].
Qed.

Lemma prod_shape_zero (s : list nat) (k : nat) :
  s !! k = Some 0%nat → prod_shape s = 0%nat.
Proof.
  revert k. induction s as [|d s IH]; intros [|k] Hk; try done.
  - injection Hk as ->. by rewrite prod_shape_cons.
  - rewrite prod_shape_cons, (IH k Hk). lia.
Qed.

Lemma prod_shape_insert (s : list nat) (k x y : nat) :
  s !! k = Some x → (prod_shape (<[k := y]> s) * x = prod_shape s * y)%nat.
Proof.
  revert k. induction s as [|d s IH]; intros [|k] Hk; try done.
  - injection Hk as ->. cbn [list_insert insert]. rewrite !prod_shape_cons. lia.
  - cbn in Hk. specialize (IH k Hk).
    change (<[S k := y]> (d :: s)) with (d :: <[k := y]> s).
    rewrite !prod_shape_cons. nia.
Qed.

Lemma prod_shape_swap (i j : nat) (s : list nat) :
  prod_shape (swap_entries i j s) = prod_shape s.
Proof.
  destruct (decide (i < length s ∧ j < length s)%nat) as [[Hi Hj]|Hout];
    [|by rewrite swap_entries_out].
  destruct (lookup_lt_is_Some_2 s i Hi) as [x Hx].
  destruct (lookup_lt_is_Some_2 s j Hj) as [y Hy].
  destruct (decide (i = j)) as [->|Hne].
  { unfold swap_entries. rewrite Hx. by rewrite !(list_insert_id s j x Hx). }
  destruct (decide (y = 0%nat)) as [->|Hy0].
  { rewrite (prod_shape_zero s j Hy). apply (prod_shape_zero _ i).
    rewrite swap_entries_lookup by done. rewrite decide_False by done.
    by rewrite decide_True. }
  assert (swap_entries i j s = <[j := x]> (<[i := y]> s)) as ->
    by (unfold swap_entries; by rewrite Hx, Hy).
  pose proof (prod_shape_insert s i x y Hx) as H1.
  pose proof (prod_shape_insert (<[i := y]> s) j y x) as H2.
  rewrite list_lookup_insert_ne in H2 by done. specialize (H2 Hy). nia.
Qed.

Lemma bind_option_list_total {A} (f : nat → option A) (s n : nat) :
  (∀ k, (s ≤ k < s + n)%nat → is_Some (f k)) →
  length (seq s n ≫= λ k, option_list (f k)) = n
  ∧ ∀ k, (k < n)%nat → (seq s n ≫= λ k, option_list (f k)) !! k = f (s + k)%nat.
Proof.
  revert s. induction n as [|n IH]; intros s Hf.
  { split; [done|]. intros k Hk. lia. }
  destruct (Hf s) as [x Hx]; [lia|].
  destruct (IH (S s)) as [IHlen IHget]; [intros k Hk; apply Hf; lia|].
  cbn [seq mbind list_bind]. rewrite Hx. cbn [option_list app].
  split.
  - cbn. by rewrite IHlen.
  - intros [|k] Hk; cbn.
    + by rewrite Nat.add_0_r.
    + rewrite IHget by lia. f_equal. lia.
Qed.

Lemma normalize_axis_Ok (rank : nat) (axis : Z) (i : nat) :
  normalize_axis rank axis = Ok i → (i < rank)%nat.
Proof.
  unfold normalize_axis. intros Hi.
  destruct (0 <=? axis) eqn:H0, (axis <? Z.of_nat rank) eqn:H1; simpl in Hi;
    try (injection Hi as <-; lia);
    destruct (- Z.of_nat rank <=? axis) eqn:H2, (axis <? 0) eqn:H3; simpl in Hi;
    try discriminate; injection Hi as <-; lia.
Qed.

(** [np.swapaxes] on an array with as many items as its shape announces:
    the shape has the two entries exchanged, no item is lost, and each
    position holds the item found at the exchanged multi-index. *)
Lemma np_swapaxes_spec {A} (a a' : ndarray A) (axis1 axis2 : Z) :
  wf_ndarray a →
  np_swapaxes a axis1 axis2 = Ok a' →
  ∃ i j, normalize_axis (length (shape a)) axis1 = Ok i
    ∧ normalize_axis (length (shape a)) axis2 = Ok j
    ∧ shape a' = swap_entries i j (shape a)
    ∧ wf_ndarray a'
    ∧ ∀ idx, (idx < prod_shape (shape a'))%nat →
        items a' !! idx
        = items a !! ravel_index (shape a) (swap_entries i j (unravel_index (shape a') idx)).
Proof.
  intros Hwf H. unfold np_swapaxes in H.
  apply bind_Ok in H as (i & Hi & H). apply bind_Ok in H as (j & Hj & H).
  injection H as <-. exists i, j. split; [done|]. split; [done|]. split; [done|].
  cbn [shape items]. unfold wf_ndarray. cbn [shape items].
  apply bind_option_list_total. intros k Hk.
  apply lookup_lt_is_Some_2. rewrite Hwf.
  apply ravel_index_lt.
  rewrite <- (swap_entries_involutive i j (shape a)) at 2.
  apply swap_entries_Forall2. apply unravel_index_valid. lia.
Qed.

(** Exchanging the same two axes twice gives the array back. *)
Lemma np_swapaxes_involutive {A} (a a' : ndarray A) (axis1 axis2 : Z) :
  wf_ndarray a →
  np_swapaxes a axis1 axis2 = Ok a' →
  np_swapaxes a' axis1 axis2 = Ok a.
Proof.
  intros Hwf H.
  destruct (np_swapaxes_spec _ _ _ _ Hwf H) as (i & j & Hi & Hj & Hs & Hwf' & Hget).
  destruct (np_swapaxes a' axis1 axis2) as [a''|e] eqn:H'.
  2:{ unfold np_swapaxes in H'. rewrite Hs, swap_entries_length, Hi, Hj in H'. done. }
  destruct (np_swapaxes_spec _ _ _ _ Hwf' H')
    as (i' & j' & Hi' & Hj' & Hs' & Hwf'' & Hget').
  rewrite Hs, swap_entries_length in Hi', Hj'.
  rewrite Hi in Hi'. injection Hi' as <-. rewrite Hj in Hj'. injection Hj' as <-.
  rewrite Hs, swap_entries_involutive in Hs'.
  f_equal. destruct a as [s its], a'' as [s'' its'']. cbn in *. subst s''.
  f_equal. unfold wf_ndarray in *. cbn in *.
  apply (list_eq_same_length _ _ (prod_shape s)); [done..|].
  intros idx x y Hlt Hx Hy.
  rewrite Hget' in Hx by done.
  pose proof (unravel_index_valid s idx Hlt) as Hv.
  apply (swap_entries_Forall2 _ i j) in Hv.
  rewrite Hget in Hx.
  2:{ rewrite Hs. by apply ravel_index_lt. }
  rewrite Hs in Hx. rewrite unravel_ravel_index in Hx by done.
  rewrite swap_entries_involutive, ravel_unravel_index in Hx by done.
  congruence.
Qed.

(** ** [SpectrumData.flip] *)

Lemma SpectrumData_init_base `{E : Externals} (kw : NDData) (s : SpectrumData) :
  SpectrumData___init__ kw = Ok s → sp_base s = kw.
Proof.
  unfold SpectrumData___init__. intros H.
  apply bind_Ok in H as ([[[dd du] cross]|] & _ & H); [|done]. by injection H as <-.
Qed.

Lemma SpectrumData_init_dispersion_length `{E : Externals}
    (kw : NDData) (s : SpectrumData) (n : nat) :
  SpectrumData___init__ kw = Ok s → shape (nd_data kw) !! 0%nat = Some n →
  length (items (q_value (sp_dispersion s))) = n.
Proof.
  intros Hs Hn. destruct (nd_wcs kw) as [w|] eqn:Hw.
  2:{ unfold SpectrumData___init__ in Hs. by rewrite Hw in Hs. }
  destruct (SpectrumData_init_inv _ _ _ Hs Hw) as (dd & du & cross & Hax & ->).
  destruct (spectrum_axes_inv _ _ _ _ _ Hax)
    as (p & n' & cands & t & _ & Hn' & Hseq & _ & _ & Hdd).
  rewrite Hn in Hn'. injection Hn' as <-.
  pose proof (index_sequence_length _ _ _ Hseq) as Hlen. cbn.
  destruct (String.eqb t "WAVE-LOG").
  - destruct Hdd as (v & m & row & c & p2 & _ & _ & _ & _ & _ & ->).
    by rewrite length_fmap.
  - by subst dd.
Qed.

(** [flip(0, 1)] on a 2-D spectrum of shape (h, w) under a mapping from
    which the axes of a (w, h) spectrum derive: the call returns a spectrum
    whose data is the transpose (item (j, i) is the source's item (i, j)),
    with a dispersion of w samples, while uncertainty, mask, wcs, meta and
    unit are the source's own; so an uncertainty of shape (h, w) with
    h <> w no longer has the shape of the data. *)
Theorem flip_transposes_data_only `{E : Externals}
    (s : SpectrumData) (h w : nat) (wc : WCS) :
  shape (nd_data (sp_base s)) = [h; w] →
  wf_ndarray (nd_data (sp_base s)) →
  nd_wcs (sp_base s) = Some wc →
  is_Ok (spectrum_axes [w; h] wc) →
  ∃ s', flip s 0 1 = Ok s'
    ∧ shape (nd_data (sp_base s')) = [w; h]
    ∧ (∀ i j, (i < h)%nat → (j < w)%nat →
         items (nd_data (sp_base s')) !! (j * h + i)%nat
         = items (nd_data (sp_base s)) !! (i * w + j)%nat)
    ∧ length (items (q_value (sp_dispersion s'))) = w
    ∧ nd_uncertainty (sp_base s') = nd_uncertainty (sp_base s)
    ∧ nd_mask (sp_base s') = nd_mask (sp_base s)
    ∧ nd_wcs (sp_base s') = nd_wcs (sp_base s)
    ∧ nd_meta (sp_base s') = nd_meta (sp_base s)
    ∧ nd_unit (sp_base s') = nd_unit (sp_base s)
    ∧ (∀ u, nd_uncertainty (sp_base s') = Some u → shape (unc_array u) = [h; w] →
         h ≠ w → shape (unc_array u) ≠ shape (nd_data (sp_base s'))).
Proof.
  intros Hs Hwf Hw [[[dd du] cross] Hax].
  destruct (np_swapaxes (nd_data (sp_base s)) 0 1) as [d|e] eqn:Hd.
  2:{ unfold np_swapaxes in Hd. by rewrite Hs in Hd. }
  destruct (np_swapaxes_spec _ _ _ _ Hwf Hd) as (i0 & j0 & Hi0 & Hj0 & Hds & _ & Hget).
  rewrite Hs in Hi0, Hj0. injection Hi0 as <-. injection Hj0 as <-.
  change (Z.to_nat 0) with 0%nat in *. change (Z.to_nat 1) with 1%nat in *.
  rewrite Hs in Hds. change (shape d = [w; h]) in Hds.
  destruct (SpectrumData___init__
              {| nd_data := d; nd_uncertainty := nd_uncertainty (sp_base s);
                 nd_mask := nd_mask (sp_base s); nd_wcs := nd_wcs (sp_base s);
                 nd_meta := nd_meta (sp_base s); nd_unit := nd_unit (sp_base s) |})
    as [s'|e] eqn:Hs'.
  2:{ unfold SpectrumData___init__ in Hs'. cbn [nd_wcs nd_data] in Hs'.
      by rewrite Hw, Hds, Hax in Hs'. }
  exists s'. unfold flip. rewrite Hd. rsimpl. split; [done|].
  pose proof (SpectrumData_init_dispersion_length _ _ w Hs') as Hlen.
  rewrite (SpectrumData_init_base _ _ Hs').
  cbn [nd_data nd_uncertainty nd_mask nd_wcs nd_meta nd_unit].
  split; [done|]. split.
  { intros i j Hi Hj. rewrite Hget.
    2:{ rewrite Hds. cbn. nia. }
    rewrite Hds, Hs. cbn [unravel_index ravel_index prod_shape foldr].
    rewrite !Nat.mul_1_r, Nat.div_1_r.
    rewrite Nat.div_add_l, Nat.div_small by lia.
    rewrite (Nat.add_comm (j * h)), Nat.Div0.mod_add, Nat.mod_small by lia.
    cbn. f_equal. lia. }
  split; [apply Hlen; cbn; by rewrite Hds|].
  repeat (split; [done|]).
  intros u _ Hus Hne. rewrite Hus, Hds. congruence.
Qed.

(** The 2 x 3 spectrum flipped: 3 x 2 data, item (2, 1) is the source's
    item (1, 2), and the uncertainty keeps its 2 x 3 shape. *)
Lemma flip_transposes_data_only_witness :
  ∃ s', flip (E := Reference.externals) spectrum2d 0 1 = Ok s'
    ∧ shape (nd_data (sp_base s')) = [3; 2]%nat
    ∧ items (nd_data (sp_base s')) !! 5%nat = Some 6%float
    ∧ (unc_array <$> nd_uncertainty (sp_base s'))
      = (unc_array <$> nd_uncertainty spectrum2d_kw).
Proof.
  destruct (flip_transposes_data_only (E := Reference.externals) spectrum2d 2 3 wcs_linear)
    as (s' & Hf & Hs & Hget & _ & Hu & _); [reflexivity..| |].
  - eexists. by vm_compute.
  - exists s'. split; [done|]. split; [done|]. split.
    + specialize (Hget 1%nat 2%nat ltac:(lia) ltac:(lia)).
      change (2 * 2 + 1)%nat with 5%nat in Hget. by rewrite Hget.
    + by rewrite Hu.
Defined.

(** Flipping twice over the same axes gives the spectrum back: for every
    spectrum that came out of its constructor, of any rank, whenever the
    first [flip] returns, the second returns the original spectrum. *)
Theorem flip_twice `{E : Externals} (s s' : SpectrumData) (axis1 axis2 : Z) :
  SpectrumData___init__ (sp_base s) = Ok s →
  wf_ndarray (nd_data (sp_base s)) →
  flip s axis1 axis2 = Ok s' →
  flip s' axis1 axis2 = Ok s.
Proof.
  intros Hinit Hwf Hflip. unfold flip in Hflip.
  apply bind_Ok in Hflip as (d & Hd & Hs').
  pose proof (SpectrumData_init_base _ _ Hs') as Hbase.
  unfold flip. rewrite Hbase. cbn [nd_data nd_uncertainty nd_mask nd_wcs nd_meta nd_unit].
  rewrite (np_swapaxes_involutive _ _ _ _ Hwf Hd). rsimpl.
  rewrite <- Hinit. f_equal. by destruct (sp_base s).
Qed.

(** The 2 x 3 spectrum flipped twice. *)
Lemma flip_twice_witness :
  ∃ s', flip (E := Reference.externals) spectrum2d 0 1 = Ok s'
    ∧ flip (E := Reference.externals) s' 0 1 = Ok spectrum2d.
Proof.
  destruct (flip (E := Reference.externals) spectrum2d 0 1) as [s'|e] eqn:Hf;
    [|by vm_compute in Hf].
  exists s'. split; [done|].
  apply (flip_twice (E := Reference.externals) spectrum2d s' 0 1); [by vm_compute|done|done].
Defined.

(** ** [BaseData.export_fits] *)

Lemma string_length_app (s t : string) :
  String.length (s +:+ t) = (String.length s + String.length t)%nat.
Proof.
  induction s as [|a s IH]; [done|].
  change (String a s +:+ t) with (String a (s +:+ t)).
  cbn [String.length]. by rewrite IH.
Qed.

Lemma collapse_to_image_uncertainty `{E : Externals}
    (c : CubeData) (wr : option (Z * Z)) (method : string) (axis : Z) (img : ImageData) :
  collapse_to_image c wr method axis = Ok img →
  nd_uncertainty (im_base img) = None ∧ nd_mask (im_base img) = nd_mask (cube_base c).
Proof.
  unfold collapse_to_image. intros H.
  apply bind_Ok in H as (md & _ & H). apply bind_Ok in H as ([nd|] & _ & H); [|done].
  unfold ImageData___init__ in H. apply bind_Ok in H as (axes & _ & H).
  by injection H as <-.
Qed.

(** [export_fits] needs an uncertainty, a mask and a coordinate mapping:
    when one of them is [None] it raises [AttributeError] and writes
    nothing.  In particular no image returned by [collapse_to_image] (its
    uncertainty is [None]) can be exported, whatever the cube, the method
    and the path. *)
Theorem export_fits_missing_attribute `{E : Externals} `{C : Conversions} :
  (∀ (self : NDData) (path : string) (files : gmap string (list HDU)),
     nd_uncertainty self = None ∨ nd_mask self = None ∨ nd_wcs self = None →
     export_fits self path files = ExportRaise AttributeError)
  ∧ ∀ (c : CubeData) (wr : option (Z * Z)) (method : string) (axis : Z)
      (img : ImageData) (path : string) (files : gmap string (list HDU)),
      collapse_to_image c wr method axis = Ok img →
      export_fits (im_base img) path files = ExportRaise AttributeError.
Proof.
  assert (∀ (self : NDData) (path : string) (files : gmap string (list HDU)),
            nd_uncertainty self = None ∨ nd_mask self = None ∨ nd_wcs self = None →
            export_fits self path files = ExportRaise AttributeError) as Hmissing.
  { intros self path files Hnone. unfold export_fits.
    destruct (nd_uncertainty self) as [u|]; [|done].
    destruct (nd_mask self) as [m|]; [|done].
    destruct (nd_wcs self) as [w|]; [|done].
    by destruct Hnone as [|[|]]. }
  split; [done|].
  intros c wr method axis img path files Himg. apply Hmissing. left.
  by destruct (collapse_to_image_uncertainty _ _ _ _ _ Himg).
Qed.

(** The mean image of the 2 x 2 x 2 cube cannot be exported. *)
Lemma export_fits_missing_attribute_witness :
  ∃ img, collapse_to_image (E := Reference.externals) cube222 None "mean" 0 = Ok img
    ∧ export_fits (C := ReferenceConversions.conversions) (im_base img) "out.fits" files0
      = ExportRaise AttributeError.
Proof.
  destruct (collapse_to_image (E := Reference.externals) cube222 None "mean" 0)
    as [img|e] eqn:Himg; [|by vm_compute in Himg].
  exists img. split; [done|].
  by apply (proj2 (export_fits_missing_attribute (E := Reference.externals)
                     (C := ReferenceConversions.conversions))
              cube222 None "mean" 0 img).
Defined.

(** [export_fits(path)] on a container with uncertainty, mask and mapping,
    when no file named [path] followed by ".fits" exists: that file is
    created with four segments in the order primary header, "data",
    "ivar" (the uncertainty array), "mask" (the mask as integers); every
    other file is as before, so the file named [path] itself is never
    written (the default path "out.fits" gives "out.fits.fits"); a second
    export to the same path is refused with [IOError]; and a boolean mask
    is recovered from the integers written. *)
Theorem export_fits_writes `{C : Conversions}
    (self : NDData) (path : string) (files : gmap string (list HDU))
    (u : NDUncertainty) (m : mask_t) (w : WCS) :
  nd_uncertainty self = Some u → nd_mask self = Some m → nd_wcs self = Some w →
  files !! (path +:+ ".fits") = None →
  ∃ files', export_fits self path files = Written files'
    ∧ files' !! (path +:+ ".fits")
      = Some [PrimaryHDU (wcs_to_header w); ImageHDU "data" (nd_data self);
              ImageHDU "ivar" (unc_array u); IntImageHDU "mask" (mask_astype_int m)]
    ∧ (∀ name, name ≠ path +:+ ".fits" → files' !! name = files !! name)
    ∧ files' !! path = files !! path
    ∧ export_fits self path files' = ExportIOError
    ∧ ∀ b, m = MaskBool b →
        (λ z, negb (z =? 0)) <$> items (mask_astype_int m) = items b.
Proof.
  intros Hu Hm Hw Hfree. unfold export_fits. rewrite Hu, Hm, Hw, Hfree.
  eexists. split; [done|].
  assert (path ≠ path +:+ ".fits") as Hne.
  { intros Heq. apply (f_equal String.length) in Heq.
    rewrite string_length_app in Heq. cbn in Heq. lia. }
  split; [by rewrite lookup_insert_eq|].
  split; [by intros name Hname; rewrite lookup_insert_ne|].
  split; [by rewrite lookup_insert_ne|].
  split; [by rewrite lookup_insert_eq|].
  intros b ->. cbn. rewrite <- list_fmap_compose.
  rewrite <- (list_fmap_id (items b)) at 2. apply list_fmap_ext.
  by intros _ [] _.
Qed.

(** The 2 x 2 x 2 cube exported with the default path. *)
Lemma export_fits_writes_witness :
  ∃ files', export_fits (C := ReferenceConversions.conversions)
              (cube_base cube222) "out.fits" files0 = Written files'
    ∧ is_Some (files' !! "out.fits.fits")
    ∧ files' !! "out.fits" = None
    ∧ export_fits (C := ReferenceConversions.conversions)
        (cube_base cube222) "out.fits" files' = ExportIOError.
Proof.
  destruct (export_fits_writes (C := ReferenceConversions.conversions)
              (cube_base cube222) "out.fits" files0
              (MkUncertainty "StdDevUncertainty"
                 (NDArray [2; 2; 2]%nat
                    [0.5; 0.25; 0.125; 1.5; 2.5; 3.5; 4.5; 5.5]%float))
              (MaskBool (NDArray [2; 2; 2]%nat
                           [false; true; false; false; false; false; true; false]))
              wcs_linear)
    as (files' & Hw & Hnew & _ & Hpath & Hagain & _); [reflexivity..| |].
  - by vm_compute.
  - exists files'. split; [done|]. split; [by eexists|]. split; [|done].
    rewrite Hpath. by vm_compute.
Defined.

(** ** [ImageData]: the axes exist only under a mapping *)

(** For every image that came out of the constructor: without coordinate
    mapping, [get_dispersion] and [get_cross_dispersion] raise
    [AttributeError] whatever the unit asked for; with a mapping and no
    unit asked for they return the two axes derived by the constructor.
    So the image that [collapse_to_image] makes from a cube without
    mapping has no axes to read. *)
Theorem ImageData_axes_need_wcs `{E : Externals} `{C : Conversions} :
  (∀ (kw : NDData) (img : ImageData),
     ImageData___init__ kw = Ok img →
     (nd_wcs kw = None →
      ∀ cu, ImageData_get_dispersion img cu = Raise AttributeError
            ∧ ImageData_get_cross_dispersion img cu = Raise AttributeError)
     ∧ (∀ w, nd_wcs kw = Some w →
        ∃ d c, image_axes (shape (nd_data kw)) w = Ok (d, c)
          ∧ ImageData_get_dispersion img None = Ok d
          ∧ ImageData_get_cross_dispersion img None = Ok c))
  ∧ ∀ (c : CubeData) (wr : option (Z * Z)) (method : string) (axis : Z)
      (img : ImageData) (cu : option Unit),
      nd_wcs (cube_base c) = None →
      collapse_to_image c wr method axis = Ok img →
      ImageData_get_dispersion img cu = Raise AttributeError
      ∧ ImageData_get_cross_dispersion img cu = Raise AttributeError.
Proof.
  assert (∀ (kw : NDData) (img : ImageData),
            ImageData___init__ kw = Ok img → nd_wcs kw = None →
            ∀ cu, ImageData_get_dispersion img cu = Raise AttributeError
                  ∧ ImageData_get_cross_dispersion img cu = Raise AttributeError)
    as Hnone.
  { intros kw img Himg Hw cu. unfold ImageData___init__ in Himg.
    rewrite Hw in Himg. by injection Himg as <-. }
  split.
  - intros kw img Himg. split; [by apply Hnone|].
    intros w Hw. unfold ImageData___init__ in Himg. rewrite Hw in Himg.
    destruct (image_axes _ w) as [[d c]|e]; [|done]. injection Himg as <-.
    by exists d, c.
  - intros c wr method axis img cu Hw Himg. unfold collapse_to_image in Himg.
    apply bind_Ok in Himg as (md & _ & Himg).
    apply bind_Ok in Himg as ([nd|] & _ & Himg); [|done].
    by apply (Hnone _ _ Himg).
Qed.

(** The mean image of the cube without mapping. *)
Lemma ImageData_axes_need_wcs_witness :
  ∃ img, collapse_to_image (E := Reference.externals) cube222_nowcs None "mean" 0 = Ok img
    ∧ ImageData_get_dispersion (C := ReferenceConversions.conversions) img None
      = Raise AttributeError.
Proof.
  destruct (collapse_to_image (E := Reference.externals) cube222_nowcs None "mean" 0)
    as [img|e] eqn:Himg; [|by vm_compute in Himg].
  exists img. split; [done|].
  by apply (proj2 (ImageData_axes_need_wcs (E := Reference.externals)
                     (C := ReferenceConversions.conversions))
              cube222_nowcs None "mean" 0 img None).
Defined.

(** ** The length of an extracted spectrum *)

(** Every spectrum that [get_spectrum] returns from a cube of shape
    (n, h, w) has shape (n,), length n and a dispersion of n samples,
    whatever the pixel; the cube's length is h * w times that. *)
Theorem get_spectrum_length `{E : Externals}
    (c : CubeData) (n h w : nat) (x y : Z) (s : SpectrumData) :
  shape (nd_data (cube_base c)) = [n; h; w] →
  get_spectrum c x y = Ok s →
  BaseData_shape (sp_base s) = [n]
  ∧ BaseData___len__ (sp_base s) = n
  ∧ length (items (q_value (sp_dispersion s))) = n
  ∧ BaseData___len__ (cube_base c) = (BaseData___len__ (sp_base s) * (h * w))%nat.
Proof.
  intros Hs Hget. unfold get_spectrum in Hget.
  apply bind_Ok in Hget as (nd & Hnd & Hget).
  apply bind_Ok in Hget as (nu & _ & Hget).
  apply bind_Ok in Hget as (nm & _ & Hget).
  assert (shape nd = [n]) as Hnds.
  { unfold getitem_colon_i_j in Hnd. rewrite Hs in Hnd.
    apply bind_Ok in Hnd as (i' & _ & Hnd). apply bind_Ok in Hnd as (j' & _ & Hnd).
    by injection Hnd as <-. }
  pose proof (SpectrumData_init_dispersion_length _ _ n Hget) as Hlen.
  rewrite (SpectrumData_init_base _ _ Hget).
  unfold BaseData_shape, BaseData___len__. cbn [nd_data]. rewrite Hnds, Hs.
  split; [done|]. split; [cbn; lia|]. split; [apply Hlen; cbn; by rewrite Hnds|].
  cbn. lia.
Qed.

(** The spectrum at pixel (1, 0) of the 2 x 2 x 2 cube. *)
Lemma get_spectrum_length_witness :
  ∃ s, get_spectrum (E := Reference.externals) cube222 1 0 = Ok s
    ∧ BaseData___len__ (sp_base s) = 2%nat
    ∧ length (items (q_value (sp_dispersion s))) = 2%nat.
Proof.
  destruct (get_spectrum (E := Reference.externals) cube222 1 0) as [s|e] eqn:Hs;
    [|by vm_compute in Hs].
  destruct (get_spectrum_length (E := Reference.externals) cube222 2 2 2 1 0 s)
    as (_ & Hl & Hd & _); [reflexivity|done|].
  by exists s.
Defined.

(** ** Python strings: [rpartition], [split], [join] *)

Lemma app_nil_s (s : string) : "" +:+ s = s.
Proof. reflexivity. Qed.

Lemma app_cons_s (a : ascii) (s t : string) : String a s +:+ t = String a (s +:+ t).
Proof. reflexivity. Qed.

Lemma occurs_app (c : ascii) (s t : string) :
  occurs c (s +:+ t) = occurs c s || occurs c t.
Proof.
  induction s as [|a s IH]; [done|].
  rewrite app_cons_s. cbn [occurs]. rewrite IH. by rewrite orb_assoc.
Qed.

Lemma rpartition_None (c : ascii) (s : string) :
  occurs c s = false → rpartition c s = None.
Proof.
  induction s as [|a s IH]; [done|]. cbn [occurs rpartition].
  intros [Ha Hs]%orb_false_iff. by rewrite (IH Hs), Ha.
Qed.

Lemma rpartition_Some_occurs (c : ascii) (s : string) :
  occurs c s = true → is_Some (rpartition c s).
Proof.
  induction s as [|a s IH]; [done|]. cbn [occurs rpartition].
  destruct (rpartition c s) as [[h t]|] eqn:Hr; [by eauto|].
  destruct (Ascii.eqb a c); [by eauto|]. cbn. intros H. by destruct (IH H).
Qed.

Lemma rpartition_app (c : ascii) (t u : string) :
  occurs c u = false → rpartition c (t +:+ String c u) = Some (t, u).
Proof.
  intros Hu. induction t as [|a t IH].
  - rewrite app_nil_s. cbn [rpartition]. rewrite (rpartition_None _ _ Hu).
    by rewrite Ascii.eqb_refl.
  - rewrite app_cons_s. cbn [rpartition]. by rewrite IH.
Qed.

Lemma rpartition_Some (c : ascii) (s h t : string) :
  rpartition c s = Some (h, t) → s = h +:+ String c t ∧ occurs c t = false.
Proof.
  revert h t. induction s as [|a s IH]; [done|]. intros h t. cbn [rpartition].
  destruct (rpartition c s) as [[h' t']|] eqn:Hr.
  - intros [= <- <-]. destruct (IH _ _ eq_refl) as [-> Ht]. by rewrite app_cons_s.
  - destruct (Ascii.eqb a c) eqn:Ha; [|done]. intros [= <- <-].
    apply Ascii.eqb_eq in Ha as ->. split; [done|].
    destruct (occurs c s) eqn:Ho; [|done].
    destruct (rpartition_Some_occurs _ _ Ho) as [? ?]; congruence.
Qed.

Lemma pretty_N_char_digit (m : N) : is_Some (Ascii.is_nat (pretty_N_char m)).
Proof. unfold pretty_N_char. repeat case_match; by eexists. Qed.

Lemma pretty_N_go_occurs (c : ascii) :
  Ascii.is_nat c = None →
  ∀ x s, occurs c s = false → occurs c (pretty_N_go x s) = false.
Proof.
  intros Hc x. induction (N.lt_wf_0 x) as [x _ IH]. intros s Hs.
  destruct (decide (0 < x)%N) as [Hx|Hx].
  - rewrite pretty_N_go_step by done. apply IH; [by apply N.div_lt|].
    cbn [occurs]. rewrite Hs, orb_false_r. apply Ascii.eqb_neq. intros Heq.
    destruct (pretty_N_char_digit (x `mod` 10)) as [? Hd]. congruence.
  - assert (x = 0%N) as -> by lia. by rewrite pretty_N_go_0.
Qed.

Lemma pretty_N_go_suffix (x : N) (s : string) : ∃ p, pretty_N_go x s = p +:+ s.
Proof.
  revert s. induction (N.lt_wf_0 x) as [x _ IH]. intros s.
  destruct (decide (0 < x)%N) as [Hx|Hx].
  - rewrite pretty_N_go_step by done.
    assert (Hlt : (x `div` 10 < x)%N) by (by apply N.div_lt).
    destruct (IH (x `div` 10)%N Hlt
                (String (pretty_N_char (x `mod` 10)) s)) as [p ->].
    exists (p +:+ String (pretty_N_char (x `mod` 10)) "").
    clear. induction p as [|a p IHp]; [done|].
    rewrite !app_cons_s. by rewrite IHp.
  - assert (x = 0%N) as -> by lia. exists "". by rewrite pretty_N_go_0.
Qed.

Lemma pretty_nat_occurs (c : ascii) (n : nat) :
  Ascii.is_nat c = None → occurs c (pretty n) = false.
Proof.
  intros Hc. unfold pretty, pretty_nat, pretty, pretty_N.
  destruct (decide _).
  - cbn [occurs]. rewrite orb_false_r. apply Ascii.eqb_neq. intros <-. done.
  - by apply pretty_N_go_occurs.
Qed.

Lemma pretty_nat_nonempty (n : nat) : pretty n ≠ "".
Proof.
  unfold pretty, pretty_nat, pretty, pretty_N.
  destruct (decide _) as [|Hn]; [done|].
  rewrite pretty_N_go_step by lia.
  destruct (pretty_N_go_suffix (N.of_nat n `div` 10)
              (String (pretty_N_char (N.of_nat n `mod` 10)) "")) as [p ->].
  by destruct p.
Qed.

Lemma occurs_join (c : ascii) (sep : string) (parts : list string) :
  occurs c sep = false → Forall (λ p, occurs c p = false) parts →
  occurs c (join sep parts) = false.
Proof.
  intros Hsep. induction 1 as [|p parts Hp Hparts IH]; [done|].
  cbn [join]. destruct parts as [|q parts]; [done|].
  rewrite !occurs_app, Hp, Hsep. exact IH.
Qed.

Lemma split_no_sep (c : ascii) (s : string) :
  occurs c s = false → split c s = [s].
Proof.
  induction s as [|a s IH]; [done|]. cbn [occurs split].
  intros [Ha Hs]%orb_false_iff. by rewrite Ha, (IH Hs).
Qed.

Lemma split_app (c : ascii) (s t : string) :
  occurs c s = false → split c (s +:+ String c t) = s :: split c t.
Proof.
  induction s as [|a s IH].
  - intros _. rewrite app_nil_s. cbn [split]. by rewrite Ascii.eqb_refl.
  - cbn [occurs]. intros [Ha Hs]%orb_false_iff.
    rewrite app_cons_s. cbn [split]. by rewrite Ha, (IH Hs).
Qed.

Lemma split_join (c : ascii) (parts : list string) :
  parts ≠ [] → Forall (λ p, occurs c p = false) parts →
  split c (join (String c "") parts) = parts.
Proof.
  intros Hne Hall. induction Hall as [|p parts Hp Hparts IH]; [done|].
  cbn [join]. destruct parts as [|q parts]; [by apply split_no_sep|].
  change (p +:+ String c "" +:+ join (String c "") (q :: parts))
    with (p +:+ String c ("" +:+ join (String c "") (q :: parts))).
  rewrite app_nil_s, split_app by done. by rewrite IH.
Qed.

Lemma shape_text_inj (s1 s2 : list nat) : shape_text s1 = shape_text s2 → s1 = s2.
Proof.
  unfold shape_text. intros Heq.
  assert (Hno : ∀ s : list nat, Forall (λ p, occurs "x" p = false) (pretty <$> s)).
  { intros s. apply Forall_fmap, Forall_forall. intros n _. by apply pretty_nat_occurs. }
  assert (Hnil : ∀ n (s : list nat), join "x" (pretty <$> n :: s) ≠ "").
  { intros n s. cbn [fmap list_fmap join]. pose proof (pretty_nat_nonempty n) as Hn.
    destruct (pretty n) as [|a p]; [done|].
    destruct s as [|m s]; [done|]. by rewrite app_cons_s. }
  destruct s1 as [|n1 s1], s2 as [|n2 s2]; [done| | |].
  - by destruct (Hnil n2 s2).
  - by destruct (Hnil n1 s1).
  - apply (inj (fmap pretty)).
    rewrite <- (split_join "x" (pretty <$> n1 :: s1)) by done.
    rewrite <- (split_join "x" (pretty <$> n2 :: s2)) by done.
    by f_equal.
Qed.

Lemma shape_text_occurs (c : ascii) (s : list nat) :
  Ascii.is_nat c = None → c ≠ "x"%char → occurs c (shape_text s) = false.
Proof.
  intros Hc Hx. apply occurs_join.
  - cbn [occurs]. rewrite orb_false_r. by apply Ascii.eqb_neq.
  - apply Forall_fmap, Forall_forall. intros n _. by apply pretty_nat_occurs.
Qed.

Lemma app_bracket_inj (s1 s2 : string) : s1 +:+ "]" = s2 +:+ "]" → s1 = s2.
Proof.
  revert s2. induction s1 as [|a s1 IH]; intros [|b s2]; [done| | |].
  - rewrite app_nil_s, app_cons_s. intros [= <- H]. by destruct s2.
  - rewrite app_nil_s, app_cons_s. intros [= -> H]. by destruct s1.
  - rewrite !app_cons_s. intros [= -> H]. by rewrite (IH _ H).
Qed.

Lemma bracketed_shape_text_inj (t1 t2 : string) (s1 s2 : list nat) :
  bracketed t1 (shape_text s1) = bracketed t2 (shape_text s2) →
  t1 = t2 ∧ s1 = s2.
Proof.
  unfold bracketed. intros Heq.
  assert (Hr : ∀ t s, rpartition "[" (t +:+ "[" +:+ shape_text s +:+ "]")
                      = Some (t, shape_text s +:+ "]")).
  { intros t s.
    change (t +:+ "[" +:+ shape_text s +:+ "]")
      with (t +:+ String "[" ("" +:+ shape_text s +:+ "]")).
    rewrite app_nil_s. apply rpartition_app.
    rewrite occurs_app, shape_text_occurs by done. done. }
  pose proof (Hr t1 s1) as H1. rewrite Heq, Hr in H1.
  injection H1 as -> H1. split; [done|].
  by apply shape_text_inj, app_bracket_inj.
Qed.

Lemma split_nonempty (c : ascii) (s : string) : split c s ≠ [].
Proof.
  induction s as [|a s IH]; [done|]. cbn [split].
  destruct (Ascii.eqb a c); [done|]. by destruct (split c s).
Qed.

Lemma split_app_last (c : ascii) (d t : string) :
  occurs c t = false →
  split c (d +:+ String c t) = (split c d ++ [t])%list.
Proof.
  intros Ht. induction d as [|a d IH].
  - rewrite app_nil_s. cbn [split]. by rewrite Ascii.eqb_refl, split_no_sep.
  - rewrite app_cons_s. cbn [split]. destruct (Ascii.eqb a c); [by rewrite IH|].
    rewrite IH. destruct (split c d) as [|h r] eqn:Hs; [by destruct (split_nonempty c d)|].
    done.
Qed.

Lemma join_split (c : ascii) (s : string) : join (String c "") (split c s) = s.
Proof.
  induction s as [|a s IH]; [done|]. cbn [split].
  destruct (Ascii.eqb a c) eqn:Ha.
  - apply Ascii.eqb_eq in Ha as ->. cbn [join].
    destruct (split c s) as [|h r] eqn:Hs; [by destruct (split_nonempty c s)|].
    rewrite IH. done.
  - destruct (split c s) as [|h r] eqn:Hs; [by destruct (split_nonempty c s)|].
    cbn [join] in *. destruct r as [|q r]; [by rewrite IH|].
    rewrite app_cons_s. by rewrite IH.
Qed.

Lemma removelast_snoc {A} (l : list A) (x : A) : removelast (l ++ [x]) = l.
Proof. by rewrite removelast_app, app_nil_r. Qed.

(** ** The label prefix of the generic loader *)






(** The label prefix is always a prefix of the file's base name; it is
    empty only when the base name is (a path ending in a slash); a base
    name without a dot is the prefix as a whole. *)
Theorem label_base_fallback (f : string) :
  (∃ rest, basename f = label_base f +:+ rest) ∧
  (label_base f = "" → basename f = "") ∧
  (occurs "." (basename f) = false → label_base f = basename f).
Proof.
  unfold label_base, rpartition_head.
  destruct (rpartition "." (basename f)) as [[h t]|] eqn:Hr.
  - apply rpartition_Some in Hr as [Hb Ht].
    destruct (decide (h = "")) as [->|Hh].
    + split; [exists ""|split; [done|done]].
      clear. induction (basename f) as [|a s IH]; [done|].
      by rewrite app_cons_s, <- IH.
    + split; [by eexists|]. split; [done|].
      rewrite Hb, occurs_app. cbn [occurs]. rewrite Ascii.eqb_refl.
      by rewrite orb_true_r.
  - rewrite decide_True by done. split; [exists ""|done].
    clear. induction (basename f) as [|a s IH]; [done|].
    by rewrite app_cons_s, <- IH.
Qed.

(** ** The directory of a MOS catalogue *)

(** The path that [load_mos_data] records: for an argument that, stripped
    of surrounding white space, is [dir/file], the directory [dir]
    without the final slash (empty for a file in the root directory); for
    a bare file name, the empty string. *)
Theorem mos_path_is_directory (arg0 dir file : string) :
  occurs "/" file = false →
  (strip arg0 = dir +:+ "/" +:+ file → mos_path arg0 = dir) ∧
  (strip arg0 = file → mos_path arg0 = "").
Proof.
  intros Hf. unfold mos_path. split; intros Hs; rewrite Hs.
  - change (dir +:+ "/" +:+ file) with (dir +:+ String "/" ("" +:+ file)).
    rewrite app_nil_s, split_app_last by done.
    rewrite removelast_snoc. apply join_split.
  - by rewrite split_no_sep.
Qed.

(** A catalogue two directories down, given with surrounding blanks, one
    in the root directory and one given by its bare name. *)
Lemma mos_path_is_directory_witness :
  mos_path "  data/mos/cat.txt " = "data/mos" ∧ mos_path "/cat.txt" = "" ∧
  mos_path "cat.txt" = "".
Proof.
  split; [|split].
  - exact (proj1 (mos_path_is_directory "  data/mos/cat.txt " "data/mos" "cat.txt"
                    eq_refl) eq_refl).
  - exact (proj1 (mos_path_is_directory "/cat.txt" "" "cat.txt" eq_refl) eq_refl).
  - exact (proj2 (mos_path_is_directory "cat.txt" "" "cat.txt" eq_refl) eq_refl).
Defined.

(** ** The generic FITS loader as a sequence of additions *)

Section AddAllProperties.
Variable add_component : Data → Component → string → result Data.

Lemma add_all_app g es1 es2 :
  add_all add_component g (es1 ++ es2)%list
  = (g1 ← add_all add_component g es1; add_all add_component g1 es2).
Proof.
  revert g. induction es1 as [|e es1 IH]; intros g; [done|].
  cbn [add_all app]. destruct (add_one add_component g e) as [g1|x]; [|done].
  rsimpl. apply IH.
Qed.

Lemma load_columns_add_all t g cols :
  load_columns add_component t g cols
  = add_all add_component g ((λ column,
           let data_label := bracketed t (shape_text (col_shape column)) in
           (inr data_label, new_Data data_label,
            ColumnComponent column (col_unit column), col_name column) : addition) <$> cols).
Proof.
  revert g. induction cols as [|c cols IH]; intros g; [done|].
  cbn [load_columns fmap list_fmap add_all].
  unfold load_column, add_one at 1. cbn [fst snd].
  destruct (add_component _ _ _) as [d|x]; [|done]. rsimpl. apply IH.
Qed.

Lemma load_hdu_add_all base excl g n hdu :
  load_hdu add_component base excl g n hdu
  = add_all add_component g (additions_of_hdu base excl n hdu).
Proof.
  unfold load_hdu, additions_of_hdu.
  destruct (has_data hdu && not_excluded excl (hdu_label n hdu) n); [|done].
  destruct hdu as [p nm h [a|]|b nm h [cols|]|nm b]; try done.
  - cbn [add_all]. unfold add_one. cbn [fst snd].
    by destruct (add_component _ _ _).
  - by apply load_columns_add_all.
Qed.

Lemma load_hdus_add_all base excl g n hdus :
  load_hdus add_component base excl g n hdus
  = add_all add_component g (additions base excl n hdus).
Proof.
  revert g n. induction hdus as [|hdu hdus IH]; intros g n; [done|].
  cbn [load_hdus additions]. rewrite add_all_app, load_hdu_add_all.
  destruct (add_all add_component g _) as [g1|x]; [|done]. rsimpl. apply IH.
Qed.

End AddAllProperties.

Lemma additions_elem base excl n hdus (e : addition) :
  e ∈ additions base excl n hdus ↔
  ∃ i hdu, hdus !! i = Some hdu ∧ e ∈ additions_of_hdu base excl (n + i) hdu.
Proof.
  revert n. induction hdus as [|hdu hdus IH]; intros n; cbn [additions].
  - split; [by intros ?%elem_of_nil|]. by intros (i & hdu' & ? & _).
  - rewrite elem_of_app, IH. split.
    + intros [He|(i & hdu' & Hi & He)].
      * exists 0%nat, hdu. by rewrite Nat.add_0_r.
      * exists (S i), hdu'. by rewrite Nat.add_succ_r.
    + intros ([|i] & hdu' & Hi & He).
      * left. injection Hi as <-. by rewrite Nat.add_0_r in He.
      * right. exists i, hdu'. by rewrite Nat.add_succ_r in He.
Qed.

Lemma additions_of_hdu_elem base excl i hdu (e : addition) :
  e ∈ additions_of_hdu base excl i hdu ↔
  has_data hdu = true ∧ not_excluded excl (hdu_label i hdu) i = true ∧
  component_of_hdu i hdu e.2 e.1.2 ∧
  e.1.1.1 = (if is_image_hdu hdu then inl (component_shape e.1.2)
             else inr (group_label base i hdu (component_shape e.1.2))) ∧
  d_label e.1.1.2 = group_label base i hdu (component_shape e.1.2) ∧
  d_components e.1.1.2 = [] ∧
  d_coords e.1.1.2 = match hdu with
                     | ImageLike _ _ h _ => CoordinatesFromHeader h
                     | _ => DefaultCoordinates
                     end.
Proof.
  unfold additions_of_hdu.
  destruct (has_data hdu) eqn:Hd; cbn [andb];
    [|split; [by intros ?%elem_of_nil|by intros [? _]]].
  destruct (not_excluded excl (hdu_label i hdu) i) eqn:Hx;
    [|split; [by intros ?%elem_of_nil|by intros (_ & ? & _)]].
  destruct hdu as [p nm h [a|]|b nm h [cols|]|nm b]; try done;
    try (split; [by intros ?%elem_of_nil|by intros (_ & _ & ? & _)]).
  - rewrite list_elem_of_singleton. split.
    + by intros ->.
    + intros (_ & _ & [Hl Hc] & Hk & Hlab & Hcs & Hco).
      destruct e as [[[k [dl dc ds]] c] l]. cbn in *. by subst.
  - rewrite list_elem_of_fmap. split.
    + intros (col & -> & Hcol). cbn. repeat split; try done. by exists col.
    + intros (_ & _ & (col & Hcol & Hl & Hc) & Hk & Hlab & Hcs & Hco).
      exists col. split; [|done].
      destruct e as [[[k [dl dc ds]] c] l]. cbn in *. by subst.
Qed.

Lemma additions_label base excl n hdus (e : addition) :
  e ∈ additions base excl n hdus → d_label e.1.1.2 = key_label base e.1.1.1.
Proof.
  intros (i & hdu & _ & He)%additions_elem.
  apply additions_of_hdu_elem in He as (_ & _ & _ & Hk & Hl & _).
  rewrite Hk, Hl. unfold group_label. by destruct (is_image_hdu hdu).
Qed.

Lemma bracketed_length (a b : string) :
  String.length (bracketed a b) = (String.length a + String.length b + 2)%nat.
Proof.
  unfold bracketed. rewrite !string_length_app. cbn [String.length]. lia.
Qed.

Lemma key_label_inj base excl n hdus (e1 e2 : addition) :
  e1 ∈ additions base excl n hdus → e2 ∈ additions base excl n hdus →
  key_label base e1.1.1.1 = key_label base e2.1.1.1 → e1.1.1.1 = e2.1.1.1.
Proof.
  intros (i1 & h1 & _ & H1)%additions_elem (i2 & h2 & _ & H2)%additions_elem.
  apply additions_of_hdu_elem in H1 as (_ & _ & _ & Hk1 & _).
  apply additions_of_hdu_elem in H2 as (_ & _ & _ & Hk2 & _).
  rewrite Hk1, Hk2. unfold group_label.
  destruct (is_image_hdu h1), (is_image_hdu h2); cbn [key_label].
  - by intros [_ ->]%bracketed_shape_text_inj.
  - intros [Hb _]%bracketed_shape_text_inj.
    apply (f_equal String.length) in Hb. rewrite bracketed_length in Hb. lia.
  - intros [Hb _]%bracketed_shape_text_inj.
    apply (f_equal String.length) in Hb. rewrite bracketed_length in Hb. lia.
  - by intros ->.
Qed.

Lemma group_of_Some (adds : list addition) (d : Data) :
  group_of adds = Some d →
  ∃ e, head adds = Some e ∧ d_label d = d_label e.1.1.2 ∧
       d_coords d = d_coords e.1.1.2 ∧
       d_components d = (λ e : addition, (e.2, e.1.2)) <$> adds.
Proof.
  destruct adds as [|[[[k init] c] l] adds]; [done|].
  intros [= <-]. by eexists.
Qed.

Lemma key_fits_shape_agree (e1 e2 : addition) :
  key_fits_shape e1 → key_fits_shape e2 → e1.1.1.1 = e2.1.1.1 →
  component_shape e1.1.2 = component_shape e2.1.2.
Proof.
  unfold key_fits_shape. intros H1 H2 Hk. rewrite <- Hk in H2.
  destruct (e1.1.1.1) as [shp|l]; [congruence|].
  destruct H1 as [t1 ->], H2 as [t2 H2].
  by apply bracketed_shape_text_inj in H2 as [_ ?].
Qed.

Lemma additions_of_hdu_fresh base excl n hdu :
  Forall (λ e : addition, d_components e.1.1.2 = [] ∧ key_fits_shape e)
    (additions_of_hdu base excl n hdu).
Proof.
  unfold additions_of_hdu.
  destruct (has_data hdu && not_excluded excl (hdu_label n hdu) n); [|done].
  destruct hdu as [p nm h [a|]|b nm h [cols|]|nm b]; try done.
  - by repeat constructor.
  - apply Forall_fmap, Forall_forall. intros c _. split; [done|].
    unfold key_fits_shape. cbn. by eexists.
Qed.

Lemma additions_fresh base excl n hdus :
  Forall (λ e : addition, d_components e.1.1.2 = [] ∧ key_fits_shape e)
    (additions base excl n hdus).
Proof.
  revert n. induction hdus as [|hdu hdus IH]; intros n; [done|].
  cbn [additions]. apply Forall_app. split; [apply additions_of_hdu_fresh|apply IH].
Qed.

Lemma additions_key_fits base excl n hdus (e : addition) :
  e ∈ additions base excl n hdus → key_fits_shape e.
Proof.
  intros He. pose proof (additions_fresh base excl n hdus) as Hall.
  rewrite Forall_forall in Hall. by destruct (Hall _ He).
Qed.

(** The reference [add_component] meets the contract. *)
Lemma reference_add_component_contract :
  add_component_contract ReferenceGlue.add_component.
Proof.
  split; unfold ReferenceGlue.add_component.
  - intros d c l d'. destruct (d_components d) as [|[l0 c0] cs].
    + by intros [= <-].
    + destruct (decide _); [|done]. by intros [= <-].
  - intros d c l d'. destruct (d_components d) as [|[l0 c0] cs] eqn:Hcs.
    + by intros [= <-].
    + destruct (decide _); [|done]. by intros [= <-].
  - intros d c l Hall. destruct (d_components d) as [|[l0 c0] cs]; [by eexists|].
    apply Forall_cons in Hall as [Hc0 _]. cbn [snd] in Hc0.
    rewrite decide_True by done. by eexists.
Qed.

Section LoaderProperties.
Variable add_component : Data → Component → string → result Data.
Hypothesis Hc : add_component_contract add_component.
Variable fits_open : string → result HDUList.

Lemma add_all_lookup es :
  Forall (λ e : addition, d_components e.1.1.2 = []) es →
  ∀ g g', add_all add_component g es = Ok g' →
  ∀ k, g' !! k = grow (g !! k) (additions_at k es).
Proof.
  induction 1 as [|e es He Hes IH]; intros g g' Hrun k.
  - injection Hrun as <-. unfold additions_at. cbn.
    destruct (g !! k) as [[l c cs]|]; [|done]. cbn. by rewrite app_nil_r.
  - cbn [add_all] in Hrun. unfold add_one in Hrun.
    destruct (add_component _ _ _) as [d|x] eqn:Hadd; [|done].
    cbn [mbind result_bind] in Hrun. rewrite (IH _ _ Hrun k).
    destruct (add_keeps _ Hc _ _ _ _ Hadd) as [Hl Hco].
    pose proof (add_records _ Hc _ _ _ _ Hadd) as Hcs.
    unfold additions_at. rewrite filter_cons.
    destruct (decide (e.1.1.1 = k)) as [Heq|Hne]; [subst k|].
    + rewrite lookup_insert_eq. cbn [grow].
      destruct (g !! e.1.1.1) as [d0|] eqn:Hg; cbn [default] in *.
      * cbn [grow fmap list_fmap]. rewrite Hl, Hco, Hcs.
        by rewrite <- app_assoc.
      * cbn [grow group_of]. destruct e as [[[k0 init] c] l]. cbn [fst snd] in *.
        rewrite Hl, Hco, Hcs, He. done.
    + by rewrite lookup_insert_ne.
Qed.

Lemma add_all_Ok es :
  Forall (λ e : addition, d_components e.1.1.2 = [] ∧ key_fits_shape e) es →
  ∀ g,
    (∀ k d p e, g !! k = Some d → p ∈ d_components d → e ∈ es → e.1.1.1 = k →
                component_shape p.2 = component_shape e.1.2) →
    is_Ok (add_all add_component g es).
Proof.
  induction 1 as [|e es [He Hk] Hes IH]; intros g Hg; [by eexists|].
  cbn [add_all]. unfold add_one.
  destruct (add_accepts _ Hc (default e.1.1.2 (g !! e.1.1.1)) e.1.2 e.2) as [d Hadd].
  { apply Forall_forall. intros p Hp.
    destruct (g !! e.1.1.1) as [d0|] eqn:Hlk; cbn [default] in Hp.
    - apply (Hg _ _ p e Hlk Hp); [left|done].
    - rewrite He in Hp. by apply elem_of_nil in Hp. }
  rewrite Hadd. cbn [mbind result_bind]. apply IH.
  intros k d' p e' Hlk Hp He' Hke'.
  pose proof (add_records _ Hc _ _ _ _ Hadd) as Hcs.
  destruct (decide (e.1.1.1 = k)) as [Heq|Hne].
  - subst k. rewrite <- Heq in Hlk. rewrite lookup_insert_eq in Hlk. injection Hlk as <-.
    rewrite Hcs in Hp. apply elem_of_app in Hp as [Hp|Hp].
    + destruct (g !! e.1.1.1) as [d0|] eqn:Hlk; cbn [default] in Hp.
      * apply (Hg _ _ p e' Hlk Hp); [by right|done].
      * rewrite He in Hp. by apply elem_of_nil in Hp.
    + apply list_elem_of_singleton in Hp as ->. cbn [snd].
      apply key_fits_shape_agree; [done| |done].
      rewrite Forall_forall in Hes. by apply Hes.
  - rewrite lookup_insert_ne in Hlk by done.
    apply (Hg _ _ p e' Hlk Hp); [by right|done].
Qed.

Lemma load_groups_lookup (f : string) (hdus : list FitsHDU)
    (exclude_exts : option (list (string + nat))) (groups : gmap group_key Data) :
  load_groups fits_open add_component (inr (MkHDUList (Some f) hdus)) exclude_exts
    = Ok groups →
  ∀ k, groups !! k
       = group_of (additions_at k
           (additions (label_base f) (default [] exclude_exts) 0 hdus)).
Proof.
  unfold load_groups. cbn [mbind result_bind hl_filename hl_hdus from_option].
  rewrite load_hdus_add_all. intros Hrun k.
  rewrite (add_all_lookup _ (Forall_impl _ _ _ (additions_fresh _ _ _ _)
             (λ _ H, proj1 H)) _ _ Hrun k).
  by rewrite lookup_empty.
Qed.

Lemma load_fits_generic_inv (f : string) (hdus : list FitsHDU)
    (exclude_exts : option (list (string + nat))) (ds : list Data) :
  _load_fits_generic fits_open add_component (inr (MkHDUList (Some f) hdus))
    exclude_exts = Ok ds →
  ∃ groups,
    load_groups fits_open add_component (inr (MkHDUList (Some f) hdus))
      exclude_exts = Ok groups ∧
    ds = (map_to_list groups).*2.
Proof.
  unfold _load_fits_generic.
  destruct (load_groups _ _ _ _) as [g|x]; [|done].
  intros [= <-]. by exists g.
Qed.

(** Under the contract of [add_component], the generic loader never has
    a component refused: for every list of HDUs of a named file and every
    exclusion list it returns.  A group is keyed by the shape of its
    arrays or by a label that spells the shape of its columns, so every
    component added to a [Data] object has the shape of those it holds. *)
Theorem load_fits_generic_never_refused (f : string) (hdus : list FitsHDU)
    (exclude_exts : option (list (string + nat))) :
  is_Ok (_load_fits_generic fits_open add_component
           (inr (MkHDUList (Some f) hdus)) exclude_exts).
Proof.
  unfold _load_fits_generic, load_groups.
  cbn [mbind result_bind hl_filename hl_hdus from_option].
  rewrite load_hdus_add_all.
  destruct (add_all_Ok _ (additions_fresh (label_base f) (default [] exclude_exts) 0 hdus) ∅)
    as [g ->]; [|by eexists].
  intros k d p e Hlk. by rewrite lookup_empty in Hlk.
Qed.

(** The [Data] objects returned are, key by key, the one made for the
    first addition under the key (its label, its coordinates), holding
    the components of all additions under that key in file order. *)
Theorem load_fits_generic_groups (f : string) (hdus : list FitsHDU)
    (exclude_exts : option (list (string + nat))) (ds : list Data) :
  _load_fits_generic fits_open add_component (inr (MkHDUList (Some f) hdus))
    exclude_exts = Ok ds →
  ∀ d, d ∈ ds ↔
       ∃ k, group_of (additions_at k
              (additions (label_base f) (default [] exclude_exts) 0 hdus)) = Some d.
Proof.
  intros (groups & Hg & ->)%load_fits_generic_inv d.
  rewrite list_elem_of_fmap. split.
  - intros ([k d'] & -> & Hin). apply elem_of_map_to_list in Hin.
    exists k. by rewrite <- (load_groups_lookup _ _ _ _ Hg).
  - intros (k & Hk). rewrite <- (load_groups_lookup _ _ _ _ Hg) in Hk.
    exists (k, d). split; [done|]. by apply elem_of_map_to_list.
Qed.

(** Every component of every [Data] object returned comes from an HDU
    of the file that has data and is excluded neither by name nor by
    index; the label of the object spells the shape of the component. *)
Theorem load_fits_generic_sound (f : string) (hdus : list FitsHDU)
    (exclude_exts : option (list (string + nat))) (ds : list Data)
    (d : Data) (l : string) (c : Component) :
  _load_fits_generic fits_open add_component (inr (MkHDUList (Some f) hdus))
    exclude_exts = Ok ds →
  d ∈ ds → (l, c) ∈ d_components d →
  ∃ i hdu, hdus !! i = Some hdu ∧ has_data hdu = true ∧
           not_excluded (default [] exclude_exts) (hdu_label i hdu) i = true ∧
           component_of_hdu i hdu l c ∧
           d_label d = group_label (label_base f) i hdu (component_shape c).
Proof.
  intros (groups & Hg & ->)%load_fits_generic_inv Hd Hlc.
  apply list_elem_of_fmap in Hd as ([k d'] & -> & Hin).
  apply elem_of_map_to_list in Hin. cbn [snd] in Hlc.
  rewrite (load_groups_lookup _ _ _ _ Hg) in Hin.
  apply group_of_Some in Hin as (e0 & He0 & Hl0 & _ & Hcs).
  rewrite Hcs in Hlc. apply list_elem_of_fmap in Hlc as (e & [= -> ->] & He).
  apply head_Some_elem_of in He0.
  apply list_elem_of_filter in He as [Hke He], He0 as [Hke0 He0].
  pose proof (additions_label _ _ _ _ _ He0) as Hlab0.
  pose proof (additions_label _ _ _ _ _ He) as Hlab.
  apply additions_elem in He as (i & hdu & Hi & He). cbn [Nat.add] in He.
  apply additions_of_hdu_elem in He as (Hd & Hx & Hfrom & _ & Hl & _).
  exists i, hdu. repeat split; try done.
  cbn [snd]. by rewrite Hl0, Hlab0, Hke0, <- Hke, <- Hlab.
Qed.

(** Every pixel array and every column of an HDU that has data and is
    not excluded ends up in one of the [Data] objects returned, whose
    label spells its shape and whose components all have that shape. *)
Theorem load_fits_generic_complete (f : string) (hdus : list FitsHDU)
    (exclude_exts : option (list (string + nat))) (ds : list Data)
    (i : nat) (hdu : FitsHDU) (l : string) (c : Component) :
  _load_fits_generic fits_open add_component (inr (MkHDUList (Some f) hdus))
    exclude_exts = Ok ds →
  hdus !! i = Some hdu → has_data hdu = true →
  not_excluded (default [] exclude_exts) (hdu_label i hdu) i = true →
  component_of_hdu i hdu l c →
  ∃ d, d ∈ ds ∧ (l, c) ∈ d_components d ∧
       d_label d = group_label (label_base f) i hdu (component_shape c) ∧
       Forall (λ p, component_shape p.2 = component_shape c) (d_components d).
Proof.
  intros (groups & Hg & ->)%load_fits_generic_inv Hi Hd Hx Hfrom.
  set (base := label_base f). set (excl := default [] exclude_exts).
  set (k := (if is_image_hdu hdu then inl (component_shape c)
             else inr (group_label base i hdu (component_shape c))) : group_key).
  set (init := MkData (group_label base i hdu (component_shape c))
                 (match hdu with
                  | ImageLike _ _ h _ => CoordinatesFromHeader h
                  | _ => DefaultCoordinates
                  end) []).
  assert (He : ((k, init, c, l) : addition) ∈ additions_at k (additions base excl 0 hdus)).
  { apply list_elem_of_filter. split; [done|].
    apply additions_elem. exists i, hdu. split; [done|].
    by apply additions_of_hdu_elem. }
  pose proof (load_groups_lookup _ _ _ _ Hg k) as Hk.
  fold base excl in Hk.
  destruct (group_of (additions_at k (additions base excl 0 hdus))) as [d|] eqn:Hgo.
  2:{ destruct (additions_at k (additions base excl 0 hdus)) as [|[[[??]?]?] ?];
        [by apply elem_of_nil in He|done]. }
  apply group_of_Some in Hgo as (e0 & He0 & Hl0 & _ & Hcs).
  apply head_Some_elem_of, list_elem_of_filter in He0 as [Hke0 He0].
  exists d. split; [|split; [|split]].
  - apply list_elem_of_fmap. exists (k, d). split; [done|].
    by apply elem_of_map_to_list.
  - rewrite Hcs. apply list_elem_of_fmap. by exists (k, init, c, l).
  - rewrite Hl0, (additions_label _ _ _ _ _ He0), Hke0. unfold k, group_label.
    by destruct (is_image_hdu hdu).
  - rewrite Hcs. apply Forall_fmap, Forall_forall. intros e [Hke He']%list_elem_of_filter.
    cbn [snd]. apply (key_fits_shape_agree e (k, init, c, l)); [| |done].
    + by apply additions_key_fits in He'.
    + apply list_elem_of_filter in He as [_ He]. by apply additions_key_fits in He.
Qed.

(** The [Data] objects returned have pairwise distinct labels. *)
Theorem load_fits_generic_labels_distinct (f : string) (hdus : list FitsHDU)
    (exclude_exts : option (list (string + nat))) (ds : list Data) :
  _load_fits_generic fits_open add_component (inr (MkHDUList (Some f) hdus))
    exclude_exts = Ok ds →
  NoDup (d_label <$> ds).
Proof.
  intros (groups & Hg & ->)%load_fits_generic_inv.
  rewrite <- list_fmap_compose.
  apply NoDup_fmap_2_strong; [|apply NoDup_map_to_list].
  intros [k1 d1] [k2 d2] H1%elem_of_map_to_list H2%elem_of_map_to_list Heq.
  cbn in Heq.
  assert (Hkey : ∀ k d, groups !! k = Some d →
            ∃ e, e ∈ additions (label_base f) (default [] exclude_exts) 0 hdus ∧
                 e.1.1.1 = k ∧ d_label d = key_label (label_base f) k).
  { intros k d Hk. rewrite (load_groups_lookup _ _ _ _ Hg) in Hk.
    apply group_of_Some in Hk as (e0 & He0 & Hl0 & _).
    apply head_Some_elem_of, list_elem_of_filter in He0 as [Hke0 He0].
    exists e0. split; [done|]. split; [done|].
    by rewrite Hl0, (additions_label _ _ _ _ _ He0), Hke0. }
  destruct (Hkey _ _ H1) as (e1 & He1 & Hk1 & Hl1).
  destruct (Hkey _ _ H2) as (e2 & He2 & Hk2 & Hl2).
  assert (k1 = k2) as <-.
  { rewrite <- Hk1, <- Hk2. apply (key_label_inj _ _ _ _ _ _ He1 He2).
    rewrite Hk1, Hk2. congruence. }
  congruence.
Qed.

End LoaderProperties.

(** The six-HDU file: loading it returns. *)
Lemma load_fits_generic_never_refused_witness :
  is_Ok (_load_fits_generic ReferenceGlue.fits_open ReferenceGlue.add_component
           (inr obs_file) obs_exclude).
Proof.
  apply (load_fits_generic_never_refused ReferenceGlue.add_component
           reference_add_component_contract ReferenceGlue.fits_open
           "obs/night1.cube.fits" obs_hdus obs_exclude).
Defined.

(** The six-HDU file: the group of the 1 x 2 images is the one made for
    FLUX, holding FLUX and the unnamed HDU of index 2. *)
Lemma load_fits_generic_groups_witness :
  group_12 ∈ obs_loaded ↔
  ∃ k, group_of (additions_at k
         (additions (label_base "obs/night1.cube.fits")
            (default [] obs_exclude) 0 obs_hdus)) = Some group_12.
Proof.
  apply (load_fits_generic_groups ReferenceGlue.add_component
           reference_add_component_contract ReferenceGlue.fits_open
           "obs/night1.cube.fits" obs_hdus obs_exclude obs_loaded).
  vm_compute. reflexivity.
Defined.

(** The six-HDU file: the column [spec] of the 3 x 4 group comes from the
    table at index 4. *)
Lemma load_fits_generic_sound_witness :
  ∃ i hdu, obs_hdus !! i = Some hdu ∧ has_data hdu = true ∧
           not_excluded (default [] obs_exclude) (hdu_label i hdu) i = true ∧
           component_of_hdu i hdu "spec" (ColumnComponent col_spec None) ∧
           d_label group_cat34
           = group_label (label_base "obs/night1.cube.fits") i hdu [3; 4]%nat.
Proof.
  apply (load_fits_generic_sound ReferenceGlue.add_component
           reference_add_component_contract ReferenceGlue.fits_open
           "obs/night1.cube.fits" obs_hdus obs_exclude obs_loaded
           group_cat34 "spec" (ColumnComponent col_spec None)).
  - vm_compute. reflexivity.
  - unfold obs_loaded. apply list_elem_of_lookup. by exists 1%nat.
  - unfold group_cat34. cbn [d_components]. apply list_elem_of_lookup. by exists 0%nat.
Defined.

(** The six-HDU file: the unnamed image at index 2 is in the group
    labelled night1.cube[1x2], under the label 2. *)
Lemma load_fits_generic_complete_witness :
  ∃ d, d ∈ obs_loaded ∧ ("2", ArrayComponent sky12) ∈ d_components d ∧
       d_label d = "night1.cube[1x2]" ∧
       Forall (λ p, component_shape p.2 = [1; 2]%nat) (d_components d).
Proof.
  apply (load_fits_generic_complete ReferenceGlue.add_component
           reference_add_component_contract ReferenceGlue.fits_open
           "obs/night1.cube.fits" obs_hdus obs_exclude obs_loaded
           2 hdu_sky "2" (ArrayComponent sky12)).
  - vm_compute. reflexivity.
  - reflexivity.
  - reflexivity.
  - vm_compute. reflexivity.
  - split; reflexivity.
Defined.

(** The six-HDU file: three objects, three labels. *)
Lemma load_fits_generic_labels_distinct_witness :
  NoDup (d_label <$> obs_loaded).
Proof.
  apply (load_fits_generic_labels_distinct ReferenceGlue.add_component
           reference_add_component_contract ReferenceGlue.fits_open
           "obs/night1.cube.fits" obs_hdus obs_exclude obs_loaded).
  vm_compute. reflexivity.
Defined.

(** ** The accessors of an extracted spectrum *)

(** Every spectrum that [get_spectrum] returns is one-dimensional, so it
    has no cross-dispersion: [get_cross_dispersion()] returns [None] and
    [get_cross_dispersion(unit)] raises [AttributeError], whatever the
    unit.  From a cube without uncertainty the same holds of
    [get_error]; [get_flux()] is the extracted data under the cube's
    unit. *)
Theorem get_spectrum_accessors `{E : Externals} `{C : Conversions}
    (c : CubeData) (n h w : nat) (x y : Z) (s : SpectrumData) :
  shape (nd_data (cube_base c)) = [n; h; w] →
  get_spectrum c x y = Ok s →
  SpectrumData_get_cross_dispersion s None = Ok None
  ∧ (∀ u, SpectrumData_get_cross_dispersion s (Some u) = Raise AttributeError)
  ∧ (nd_uncertainty (cube_base c) = None →
     SpectrumData_get_error s None = Ok None
     ∧ ∀ u, SpectrumData_get_error s (Some u) = Raise AttributeError)
  ∧ SpectrumData_get_flux s None
    = Ok (u_Quantity (nd_data (sp_base s)) (nd_unit (cube_base c))).
Proof.
  intros Hs Hget. unfold get_spectrum in Hget.
  apply bind_Ok in Hget as (nd & Hnd & Hget).
  apply bind_Ok in Hget as (nu & Hnu & Hget).
  apply bind_Ok in Hget as (nm & _ & Hget).
  assert (shape nd = [n]) as Hnds.
  { unfold getitem_colon_i_j in Hnd. rewrite Hs in Hnd.
    apply bind_Ok in Hnd as (i' & _ & Hnd). apply bind_Ok in Hnd as (j' & _ & Hnd).
    by injection Hnd as <-. }
  destruct (nd_wcs (cube_base c)) as [wcs|] eqn:Hw.
  2:{ by unfold SpectrumData___init__ in Hget. }
  destruct (SpectrumData_init_inv _ _ wcs Hget eq_refl) as (dd & du & cross & Hax & ->).
  cbn [nd_data] in Hax. rewrite Hnds in Hax.
  destruct (spectrum_axes_cross _ _ _ _ _ Hax) as [Hcross _].
  assert (cross = None) as -> by (apply Hcross; cbn; lia).
  unfold SpectrumData_get_cross_dispersion, SpectrumData_get_error,
    SpectrumData_get_flux, convert.
  cbn [sp_cross_dispersion sp_error sp_flux sp_base nd_data nd_unit nd_uncertainty].
  split; [done|]. split; [done|]. split; [|done].
  intros Hu. rewrite Hu in Hnu. by injection Hnu as <-.
Qed.

(** The spectrum at pixel (1, 0) of the 2 x 2 x 2 cube. *)
Lemma get_spectrum_accessors_witness :
  ∃ s, get_spectrum (E := Reference.externals) cube222 1 0 = Ok s
    ∧ SpectrumData_get_cross_dispersion (C := ReferenceConversions.conversions)
        s None = Ok None
    ∧ SpectrumData_get_cross_dispersion (C := ReferenceConversions.conversions)
        s (Some Angstrom) = Raise AttributeError.
Proof.
  destruct (get_spectrum (E := Reference.externals) cube222 1 0) as [s|e] eqn:Hs;
    [|by vm_compute in Hs].
  destruct (get_spectrum_accessors (E := Reference.externals)
              (C := ReferenceConversions.conversions) cube222 2 2 2 1 0 s)
    as (Hn & Hu & _); [reflexivity|done|].
  exists s. split; [done|]. split; [done|]. apply Hu.
Defined.
